(** * latex-service: the compile / classify / fix / retry handler

    A shallow embedding of the final [server.js] of the repository (the
    version with LLM error fixing) and of [llmService.js], and the
    properties of the service's specification checked against it.

    Strings are sequences of 8-bit characters: a JavaScript string is
    taken with its code units in the range 0..255, which covers
    everything the handler itself compares against. *)

From Stdlib Require Import String Ascii List Bool Arith Lia.
From stdpp Require Import base strings gmap list.

(** ** JavaScript string primitives used by the service *)

Module Js.

Definition LF : ascii := "010"%char.
Definition CR : ascii := "013"%char.

(** [s.startsWith(p)] *)
Fixpoint startsWith (p s : string) : bool :=
  match p, s with
  | EmptyString, _ => true
  | String _ _, EmptyString => false
  | String a p', String b s' => Ascii.eqb a b && startsWith p' s'
  end.

(** [s.includes(sub)] *)
Fixpoint includes (sub s : string) : bool :=
  startsWith sub s ||
  match s with
  | EmptyString => false
  | String _ s' => includes sub s'
  end.

(** [s.substring(n)], for [n] within the string or past its end *)
Fixpoint substring_from (n : nat) (s : string) : string :=
  match n, s with
  | 0, _ => s
  | S _, EmptyString => EmptyString
  | S n', String _ s' => substring_from n' s'
  end.

(** White space as [String.prototype.trim] sees it, among the 8-bit
    code units: TAB, LF, VT, FF, CR, SPACE and NBSP. *)
Definition is_space (c : ascii) : bool :=
  match nat_of_ascii c with
  | 9 | 10 | 11 | 12 | 13 | 32 | 160 => true
  | _ => false
  end.

Fixpoint trimStart (s : string) : string :=
  match s with
  | EmptyString => EmptyString
  | String c s' => if is_space c then trimStart s' else s
  end.

Fixpoint trimEnd (s : string) : string :=
  match s with
  | EmptyString => EmptyString
  | String c s' =>
      match trimEnd s' with
      | EmptyString => if is_space c then EmptyString else String c EmptyString
      | t => String c t
      end
  end.

(** [s.trim()] *)
Definition trim (s : string) : string := trimEnd (trimStart s).

(** Prepend a character to the first piece of a split. *)
Definition cons_first (c : ascii) (pieces : list string) : list string :=
  match pieces with
  | [] => [String c EmptyString]
  | w :: ws => String c w :: ws
  end.

(** [s.split(sep)] for a non-empty separator.  [skip] counts the
    characters of a separator occurrence that are still to be passed. *)
Fixpoint split_go (sep : string) (skip : nat) (s : string) : list string :=
  match s with
  | EmptyString => [EmptyString]
  | String c s' =>
      match skip with
      | S k => split_go sep k s'
      | 0 =>
          if startsWith sep s
          then EmptyString :: split_go sep (String.length sep - 1) s'
          else cons_first c (split_go sep 0 s')
      end
  end.

Definition split (sep s : string) : list string := split_go sep 0 s.

(** [pieces.join(sep)] *)
Fixpoint join (sep : string) (pieces : list string) : string :=
  match pieces with
  | [] => EmptyString
  | [w] => w
  | w :: ws => w +:+ sep +:+ join sep ws
  end.

(** [l.slice(-n)] *)
Definition slice_last {A} (n : nat) (l : list A) : list A :=
  drop (length l - n) l.

(** [l.slice(i, j)] for [0 <= i] *)
Definition slice {A} (i j : nat) (l : list A) : list A :=
  take (j - i) (drop i l).

(** Line terminators, which [.] of a regular expression does not match. *)
Definition is_line_terminator (c : ascii) : bool :=
  Ascii.eqb c LF || Ascii.eqb c CR.

End Js.

(** ** The log interpreter: [extractLatexError], the part after the log is read *)

Definition NL : string := String Js.LF EmptyString.

Definition MSG_UNDEFINED : string :=
  "Undefined LaTeX command. Check for typos in commands or missing packages.".
Definition MSG_MISSING : string :=
  "Missing delimiter or bracket. Check for unclosed braces, brackets, or math mode.".
Definition MSG_EMERGENCY : string :=
  "Critical LaTeX error. Check document structure and syntax.".
Definition MSG_GENERIC : string := "Compilation failed. Check LaTeX syntax.".
Definition MSG_NOLOG : string := "Failed to compile LaTeX document.".

(** The lazy group [(.+?)] followed by the closing quote, after the
    first character of the group has been taken: the shortest extension
    that reaches a quote, none past a line terminator. *)
Fixpoint lazy_to_quote (s : string) : option string :=
  match s with
  | EmptyString => None
  | String c s' =>
      if Ascii.eqb c "'"%char then Some EmptyString
      else if Js.is_line_terminator c then None
      else String c <$> lazy_to_quote s'
  end.

(** The group at a position where [File `] has just been read. *)
Definition group_after_open (s : string) : option string :=
  match s with
  | EmptyString => None
  | String c s' =>
      if Js.is_line_terminator c then None
      else String c <$> lazy_to_quote s'
  end.

(** [line.match(/File `(.+?)'/)]: the group of the leftmost match. *)
Fixpoint match_file (s : string) : option string :=
  match
    (if Js.startsWith "File `" s
     then group_after_open (Js.substring_from 6 s) else None)
  with
  | Some g => Some g
  | None =>
      match s with
      | EmptyString => None
      | String _ s' => match_file s'
      end
  end.

Definition missing_file_message (line : string) : string :=
  "Missing file or package: " +:+
  (match match_file line with Some g => g | None => "unknown" end) +:+
  ". Add \usepackage{} for missing packages.".

(** The [if / else if] chain on the first error line. *)
Definition classify_line (line : string) : string :=
  if Js.includes "Undefined control sequence" line then MSG_UNDEFINED
  else if Js.includes "File" line && Js.includes "not found" line
       then missing_file_message line
  else if Js.includes "Missing" line then MSG_MISSING
  else if Js.includes "Emergency stop" line then MSG_EMERGENCY
  else Js.trim (Js.substring_from 1 line).

(** What the [for] loop over the lines leaves in its three variables. *)
Record Scan := MkScan {
  errorFound : bool;
  errorLines : list string;
  scanMessage : string
}.

Definition scan_init : Scan := MkScan false [] EmptyString.

(** The loop [for (let i = 0; i < lines.length; i++)], entered at index
    [i] with [n] iterations left; it breaks at the first line that starts
    with the marker. *)
Fixpoint scan_lines (lines : list string) (n i : nat) : Scan :=
  match n with
  | 0 => scan_init
  | S n' =>
      match lines !! i with
      | None => scan_init
      | Some line =>
          if Js.startsWith "!" line
          then MkScan true
                 (Js.slice i (Nat.min (i + 5) (length lines)) lines)
                 (classify_line line)
          else scan_lines lines n' (S i)
      end
  end.

(** The filter of the fallback branch: [l.trim() && !l.includes('*File List*')] *)
Definition meaningful (l : string) : bool :=
  negb (String.eqb (Js.trim l) EmptyString) && negb (Js.includes "*File List*" l).

Record LatexError := MkLatexError {
  userFriendlyError : string;
  errorDetails : string
}.

(** The body of the [try] of [extractLatexError] once the log is read. *)
Definition interpret_log (logContent : string) : LatexError :=
  let lines := Js.split NL logContent in
  let sc := scan_lines lines (length lines) 0 in
  if negb (errorFound sc) then
    let meaningfulLines := List.filter meaningful lines in
    MkLatexError MSG_GENERIC (Js.join NL (Js.slice_last 10 meaningfulLines))
  else
    MkLatexError (scanMessage sc) (Js.join NL (errorLines sc)).

(** ** JavaScript values of the request body *)

(** A field of the parsed JSON body as the handler observes it.  A
    number is kept by whether it is zero and by its [String()] image; an
    object or array by its [String()] image, [None] when the conversion
    throws, and by what [fs.promises.writeFile] does with it: [None] for
    an object, which is refused before the file is opened, and
    [Some (text, ok)] for an array, whose elements are written one after
    the other once the file is open: [text] is what the file holds
    afterwards, and [ok] tells whether every element could be written. *)
Inductive JsValue :=
| VUndefined
| VNull
| VBool (b : bool)
| VNumber (is_zero : bool) (image : string)
| VString (s : string)
| VObject (image : option string) (written : option (string * bool)).

(** Truthiness, as tested by [!v]. *)
Definition truthy (v : JsValue) : bool :=
  match v with
  | VUndefined | VNull => false
  | VBool b => b
  | VNumber z _ => negb z
  | VString s => negb (String.eqb s EmptyString)
  | VObject _ _ => true
  end.

(** The conversion of a template literal, [`${v}`]. *)
Definition to_template (v : JsValue) : option string :=
  match v with
  | VUndefined => Some "undefined"
  | VNull => Some "null"
  | VBool b => Some (if b then "true" else "false")
  | VNumber _ i => Some i
  | VString s => Some s
  | VObject i _ => i
  end.

(** What [fs.promises.writeFile(file, data)] does with [data] (Node
    18): a string is written; an array is written element by element; any
    other value is refused before the file is opened.  [Some (text, ok)]:
    the file is opened and left with [text], and the promise resolves
    when [ok]. *)
Definition write_effect (data : JsValue) : option (string * bool) :=
  match data with
  | VString s => Some (s, true)
  | VObject _ wr => wr
  | _ => None
  end.

(** ** Effects: calls to the file system, the compiler and the completion service *)

Record CompletionRequest := MkCompletionRequest {
  cr_model : string;
  cr_max_tokens : nat;
  cr_temperature_tenths : nat;
  cr_system : string;
  cr_content : string
}.

(** [path.join(dir, name)] is kept as the pair of its arguments. *)
Inductive Call :=
| Mkdir (dir : string)                        (* fs.mkdir(dir, {recursive: true}) *)
| WriteFile (dir name : string) (data : JsValue)
| Pdflatex (dir : string)                     (* execAsync(`cd ${dir} && pdflatex ...`, {timeout: 30000}) *)
| Access (dir name : string)
| ReadFile (dir name : string)
| Rm (dir : string)                           (* fs.rm(dir, {recursive: true, force: true}) *)
| MessagesCreate (req : CompletionRequest).   (* anthropic.messages.create(req), read at .content[0].text *)

(** A promise settles: it resolves with a payload or rejects with an
    error, kept by its [message]. *)
Inductive Answer :=
| Ok (payload : string)
| Err (message : string).

(** Programs: a tree of calls, each continued on the answer received. *)
Inductive Prog (A : Type) : Type :=
| Ret (a : A)
| Throw (message : string)
| Do (c : Call) (k : Answer -> Prog A).

Arguments Ret {A} a.
Arguments Throw {A} message.
Arguments Do {A} c k.

Fixpoint bind {A B} (p : Prog A) (f : A -> Prog B) : Prog B :=
  match p with
  | Ret a => f a
  | Throw m => Throw m
  | Do c k => Do c (fun x => bind (k x) f)
  end.

#[export] Instance prog_ret : MRet Prog := @Ret.
#[export] Instance prog_bind : MBind Prog := fun A B f p => bind p f.

(** [try { p } catch (error) { h(error.message) }] *)
Fixpoint try_catch {A} (p : Prog A) (h : string -> Prog A) : Prog A :=
  match p with
  | Ret a => Ret a
  | Throw m => h m
  | Do c k => Do c (fun x => try_catch (k x) h)
  end.

(** [await c] *)
Definition await (c : Call) : Prog string :=
  Do c (fun a => match a with Ok v => Ret v | Err m => Throw m end).

(** [await c.catch(() => {})] *)
Definition swallow (c : Call) : Prog unit :=
  Do c (fun _ => Ret tt).

(** [await c.then(() => true).catch(() => false)] *)
Definition settles_ok (c : Call) : Prog bool :=
  Do c (fun a => match a with Ok _ => Ret true | Err _ => Ret false end).

(** ** llmService.js *)

Definition FENCE : string := "```".
Definition FENCE_LATEX : string := "```latex".

(** [s.replace(/<lit>\n?/g, '')] for a non-empty literal: every
    occurrence found from left to right is dropped, with the line feed
    that follows it when there is one.  [skip] counts the characters of
    the current occurrence still to be dropped. *)
Fixpoint remove_all (lit : string) (skip : nat) (s : string) : string :=
  match s with
  | EmptyString => EmptyString
  | String c s' =>
      match skip with
      | S k => remove_all lit k s'
      | 0 =>
          if Js.startsWith lit s then
            if Js.startsWith NL (Js.substring_from (String.length lit) s)
            then remove_all lit (String.length lit) s'
            else remove_all lit (String.length lit - 1) s'
          else String c (remove_all lit 0 s')
      end
  end.

(** The two statements on the response text. *)
Definition clean_response (text : string) : string :=
  let fixedLatex := Js.trim text in
  remove_all FENCE 0 (remove_all FENCE_LATEX 0 fixedLatex).

Definition SYSTEM_PROMPT : string :=
  "You are a LaTeX expert with $50M yearly salary. Fix LaTeX compilation errors and return ONLY the corrected LaTeX code. No explanations, no markdown, just the complete fixed LaTeX document.".

Definition fix_prompt (latex error : string) : string :=
  "Fix this LaTeX compilation error:" +:+ NL +:+ NL +:+
  "Error: " +:+ error +:+ NL +:+ NL +:+
  "Original LaTeX:" +:+ NL +:+ latex +:+ NL +:+ NL +:+
  "Return only the complete fixed LaTeX code:".

Definition fix_request (latex error : string) : CompletionRequest :=
  MkCompletionRequest "claude-sonnet-4-20250514" 4000 3 SYSTEM_PROMPT
    (fix_prompt latex error).

(** [fixLatexErrors(latex, error)]: its [catch] logs and throws again. *)
Definition fixLatexErrors (latex : JsValue) (error : string) : Prog string :=
  try_catch
    (match to_template latex with
     | None => Throw "TypeError: Cannot convert object to primitive value"
     | Some src =>
         text ← await (MessagesCreate (fix_request src error));
         mret (clean_response text)
     end)
    (fun message => Throw message).

(** ** server.js: the helpers *)

(** [extractLatexError(tempDir)] *)
Definition extractLatexError (tempDir : string) : Prog LatexError :=
  try_catch
    (logContent ← await (ReadFile tempDir "document.log");
     mret (interpret_log logContent))
    (fun message => mret (MkLatexError MSG_NOLOG message)).

(** [userFriendlyError + (errorDetails ? `\n\nDetails: ${errorDetails}` : '')] *)
Definition error_text (e : LatexError) : string :=
  userFriendlyError e +:+
  (if String.eqb (errorDetails e) EmptyString then EmptyString
   else NL +:+ NL +:+ "Details: " +:+ errorDetails e).

(** [compileLatex(tempDir, texFile, latex)]; it resolves with the bytes
    of the artifact. *)
Definition compileLatex (tempDir : string) (texFile : string * string)
    (latex : JsValue) : Prog string :=
  _ ← await (WriteFile texFile.1 texFile.2 latex);
  try_catch
    (_ ← await (Pdflatex tempDir);
     pdfExists ← settles_ok (Access tempDir "document.pdf");
     if negb pdfExists then
       e ← extractLatexError tempDir;
       Throw (error_text e)
     else await (ReadFile tempDir "document.pdf"))
    (fun message =>
       if Js.includes "Details:" message then Throw message
       else
         e ← extractLatexError tempDir;
         Throw (error_text e)).

(** ** server.js: the [POST /compile] handler *)

Definition MAX_ATTEMPTS : nat := 3.

(** [req.body] when [express.json()] has parsed it: an object, with
    [VUndefined] for a field that is absent.  A body that no parser took
    is not a [Request]; see [compile_endpoint]. *)
Record Request := MkRequest {
  latex : JsValue;
  autoFix : JsValue
}.

Inductive Response :=
| BadRequest (error : string)
    (* res.status(400).json({error}) *)
| PdfSent (jobId : string) (attempts : nat) (llmFixed : bool) (pdf : string)
    (* res.set({X-Job-Id, X-Compilation-Attempts, X-LLM-Fixed}); res.send(pdf) *)
| CompileFailed (error details jobId : string) (attempts : nat)
    (llmSuggestions : option string)
    (* res.status(500).json(errorResponse) *)
| InternalError (error details jobId : string).
    (* res.status(500).json({error: "Internal server error", ...}) *)

Definition status (r : Response) : nat :=
  match r with
  | BadRequest _ => 400
  | PdfSent _ _ _ _ => 200
  | CompileFailed _ _ _ _ _ | InternalError _ _ _ => 500
  end.

(** The variables the loop assigns. *)
Record Vars := MkVars {
  currentLatex : JsValue;
  lastError : option string;        (* [None] is [null] *)
  llmSuggestions : option string
}.

(** How one turn of the loop body ends. *)
Inductive Turn :=
| TurnSent (r : Response)     (* [return res.send(pdfBuffer)] *)
| TurnBreak (v : Vars)        (* [break] *)
| TurnNext (v : Vars).        (* the end of the body is reached *)

Definition SUGGESTION_HEAD : string :=
  "AI has attempted to fix the following issues:" +:+ NL.
Definition SUGGESTION_NONE : string :=
  "AI assistance unavailable. Manual fixes required.".

(** [s.split('\n')[0]]; a split is never empty. *)
Definition first_line (s : string) : string :=
  match Js.split NL s with
  | [] => EmptyString
  | l :: _ => l
  end.

(** The [catch (compileError)] block of the loop body: it records the
    message, stops when fixing is off or at the last attempt, and asks
    for a fix otherwise. *)
Definition on_compile_error (autoFix : JsValue) (attempt : nat) (v : Vars)
    (message : string) : Prog Turn :=
  let v1 := MkVars (currentLatex v) (Some message) (llmSuggestions v) in
  if negb (truthy autoFix) || (attempt =? MAX_ATTEMPTS)
  then mret (TurnBreak v1)
  else
    try_catch
      (fixed ← fixLatexErrors (currentLatex v1) message;
       mret (TurnNext
               (MkVars (VString fixed) (Some message)
                  (Some (SUGGESTION_HEAD +:+ first_line message)))))
      (fun _ =>
         mret (TurnBreak
                 (MkVars (currentLatex v1) (Some message)
                    (Some SUGGESTION_NONE)))).

(** The body of the [for] loop at a given [attempt]. *)
Definition attempt_body (jobId tempDir : string) (texFile : string * string)
    (autoFix : JsValue) (attempt : nat) (v : Vars) : Prog Turn :=
  try_catch
    (pdfBuffer ← compileLatex tempDir texFile (currentLatex v);
     _ ← await (Rm tempDir);
     mret (TurnSent (PdfSent jobId attempt (1 <? attempt) pdfBuffer)))
    (on_compile_error autoFix attempt v).

(** How the loop is left. *)
Inductive LoopExit :=
| Sent (r : Response)
| Fell (v : Vars).

(** [for (let attempt = 1; attempt <= MAX_ATTEMPTS; attempt++)], entered
    at [attempt] with the variables [v]; [n] bounds the turns left. *)
Fixpoint attempts_loop (n : nat) (jobId tempDir : string)
    (texFile : string * string) (autoFix : JsValue) (attempt : nat) (v : Vars)
    : Prog LoopExit :=
  match n with
  | 0 => mret (Fell v)
  | S n' =>
      if attempt <=? MAX_ATTEMPTS then
        t ← attempt_body jobId tempDir texFile autoFix attempt v;
        match t with
        | TurnSent r => mret (Sent r)
        | TurnBreak v' => mret (Fell v')
        | TurnNext v' =>
            attempts_loop n' jobId tempDir texFile autoFix (S attempt) v'
        end
      else mret (Fell v)
  end.

(** The [errorResponse] object built after the loop. *)
Definition error_response (jobId : string) (v : Vars) : Prog Response :=
  match lastError v with
  | None => Throw "TypeError: Cannot read properties of null (reading 'split')"
  | Some le =>
      if Js.includes "Details:" le then
        match Js.split "Details:" le !! 1 with
        | Some d =>
            mret (CompileFailed (first_line le) (Js.trim d) jobId MAX_ATTEMPTS
                    (llmSuggestions v))
        | None =>
            Throw "TypeError: Cannot read properties of undefined (reading 'trim')"
        end
      else
        mret (CompileFailed (first_line le) le jobId MAX_ATTEMPTS
                (llmSuggestions v))
  end.

Definition temp_dir (jobId : string) : string := "/tmp/latex-" +:+ jobId.

(** [app.post("/compile", async (req, res) => ...)] on a body that is
    an object, for the identifier that [uuidv4()] gave; the response sent
    is the result, and sending it is taken not to throw. *)
Definition compile_handler (jobId : string) (req : Request) : Prog Response :=
  let tempDir := temp_dir jobId in
  try_catch
    (let originalLatex := latex req in
     let autoFix :=
       match autoFix req with VUndefined => VBool true | a => a end in
     if negb (truthy originalLatex) then
       mret (BadRequest "No LaTeX content provided")
     else
       _ ← await (Mkdir tempDir);
       let texFile := (tempDir, "document.tex") in
       x ← attempts_loop MAX_ATTEMPTS jobId tempDir texFile autoFix 1
             (MkVars originalLatex None None);
       match x with
       | Sent r => mret r
       | Fell v =>
           _ ← swallow (Rm tempDir);
           error_response jobId v
       end)
    (fun message =>
       _ ← swallow (Rm tempDir);
       mret (InternalError "Internal server error" message jobId)).

(** The message of the [TypeError] that the destructuring of
    [req.body] throws when the body is [undefined]. *)
Definition DESTRUCTURE_ERROR : string :=
  "Cannot destructure property 'latex' of 'req.body' as it is undefined.".

(** [app.post("/compile", async (req, res) => ...)] on [req.body] as the
    handler finds it: [Some] object that [express.json()] parsed, or
    [None] for [undefined], which is what a body that no parser took is
    under express 5.  The destructuring of [req.body] is the first
    statement of the [try]: on [undefined] it throws, and the outer
    [catch] answers. *)
Definition compile_endpoint (jobId : string) (body : option Request)
    : Prog Response :=
  match body with
  | Some req => compile_handler jobId req
  | None =>
      try_catch (Throw DESTRUCTURE_ERROR)
        (fun message =>
           _ ← swallow (Rm (temp_dir jobId));
           mret (InternalError "Internal server error" message jobId))
  end.

(** ** The world the handler runs in *)

(** What one run of the compiler does: how the process ends, and the
    artifact and the log found in the directory afterwards. *)
Record PdfRun := MkPdfRun {
  run_exit : Answer;
  run_pdf : option string;
  run_log : option string
}.

(** Everything the service does not decide, by the number of the call:
    a failure of a file operation, the behaviour of the compiler on the
    source it finds, the answer of the completion service. *)
Record Oracle := MkOracle {
  io_fault : nat -> option string;
  pdflatex_run : nat -> option string -> PdfRun;
  completion : nat -> CompletionRequest -> Answer
}.

(** The directories, each under its absolute, normalised path and with
    the regular files it holds, and the number of calls answered.  A
    directory below another is an entry of its own. *)
Record World := MkWorld {
  fs : gmap string (gmap string string);
  clock : nat
}.

(** [k] is the directory [d] or lies below it. *)
Definition in_tree (d k : string) : bool :=
  String.eqb k d || Js.startsWith (d +:+ "/") k.

(** The prefixes of a text, the shortest first. *)
Fixpoint prefixes (s : string) : list string :=
  match s with
  | EmptyString => [EmptyString]
  | String c s' => EmptyString :: List.map (String c) (prefixes s')
  end.

(** The directories above [d], the root apart: the prefixes of [d] that
    are followed by a [/]. *)
Definition parents (d : string) : list string :=
  List.filter
    (fun p => negb (String.eqb p EmptyString) && Js.startsWith (p +:+ "/") d)
    (prefixes d).

(** A directory comes into being, empty, unless it is there. *)
Definition add_dir (p : string) (f : gmap string (gmap string string))
    : gmap string (gmap string string) :=
  match f !! p with
  | Some _ => f
  | None => <[p:=∅]> f
  end.

(** [fs.mkdir(d, {recursive: true})]: the directory and those above it
    that are missing are created. *)
Definition mkdir_p (d : string) (f : gmap string (gmap string string))
    : gmap string (gmap string string) :=
  add_dir d (foldr add_dir f (parents d)).

(** [fs.rm(d, {recursive: true, force: true})]: the directory goes with
    everything below it. *)
Definition rm_tree (d : string) (f : gmap string (gmap string string))
    : gmap string (gmap string string) :=
  filter (fun kv => in_tree d kv.1 = false) f.

(** The message of the error for a path that is not there. *)
Definition enoent (op dir name : string) : string :=
  "ENOENT: no such file or directory, " +:+ op +:+ " '" +:+
  dir +:+ "/" +:+ name +:+ "'".

Definition set_file (name : string) (content : option string)
    (files : gmap string string) : gmap string string :=
  match content with
  | Some c => <[name:=c]> files
  | None => delete name files
  end.

Definition file_of (f : gmap string (gmap string string)) (dir name : string)
    : option string :=
  f !! dir ≫= fun files => files !! name.

(** The answer to a file operation that may be made to fail; a failed
    operation leaves the file system as it was. *)
Definition faulty (o : Oracle) (w : World)
    (normal : Answer * gmap string (gmap string string))
    : Answer * gmap string (gmap string string) :=
  match io_fault o (clock w) with
  | Some m => (Err m, fs w)
  | None => normal
  end.

(** How the world answers a call.  [mkdir] and [rm] are recursive and
    forced, so they accept a directory that is there, or is not;
    [writeFile] does with its data what [write_effect] tells, in a
    directory that is there; the compiler fails when it cannot enter the
    directory, and otherwise leaves the log and the artifact that its run
    decides. *)
Definition answer (o : Oracle) (w : World) (c : Call)
    : Answer * gmap string (gmap string string) :=
  match c with
  | Mkdir d => faulty o w (Ok EmptyString, mkdir_p d (fs w))
  | WriteFile d name data =>
      faulty o w
        (match write_effect data with
         | None => (Err "TypeError [ERR_INVALID_ARG_TYPE]", fs w)
         | Some (text, ok) =>
             match fs w !! d with
             | Some files =>
                 (if ok then Ok EmptyString
                  else Err "TypeError [ERR_INVALID_ARG_TYPE]",
                  <[d:=<[name:=text]> files]> (fs w))
             | None => (Err (enoent "open" d name), fs w)
             end
         end)
  | Pdflatex d =>
      match fs w !! d with
      | None => (Err "Command failed: cd", fs w)
      | Some files =>
          let r := pdflatex_run o (clock w) (files !! "document.tex") in
          (run_exit r,
           <[d:=set_file "document.log" (run_log r)
                  (set_file "document.pdf" (run_pdf r) files)]> (fs w))
      end
  | Access d name =>
      faulty o w
        (match file_of (fs w) d name with
         | Some _ => Ok EmptyString
         | None => Err (enoent "access" d name)
         end, fs w)
  | ReadFile d name =>
      faulty o w
        (match file_of (fs w) d name with
         | Some content => Ok content
         | None => Err (enoent "open" d name)
         end, fs w)
  | Rm d => faulty o w (Ok EmptyString, rm_tree d (fs w))
  | MessagesCreate req => (completion o (clock w) req, fs w)
  end.

Definition step (o : Oracle) (w : World) (c : Call) : Answer * World :=
  let '(a, f) := answer o w c in (a, MkWorld f (S (clock w))).

Inductive Outcome (A : Type) : Type :=
| Returned (a : A)
| Thrown (message : string).

Arguments Returned {A} a.
Arguments Thrown {A} message.

Record Run (A : Type) := MkRun {
  outcome : Outcome A;
  final : World;
  trace : list (Call * Answer)
}.

Arguments MkRun {A}.
Arguments outcome {A}.
Arguments final {A}.
Arguments trace {A}.

(** A run after one more call at its start. *)
Definition extend {A} (e : Call * Answer) (r : Run A) : Run A :=
  MkRun (outcome r) (final r) (e :: trace r).

(** Running a program in a world: every call is answered by [step]. *)
Fixpoint exec {A} (o : Oracle) (p : Prog A) (w : World) : Run A :=
  match p with
  | Ret a => MkRun (Returned a) w []
  | Throw m => MkRun (Thrown m) w []
  | Do c k =>
      let '(a, w1) := step o w c in
      extend (c, a) (exec o (k a) w1)
  end.

Definition is_pdflatex (c : Call) : bool :=
  match c with Pdflatex _ => true | _ => false end.
Definition is_completion (c : Call) : bool :=
  match c with MessagesCreate _ => true | _ => false end.
Definition is_external (c : Call) : bool := is_pdflatex c || is_completion c.

(** The number of calls of a kind in a trace. *)
Fixpoint count (P : Call -> bool) (t : list (Call * Answer)) : nat :=
  match t with
  | [] => 0
  | e :: t' => (if P e.1 then 1 else 0) + count P t'
  end.

(** ** The log interpreter as the specification words it *)

Module Spec.

Definition EXCERPT_LINES : nat := 10.

Definition non_empty (l : string) : bool := negb (String.eqb l EmptyString).

(** Four substrings in a fixed order, each with its sentence; anything
    else is the raw error line with the marker stripped. *)
Definition message_of (line : string) : string :=
  if Js.includes "Undefined control sequence" line then MSG_UNDEFINED
  else if Js.includes "File" line && Js.includes "not found" line
       then missing_file_message line
  else if Js.includes "Missing" line then MSG_MISSING
  else if Js.includes "Emergency stop" line then MSG_EMERGENCY
  else Js.substring_from 1 line.

(** The first line whose first character is the marker decides; with
    none, the generic message and the last non-empty lines. *)
Definition interprets (log : string) (e : LatexError) : Prop :=
  let lines := Js.split NL log in
  match List.find (Js.startsWith "!") lines with
  | Some line => userFriendlyError e = message_of line
  | None =>
      e = MkLatexError MSG_GENERIC
            (Js.join NL (Js.slice_last EXCERPT_LINES (List.filter non_empty lines)))
  end.

(** The replacement source carries no fence and no white space at
    either end. *)
Definition clean (r : string) : Prop :=
  Js.includes FENCE r = false /\ Js.trim r = r.

End Spec.

(** ** Predicates on runs *)

(** A run followed, when it returned, by a run that starts where it
    ended. *)
Definition then_run {A B} (r : Run A) (k : A -> World -> Run B) : Run B :=
  match outcome r with
  | Returned a =>
      MkRun (outcome (k a (final r))) (final (k a (final r)))
        (trace r ++ trace (k a (final r)))
  | Thrown m => MkRun (Thrown m) (final r) (trace r)
  end.

(** [stops a n]: the [if] of the catch block breaks. *)
Definition stops (autoFix : JsValue) (attempt : nat) : bool :=
  negb (truthy autoFix) || (attempt =? MAX_ATTEMPTS).

(** [always p R]: whatever the answers to its calls, [p] ends in an
    outcome and with a trace related by [R]. *)
Fixpoint always {A} (p : Prog A)
    (R : Outcome A -> list (Call * Answer) -> Prop) : Prop :=
  match p with
  | Ret a => R (Returned a) []
  | Throw m => R (Thrown m) []
  | Do c k => forall x, always (k x) (fun o t => R o ((c, x) :: t))
  end.

Definition returns {A} (o : Outcome A) : Prop :=
  match o with Returned _ => True | Thrown _ => False end.

(** The last call of a trace is the removal of [d]. *)
Definition last_is_rm (d : string) (t : list (Call * Answer)) : Prop :=
  exists a, last t = Some (Rm d, a).

(** The last removal of [d] in a trace went through. *)
Definition last_rm_ok (d : string) (t : list (Call * Answer)) : Prop :=
  exists x, last t = Some (Rm d, Ok x).

(** What the handler leaves behind, by the response it sends. *)
Definition handler_post (j : string) (o : Outcome Response)
    (t : list (Call * Answer)) : Prop :=
  match o with
  | Returned (BadRequest _) => t = []
  | Returned (PdfSent _ a _ _) =>
      last_rm_ok (temp_dir j) t /\ 1 <= a <= MAX_ATTEMPTS
  | Returned (CompileFailed _ _ _ a _) =>
      last_is_rm (temp_dir j) t /\ a = MAX_ATTEMPTS
  | Returned (InternalError _ _ _) => last_is_rm (temp_dir j) t
  | Thrown _ => False
  end.

(** The compiler was run in [d] and its process ended with status zero. *)
Definition exited_zero (d : string) (t : list (Call * Answer)) : bool :=
  existsb
    (fun e =>
       match e with
       | (Pdflatex d', Ok _) => String.eqb d d'
       | _ => false
       end) t.

(** The expected output file of a job directory. *)
Definition artifact (w : World) (d : string) : option string :=
  file_of (fs w) d "document.pdf".

(** ** Sample inputs *)

Definition log_two_errors : string :=
  "! Missing $ inserted." +:+ NL +:+ "! Undefined control sequence.".

Definition log_file_list : string :=
  "(./document.tex" +:+ NL +:+ " *File List*".

Definition log_spaced_error : string := "! LaTeX Error: Something.".

Definition log_undefined : string :=
  "This is pdfTeX, Version 3.14159265-2.6-1.40.21" +:+ NL +:+
  "(./document.tex" +:+ NL +:+
  "LaTeX2e <2020-10-01>" +:+ NL +:+
  "! Undefined control sequence." +:+ NL +:+
  "l.3 \textbf{Hello \unknowncommand" +:+ NL +:+
  "? " +:+ NL +:+
  "! Emergency stop.".

Definition fenced_answer : string :=
  "```latex" +:+ NL +:+ "\documentclass{article}" +:+ NL +:+ "```".

(** ** Sample worlds *)

Definition empty_world : World := MkWorld ∅ 0.

Definition sample_request (a : JsValue) : Request :=
  MkRequest (VString "\documentclass{article}") a.

(** The compiler produces the artifact at every run; no file operation fails. *)
Definition compiles_oracle : Oracle :=
  MkOracle (fun _ => None)
    (fun _ _ => MkPdfRun (Ok EmptyString) (Some "%PDF") (Some "Output written"))
    (fun _ _ => Err "unreachable").

(** The compiler stops on an undefined command at every run; the
    completion service answers with a fenced document. *)
Definition fails_oracle : Oracle :=
  MkOracle (fun _ => None)
    (fun _ _ => MkPdfRun (Err "Command failed: pdflatex") None (Some log_undefined))
    (fun _ _ => Ok fenced_answer).

(** The compiler produces the artifact; file operations are refused
    from the sixth call on, which in a run where the compiler succeeds
    at once are the removals of the directory. *)
Definition busy_oracle : Oracle :=
  MkOracle (fun n => if 5 <=? n then Some "EBUSY: resource busy or locked" else None)
    (fun _ _ => MkPdfRun (Ok EmptyString) (Some "%PDF") (Some "Output written"))
    (fun _ _ => Err "unreachable").

(** The compiler is killed at the timeout with the artifact partly written. *)
Definition timeout_oracle : Oracle :=
  MkOracle (fun _ => None)
    (fun _ _ => MkPdfRun (Err "Command failed: pdflatex") (Some "%PDF-partial") None)
    (fun _ _ => Err "unreachable").

Definition sample_dir : string := temp_dir "job".

Definition sample_world : World := MkWorld {[ sample_dir := ∅ ]} 0.

(** The compiler stops on an undefined command; file operations are
    refused from the fifth call on, which is the removal of the directory
    when fixing is off. *)
Definition stuck_oracle : Oracle :=
  MkOracle (fun n => if 4 <=? n then Some "EACCES: permission denied" else None)
    (fun _ _ => MkPdfRun (Err "Command failed: pdflatex") None (Some log_undefined))
    (fun _ _ => Err "unreachable").

(** * Further definitions: traces of the handler *)

(** What comes after the first call to the completion service that
    failed, if there is one. *)
Fixpoint after_fix_error (t : list (Call * Answer)) : option (list (Call * Answer)) :=
  match t with
  | [] => None
  | (MessagesCreate _, Err _) :: t' => Some t'
  | _ :: t' => after_fix_error t'
  end.

(** The trace goes on with the writing of [s] to the source file of [d]. *)
Definition next_is_write (d s : string) (t : list (Call * Answer)) : bool :=
  match t with
  | (WriteFile d' n (VString s'), _) :: _ =>
      String.eqb d' d && String.eqb n "document.tex" && String.eqb s' s
  | _ => false
  end.

(** Every answer of the completion service is written, cleaned, to the
    source file of [d] by the very next call. *)
Fixpoint fixes_written (d : string) (t : list (Call * Answer)) : bool :=
  match t with
  | [] => true
  | (MessagesCreate _, Ok text) :: t' =>
      next_is_write d (clean_response text) t' && fixes_written d t'
  | _ :: t' => fixes_written d t'
  end.

(** The directory a call works in, if it works in one. *)
Definition call_dir (c : Call) : option string :=
  match c with
  | Mkdir d | WriteFile d _ _ | Pdflatex d | Access d _ | ReadFile d _ | Rm d =>
      Some d
  | MessagesCreate _ => None
  end.

(** The call stays out of every directory but [d]. *)
Definition within (d : string) (c : Call) : Prop :=
  match call_dir c with
  | Some d' => d' = d
  | None => True
  end.

(** All the calls a program can make satisfy [Q]. *)
Fixpoint calls_all {A} (Q : Call -> Prop) (p : Prog A) : Prop :=
  match p with
  | Ret _ | Throw _ => True
  | Do c k => Q c /\ forall x, calls_all Q (k x)
  end.

(** A run followed, when it threw, by the run of the handler. *)
Definition catch_run {A} (r : Run A) (h : string -> World -> Run A) : Run A :=
  match outcome r with
  | Returned a => r
  | Thrown m =>
      MkRun (outcome (h m (final r))) (final (h m (final r)))
        (trace r ++ trace (h m (final r)))
  end.

(** A text put in front of the first piece of a split. *)
Definition prepend (a : string) (pieces : list string) : list string :=
  match pieces with
  | [] => [a]
  | w :: ws => (a +:+ w) :: ws
  end.

(** The trace starts with the writing of [l] to the file [f] of [d]. *)
Definition starts_with_write (d f : string) (l : JsValue)
    (t : list (Call * Answer)) : Prop :=
  exists a rest, t = (WriteFile d f l, a) :: rest.

(** How the catch block of the loop body ends, with the calls [th] it made. *)
Definition catch_post (af : JsValue) (attempt : nat) (v : Vars)
    (o : Outcome Turn) (th : list (Call * Answer)) : Prop :=
  match o with
  | Returned (TurnSent _) => False
  | Returned (TurnBreak v') =>
      is_Some (lastError v') /\
      ((stops af attempt = true /\ th = [] /\
        llmSuggestions v' = llmSuggestions v) \/
       (stops af attempt = false /\
        llmSuggestions v' = Some SUGGESTION_NONE /\
        (th = [] \/ exists q m, th = [(MessagesCreate q, Err m)])))
  | Returned (TurnNext v') =>
      stops af attempt = false /\ is_Some (lastError v') /\
      exists q text,
        th = [(MessagesCreate q, Ok text)] /\
        currentLatex v' = VString (clean_response text)
  | Thrown _ => False
  end.

(** How a turn of the loop ends: the calls of the compile step, then
    those of the catch block. *)
Definition turn_post (j d : string) (af : JsValue) (attempt : nat) (v : Vars)
    (o : Outcome Turn) (t : list (Call * Answer)) : Prop :=
  exists tc th,
    t = tc ++ th /\
    starts_with_write d "document.tex" (currentLatex v) tc /\
    count is_completion tc = 0 /\
    match o with
    | Returned (TurnSent r) =>
        th = [] /\ last_rm_ok d tc /\
        exists pdf, r = PdfSent j attempt (1 <? attempt) pdf
    | _ => catch_post af attempt v o th
    end.

(** How the loop entered at [attempt] with [v] ends. *)
Definition loop_post (j d : string) (attempt : nat) (v : Vars)
    (o : Outcome LoopExit) (t : list (Call * Answer)) : Prop :=
  fixes_written d t = true /\
  (t <> [] -> starts_with_write d "document.tex" (currentLatex v) t) /\
  match o with
  | Returned (Sent r) =>
      exists a pdf,
        r = PdfSent j a (1 <? a) pdf /\
        attempt <= a <= MAX_ATTEMPTS /\
        count is_completion t = a - attempt /\
        after_fix_error t = None /\
        last_rm_ok d t
  | Returned (Fell v') =>
      (t = [] /\ v' = v) \/
      (is_Some (lastError v') /\
       match after_fix_error t with
       | Some r => r = [] /\ llmSuggestions v' = Some SUGGESTION_NONE
       | None => True
       end)
  | Thrown _ => False
  end.

(** What the handler has done, by the response it sends. *)
Definition response_post (j : string) (o : Outcome Response)
    (t : list (Call * Answer)) : Prop :=
  fixes_written (temp_dir j) t = true /\
  match o with
  | Returned (BadRequest _) => t = []
  | Returned (PdfSent j' a f _) =>
      j' = j /\ f = (1 <? a) /\ 1 <= a <= MAX_ATTEMPTS /\
      count is_completion t = a - 1 /\ after_fix_error t = None
  | Returned (CompileFailed _ _ j' _ s) =>
      j' = j /\
      match after_fix_error t with
      | Some r => (exists a, r = [(Rm (temp_dir j), a)]) /\ s = Some SUGGESTION_NONE
      | None => True
      end
  | Returned (InternalError e m j') =>
      j' = j /\ e = "Internal server error" /\
      exists a, t = [(Mkdir (temp_dir j), Err m); (Rm (temp_dir j), a)]
  | Thrown _ => False
  end.

(** The directory cannot be created. *)
Definition nomkdir_oracle : Oracle :=
  MkOracle (fun n => if n =? 0 then Some "ENOSPC: no space left on device" else None)
    (fun _ _ => MkPdfRun (Ok EmptyString) (Some "%PDF") (Some "Output written"))
    (fun _ _ => Err "unreachable").

(** The compiler stops on an undefined command at its first run and
    produces the artifact from the second run on; the completion service
    answers with a fenced document. *)
Definition second_try_oracle : Oracle :=
  MkOracle (fun _ => None)
    (fun n _ =>
       if n <? 5
       then MkPdfRun (Err "Command failed: pdflatex") None (Some log_undefined)
       else MkPdfRun (Ok EmptyString) (Some "%PDF") (Some "Output written"))
    (fun _ _ => Ok fenced_answer).

(** The compiler stops on an undefined command; the completion service
    cannot be reached. *)
Definition no_service_oracle : Oracle :=
  MkOracle (fun _ => None)
    (fun _ _ => MkPdfRun (Err "Command failed: pdflatex") None (Some log_undefined))
    (fun _ _ => Err "Connection error.").

(** The call neither creates nor removes a directory. *)
Definition keeps_dirs (c : Call) : Prop :=
  match c with
  | Mkdir _ | Rm _ => False
  | _ => True
  end.

(** A world in which another job has its directory. *)
Definition shared_world : World :=
  MkWorld {[ temp_dir "other" := {[ "document.tex" := "\documentclass{book}" ]} ]} 7.

(** What [compileLatex] throws when the compiler ran, failed and left a log. *)
Definition failure_text (run : PdfRun) (log : string) : string :=
  match run_exit run with
  | Err m =>
      if Js.includes "Details:" m then m else error_text (interpret_log log)
  | Ok _ => error_text (interpret_log log)
  end.


(** The [details] field that both handlers read out of a message:
    [m.includes('Details:') ? m.split('Details:')[1].trim() : m], once the
    second piece is known to be there. *)
Definition details_field (m : string) : string :=
  if Js.includes "Details:" m then
    match Js.split "Details:" m !! 1 with
    | Some d => Js.trim d
    | None => m
    end
  else m.

(** * [src/server.js]: the handler that compiles once and reads the log itself *)

Module Single.

Definition MSG_NOT_INSTALLED : string :=
  "LaTeX is not properly installed on the server.".
Definition DETAILS_NOT_INSTALLED : string :=
  "pdflatex is not installed on the server".
Definition MSG_NO_PDF : string := "PDF generation failed. Check LaTeX syntax. ".

Definition INFO_PDFLATEX : string := "Ensure pdflatex is installed on the server.".
Definition INFO_UNDEFINED : string :=
  "LaTeX syntax error: undefined command or package not included.".
Definition INFO_MISSING : string :=
  "LaTeX syntax error: missing bracket, brace, or $ delimiter.".
Definition INFO_FILE : string :=
  "Missing LaTeX package or file. Ensure all required packages are included.".

(** [s.substring(0, n)] *)
Fixpoint substring_to (n : nat) (s : string) : string :=
  match n, s with
  | 0, _ => EmptyString
  | S _, EmptyString => EmptyString
  | S n', String c s' => String c (substring_to n' s')
  end.

(** The inner [try] of the [catch (compileError)] block once the log is
    read: the loop over the lines is that of [extractLatexError]; with no
    marked line the message of the process is looked at first. *)
Definition interpret_log (message logContent : string) : LatexError :=
  let lines := Js.split NL logContent in
  let sc := scan_lines lines (length lines) 0 in
  if negb (errorFound sc) then
    if Js.includes "pdflatex: command not found" message then
      MkLatexError MSG_NOT_INSTALLED DETAILS_NOT_INSTALLED
    else
      let meaningfulLines := List.filter meaningful lines in
      MkLatexError MSG_GENERIC (Js.join NL (Js.slice_last 10 meaningfulLines))
  else
    MkLatexError (scanMessage sc) (Js.join NL (errorLines sc)).

(** [compileError.stderr || compileError.message] *)
Definition stderr_or_message (stderr message : string) : string :=
  if String.eqb stderr EmptyString then message else stderr.

(** The [catch (compileError)] block.  The rejection of [execAsync] is
    kept by its message; [stderr_of] gives the [stderr] it carries. *)
Definition on_compile_error {A} (stderr_of : string -> string)
    (tempDir message : string) : Prog A :=
  e ← try_catch
        (logContent ← await (ReadFile tempDir "document.log");
         mret (interpret_log message logContent))
        (fun _ =>
           mret (MkLatexError MSG_NOLOG
                   (stderr_or_message (stderr_of message) message)));
  Throw (error_text e).

(** The [if / else if] chain of the outer [catch] on [error.message]. *)
Definition additional_info (message : string) : string :=
  if Js.includes "pdflatex" message then INFO_PDFLATEX
  else if Js.includes "undefined control sequence" message
          || Js.includes "Undefined control" message then INFO_UNDEFINED
  else if Js.includes "Missing" message || Js.includes "missing" message
       then INFO_MISSING
  else if Js.includes "File" message && Js.includes "not found" message
       then INFO_FILE
  else EmptyString.

Inductive Reply :=
| NoContent (error : string)
    (* res.status(400).json({error}) *)
| Attachment (jobId pdf : string)
    (* res.set({..., "X-Job-Id": jobId}); res.send(pdfBuffer) *)
| Failure (error details : string) (suggestion : option string) (jobId : string).
    (* res.status(500).json({error, details, suggestion, jobId}); [None] is [undefined] *)

(** The outer [catch (error)] block. *)
Definition failure_reply (jobId tempDir message : string) : Prog Reply :=
  let additionalInfo := additional_info message in
  _ ← swallow (Rm tempDir);
  let suggestion :=
    if String.eqb additionalInfo EmptyString then None else Some additionalInfo in
  if Js.includes "Details:" message then
    match Js.split "Details:" message !! 1 with
    | Some d => mret (Failure (first_line message) (Js.trim d) suggestion jobId)
    | None =>
        Throw "TypeError: Cannot read properties of undefined (reading 'trim')"
    end
  else mret (Failure (first_line message) message suggestion jobId).

(** [app.post("/compile", async (req, res) => ...)] of [src/server.js],
    for the identifier that [uuidv4()] gave. *)
Definition compile_handler (stderr_of : string -> string) (jobId : string)
    (req : Request) : Prog Reply :=
  let tempDir := temp_dir jobId in
  try_catch
    (let latex := latex req in
     if negb (truthy latex) then mret (NoContent "No LaTeX content provided")
     else
       _ ← await (Mkdir tempDir);
       _ ← await (WriteFile tempDir "document.tex" latex);
       _ ← try_catch (await (Pdflatex tempDir))
             (on_compile_error stderr_of tempDir);
       pdfExists ← settles_ok (Access tempDir "document.pdf");
       if negb pdfExists then
         log ← Do (ReadFile tempDir "document.log")
                 (fun a => Ret match a with Ok v => v | Err _ => EmptyString end);
         Throw (MSG_NO_PDF +:+ substring_to 500 log)
       else
         pdfBuffer ← await (ReadFile tempDir "document.pdf");
         _ ← await (Rm tempDir);
         mret (Attachment jobId pdfBuffer))
    (failure_reply jobId tempDir).

(** What the handler has done, by the reply it sends. *)
Definition reply_post (j : string) (o : Outcome Reply)
    (t : list (Call * Answer)) : Prop :=
  count is_pdflatex t <= 1 /\ count is_completion t = 0 /\
  match o with
  | Returned (NoContent _) => t = []
  | Returned (Attachment j' _) => j' = j /\ last_rm_ok (temp_dir j) t
  | Returned (Failure _ _ _ j') => j' = j /\ last_is_rm (temp_dir j) t
  | Thrown _ => False
  end.

End Single.

(** The process fails without a word on [stderr]. *)
Definition silent (message : string) : string := EmptyString.

(** A log that stops on a package that is not installed. *)
Definition log_missing_file : string :=
  "(./document.tex" +:+ NL +:+
  "! LaTeX Error: File `tikzz.sty' not found." +:+ NL +:+
  "Type X to quit or <RETURN> to proceed,".

(** The compiler stops on the package that is not installed. *)
Definition missing_file_oracle : Oracle :=
  MkOracle (fun _ => None)
    (fun _ _ => MkPdfRun (Err "Command failed: exit code 1") None
                  (Some log_missing_file))
    (fun _ _ => Err "unreachable").

(** The request of the first call to the completion service in a trace. *)
Fixpoint first_completion (t : list (Call * Answer)) : option CompletionRequest :=
  match t with
  | [] => None
  | (MessagesCreate q, _) :: _ => Some q
  | _ :: t' => first_completion t'
  end.

(** The compiler stops on an undefined command and its log cannot be
    read: the third call of the compiler invoker, the reading of
    the log, is refused. *)
Definition unreadable_oracle : Oracle :=
  MkOracle (fun n => if n =? 2 then Some "EACCES: permission denied" else None)
    (fun _ _ => MkPdfRun (Err "Command failed: pdflatex") None (Some log_undefined))
    (fun _ _ => Err "unreachable").

(** A failure sent without a suggestion was met without the completion
    service. *)
Definition plain_failure_post (o : Outcome Response)
    (t : list (Call * Answer)) : Prop :=
  match o with
  | Returned (CompileFailed _ _ _ _ None) => count is_completion t = 0
  | _ => True
  end.

(** How a turn and the loop leave the suggestion, from the variables [v]
    they started with. *)
Definition keeps_no_suggestion (v v' : Vars) (t : list (Call * Answer)) : Prop :=
  llmSuggestions v' = None ->
  llmSuggestions v = None /\ count is_completion t = 0.
(** * Properties *)

(** ** String primitives *)

Section StringFacts.

Lemma startsWith_nl (c : ascii) (s : string) :
  Js.startsWith NL (String c s) = Ascii.eqb Js.LF c.
Proof. simpl. by rewrite andb_true_r. Qed.

Lemma split_go_not_nil (sep : string) (s : string) :
  forall k, Js.split_go sep k s <> [].
Proof.
  induction s as [|c s IH]; intros k; simpl; [done|].
  destruct k; [|apply IH].
  destruct (Js.startsWith sep (String c s)); [done|].
  destruct (Js.split_go sep 0 s); done.
Qed.

Lemma cons_first_app (c : ascii) (l1 l2 : list string) :
  l1 <> [] -> Js.cons_first c (l1 ++ l2) = Js.cons_first c l1 ++ l2.
Proof. by destruct l1. Qed.

(** Splitting what was put together around a line feed. *)
Lemma split_app_nl (a b : string) :
  Js.split NL (a +:+ NL +:+ b) = Js.split NL a ++ Js.split NL b.
Proof.
  unfold Js.split. induction a as [|c a IH].
  - done.
  - change (String c a +:+ NL +:+ b) with (String c (a +:+ NL +:+ b)).
    cbn [Js.split_go]. rewrite !startsWith_nl.
    destruct (Ascii.eqb Js.LF c).
    + simpl. by rewrite IH.
    + rewrite IH. apply cons_first_app, split_go_not_nil.
Qed.

Lemma includes_nl_cons (c : ascii) (s : string) :
  Js.includes NL (String c s) = Ascii.eqb Js.LF c || Js.includes NL s.
Proof. cbn [Js.includes]. by rewrite startsWith_nl. Qed.

(** A text without a line feed is one line. *)
Lemma split_one_line (s : string) :
  Js.includes NL s = false -> Js.split NL s = [s].
Proof.
  unfold Js.split. induction s as [|c s IH]; [done|].
  rewrite includes_nl_cons. intros [Hc Hs]%orb_false_elim.
  cbn [Js.split_go]. rewrite startsWith_nl, Hc, (IH Hs). done.
Qed.

(** The lines before the first marked one are passed over. *)
Lemma find_marked_after (before : list string) (line : string) (rest : list string) :
  Forall (fun l => Js.startsWith "!" l = false) before ->
  Js.startsWith "!" line = true ->
  List.find (Js.startsWith "!") (before ++ line :: rest) = Some line.
Proof.
  intros Hb Hl. induction Hb as [|l before Hl0 _ IH]; cbn [app List.find].
  - by rewrite Hl.
  - by rewrite Hl0.
Qed.

(** The lines of a log written line by line, up to a given line. *)
Lemma split_join_prefix (before : list string) (line : string) (after : list string) :
  Forall (fun l => Js.includes NL l = false) before ->
  Js.includes NL line = false ->
  exists rest,
    Js.split NL (Js.join NL (before ++ line :: after)) = before ++ line :: rest.
Proof.
  intros Hb Hl. induction Hb as [|l before Hl0 _ IH].
  - destruct after as [|a after].
    + exists []. by apply split_one_line.
    + exists (Js.split NL (Js.join NL (a :: after))).
      change (Js.join NL ([] ++ line :: a :: after))
        with (line +:+ NL +:+ Js.join NL (a :: after)).
      by rewrite split_app_nl, split_one_line.
  - destruct IH as [rest IH]. exists rest.
    assert (Hj : Js.join NL ((l :: before) ++ line :: after)
                 = l +:+ NL +:+ Js.join NL (before ++ line :: after)).
    { simpl. by destruct (before ++ line :: after) eqn:E; [destruct before|]. }
    by rewrite Hj, split_app_nl, split_one_line, IH.
Qed.

End StringFacts.

(** ** The log interpreter *)

Section LogInterpreter.

(** The loop stops at the first marked line from its index on. *)
Lemma scan_lines_find (lines : list string) :
  forall n i, length lines <= n + i ->
  match List.find (Js.startsWith "!") (drop i lines) with
  | Some line =>
      errorFound (scan_lines lines n i) = true /\
      scanMessage (scan_lines lines n i) = classify_line line
  | None => scan_lines lines n i = scan_init
  end.
Proof.
  induction n as [|n IH]; intros i Hlen.
  - rewrite drop_ge by lia. done.
  - cbn [scan_lines]. destruct (lines !! i) as [line|] eqn:E.
    + rewrite (drop_S _ _ _ E). cbn [List.find].
      destruct (Js.startsWith "!" line); [done|].
      apply IH. lia.
    + apply lookup_ge_None in E. rewrite drop_ge by lia. done.
Qed.

Lemma interpret_log_marked (log line : string) :
  List.find (Js.startsWith "!") (Js.split NL log) = Some line ->
  userFriendlyError (interpret_log log) = classify_line line.
Proof.
  intros Hf. unfold interpret_log.
  pose proof (scan_lines_find (Js.split NL log) (length (Js.split NL log)) 0) as Hs.
  rewrite drop_0, Hf in Hs. destruct Hs as [Hfound Hmsg]; [lia|].
  by rewrite Hfound, Hmsg.
Qed.

Lemma interpret_log_unmarked (log : string) :
  List.find (Js.startsWith "!") (Js.split NL log) = None ->
  interpret_log log =
    MkLatexError MSG_GENERIC
      (Js.join NL (Js.slice_last 10 (List.filter meaningful (Js.split NL log)))).
Proof.
  intros Hf. unfold interpret_log.
  pose proof (scan_lines_find (Js.split NL log) (length (Js.split NL log)) 0) as Hs.
  rewrite drop_0, Hf in Hs. rewrite Hs by lia. done.
Qed.

End LogInterpreter.

(** ** The fix requester's cleaning of the response *)

Section Fences.

Lemma startsWith_fence (c : ascii) (s : string) :
  Js.startsWith FENCE (String c s) = Ascii.eqb "`" c && Js.startsWith "``" s.
Proof. done. Qed.

Lemma startsWith_ticks2 (c : ascii) (s : string) :
  Js.startsWith "``" (String c s) = Ascii.eqb "`" c && Js.startsWith "`" s.
Proof. done. Qed.

Lemma startsWith_fence_ticks2 (s : string) :
  Js.startsWith FENCE s = true -> Js.startsWith "``" s = true.
Proof.
  destruct s as [|c s]; [done|].
  rewrite startsWith_fence, startsWith_ticks2.
  intros [-> Hs]%andb_true_iff. cbn [andb].
  destruct s as [|d s]; [done|].
  rewrite startsWith_ticks2 in Hs. apply andb_true_iff in Hs as [Hd _].
  cbn [Js.startsWith]. by rewrite Hd.
Qed.

(** Where no fence starts, the character is kept. *)
Lemma remove_all_keep (c : ascii) (s : string) :
  Js.startsWith FENCE (String c s) = false ->
  remove_all FENCE 0 (String c s) = String c (remove_all FENCE 0 s).
Proof. intros H. cbn [remove_all]. by rewrite H. Qed.

Lemma kept_tick (s : string) :
  Js.startsWith FENCE s = false ->
  Js.startsWith "`" (remove_all FENCE 0 s) = true ->
  Js.startsWith "`" s = true.
Proof.
  destruct s as [|c s]; [done|]. intros H. by rewrite remove_all_keep.
Qed.

Lemma kept_ticks2 (s : string) :
  Js.startsWith FENCE s = false ->
  Js.startsWith "``" (remove_all FENCE 0 s) = true ->
  Js.startsWith "``" s = true.
Proof.
  destruct s as [|c s]; [done|]. intros H. rewrite remove_all_keep by done.
  rewrite !startsWith_ticks2. intros [Hc Hs]%andb_true_iff.
  rewrite Hc. cbn [andb]. apply kept_tick; [|done].
  destruct (Js.startsWith FENCE s) eqn:E; [|done].
  apply startsWith_fence_ticks2 in E.
  by rewrite startsWith_fence, Hc, E in H.
Qed.

(** No fence is left, and none is put together from what is left. *)
Lemma remove_all_no_fence (s : string) :
  forall k, Js.includes FENCE (remove_all FENCE k s) = false.
Proof.
  induction s as [|c s IH]; intros k; [done|].
  cbn [remove_all]. destruct k as [|k]; [|apply IH].
  destruct (Js.startsWith FENCE (String c s)) eqn:E.
  - destruct (Js.startsWith NL _); apply IH.
  - cbn [Js.includes]. rewrite IH, orb_false_r.
    rewrite startsWith_fence in *.
    destruct (Ascii.eqb "`" c) eqn:Hc; [|done]. cbn [andb] in *.
    destruct (Js.startsWith "``" (remove_all FENCE 0 s)) eqn:E2; [|done].
    apply kept_ticks2 in E2; [congruence|].
    destruct (Js.startsWith FENCE s) eqn:E3; [|done].
    apply startsWith_fence_ticks2 in E3. congruence.
Qed.

Lemma clean_response_no_fence (text : string) :
  Js.includes FENCE (clean_response text) = false.
Proof. apply remove_all_no_fence. Qed.

End Fences.

(** ** Reasoning on every path of a program *)

Section Paths.

Lemma always_mono {A} (p : Prog A) :
  forall R R' : Outcome A -> list (Call * Answer) -> Prop,
  (forall o t, R o t -> R' o t) -> always p R -> always p R'.
Proof.
  induction p as [a|m|c k IH]; intros R R' HR; cbn [always]; auto.
  intros H x. eapply IH; [|apply H]. intros o t. apply HR.
Qed.

(** Sequencing: the continuation runs after what came first returned. *)
Lemma always_bind {A B} (p : Prog A) (f : A -> Prog B) :
  forall R : Outcome B -> list (Call * Answer) -> Prop,
  always p (fun o t1 =>
    match o with
    | Returned a => always (f a) (fun o2 t2 => R o2 (t1 ++ t2))
    | Thrown m => R (Thrown m) t1
    end) ->
  always (bind p f) R.
Proof.
  induction p as [a|m|c k IH]; intros R H; cbn [always bind] in *.
  - exact H.
  - exact H.
  - intros x. apply IH, H.
Qed.

(** Catching: the handler runs after what came first threw. *)
Lemma always_try_catch {A} (p : Prog A) (h : string -> Prog A) :
  forall R : Outcome A -> list (Call * Answer) -> Prop,
  always p (fun o t1 =>
    match o with
    | Returned a => R (Returned a) t1
    | Thrown m => always (h m) (fun o2 t2 => R o2 (t1 ++ t2))
    end) ->
  always (try_catch p h) R.
Proof.
  induction p as [a|m|c k IH]; intros R H; cbn [always try_catch] in *.
  - exact H.
  - exact H.
  - intros x. apply IH, H.
Qed.

(** What holds on every path holds of the run in any world. *)
Lemma always_exec {A} (o : Oracle) (p : Prog A) :
  forall (R : Outcome A -> list (Call * Answer) -> Prop) (w : World),
  always p R -> R (outcome (exec o p w)) (trace (exec o p w)).
Proof.
  induction p as [a|m|c k IH]; intros R w H; cbn [always exec] in *; auto.
  destruct (step o w c) as [x w1]. cbn [extend outcome trace].
  apply (IH x (fun o' t => R o' ((c, x) :: t))), H.
Qed.

Lemma count_app (P : Call -> bool) (t1 t2 : list (Call * Answer)) :
  count P (t1 ++ t2) = count P t1 + count P t2.
Proof. induction t1 as [|e t1 IH]; simpl; [done|]. rewrite IH. lia. Qed.

End Paths.

(** ** The helpers, on every path *)

Section Helpers.

#[local] Arguments interpret_log : simpl never.
#[local] Arguments clean_response : simpl never.
#[local] Arguments error_text : simpl never.
#[local] Arguments fix_request : simpl never.
#[local] Arguments first_line : simpl never.

Ltac unfold_monad := unfold mbind, mret, prog_bind, prog_ret in *.

Ltac path_step :=
  cbn [always bind try_catch await settles_ok swallow negb];
  match goal with
  | |- forall _ : Answer, _ => intros [?|?]
  | |- context [if Js.includes ?a ?b then _ else _] => destruct (Js.includes a b)
  end.

Ltac paths := unfold_monad; repeat path_step;
  cbn [always bind try_catch await settles_ok swallow negb].

(** One run of the compiler at most, and no call to the completion
    service, in [compileLatex]. *)
Lemma compileLatex_paths (d : string) (tf : string * string) (l : JsValue) :
  always (compileLatex d tf l)
    (fun _ t => count is_pdflatex t <= 1 /\ count is_completion t = 0).
Proof.
  unfold compileLatex, extractLatexError. paths; cbn; auto.
Qed.

(** One call to the completion service at most, and no run of the
    compiler, in [fixLatexErrors]. *)
Lemma fixLatexErrors_paths (l : JsValue) (e : string) :
  always (fixLatexErrors l e)
    (fun _ t => count is_pdflatex t = 0 /\ count is_completion t <= 1).
Proof.
  unfold fixLatexErrors. destruct (to_template l); paths; cbn; auto.
Qed.

(** The catch block never throws; it goes on to a next turn only where
    it does not stop, after one call to the completion service. *)
Lemma on_compile_error_paths (af : JsValue) (attempt : nat) (v : Vars) (m : string) :
  always (on_compile_error af attempt v m)
    (fun o t =>
       count is_pdflatex t = 0 /\
       count is_completion t <= (if stops af attempt then 0 else 1) /\
       match o with
       | Returned (TurnSent _) => False
       | Returned (TurnBreak v') => lastError v' = Some m
       | Returned (TurnNext v') => stops af attempt = false /\ lastError v' = Some m
       | Thrown _ => False
       end).
Proof.
  unfold on_compile_error. fold (stops af attempt).
  destruct (stops af attempt) eqn:Hs.
  - cbn. auto.
  - unfold_monad. apply always_try_catch, always_bind.
    eapply always_mono; [|apply fixLatexErrors_paths].
    intros [fixed|e] t [Hp Hc]; cbn; rewrite ?count_app, ?app_nil_r; cbn; auto with lia.
Qed.

(** A turn of the loop: the artifact is sent only after the directory
    was removed, and a turn never throws. *)
Lemma attempt_body_paths (j d : string) (tf : string * string) (af : JsValue)
    (attempt : nat) (v : Vars) :
  always (attempt_body j d tf af attempt v)
    (fun o t =>
       count is_pdflatex t <= 1 /\
       count is_completion t <= (if stops af attempt then 0 else 1) /\
       match o with
       | Returned (TurnSent r) =>
           (exists pdf, r = PdfSent j attempt (1 <? attempt) pdf) /\
           last_rm_ok d t
       | Returned (TurnBreak v') => is_Some (lastError v')
       | Returned (TurnNext v') =>
           stops af attempt = false /\ is_Some (lastError v')
       | Thrown _ => False
       end).
Proof.
  unfold attempt_body. unfold_monad.
  apply always_try_catch, always_bind.
  eapply always_mono; [|apply compileLatex_paths].
  assert (Hcatch : forall (m : string) (t1 : list (Call * Answer)),
    count is_pdflatex t1 <= 1 -> count is_completion t1 = 0 ->
    always (on_compile_error af attempt v m)
      (fun o2 t2 =>
         count is_pdflatex (t1 ++ t2) <= 1 /\
         count is_completion (t1 ++ t2) <= (if stops af attempt then 0 else 1) /\
         match o2 with
         | Returned (TurnSent r) =>
             (exists pdf, r = PdfSent j attempt (1 <? attempt) pdf) /\
             last_rm_ok d (t1 ++ t2)
         | Returned (TurnBreak v') => is_Some (lastError v')
         | Returned (TurnNext v') =>
             stops af attempt = false /\ is_Some (lastError v')
         | Thrown _ => False
         end)).
  { intros m t1 Hp Hc.
    eapply always_mono; [|apply on_compile_error_paths].
    intros o t2 (Hp2 & Hc2 & Ho). rewrite !count_app.
    split; [lia|split; [lia|]].
    destruct o as [[r|v'|v']|e]; try done.
    destruct Ho as [? ->]. done. }
  intros [pdf|m] t1 [Hp Hc].
  - cbn [always bind try_catch await]. intros [x|x]; cbn [always bind try_catch].
    + rewrite !count_app. cbn.
      split; [lia|split; [destruct (stops af attempt); lia|]].
      split; [by eexists|]. exists x. apply last_snoc.
    + eapply always_mono; [|apply (Hcatch x (t1 ++ [(Rm d, Err x)]))].
      * intros o t. by rewrite <- !app_assoc.
      * rewrite count_app. cbn. lia.
      * rewrite count_app. cbn. lia.
  - eapply always_mono; [|apply (Hcatch m t1 Hp Hc)]. done.
Qed.

Lemma stops_false (af : JsValue) (attempt : nat) :
  stops af attempt = false -> truthy af = true /\ attempt <> MAX_ATTEMPTS.
Proof.
  unfold stops. intros [Ha Hn]%orb_false_elim.
  split; [by destruct (truthy af)|]. by apply Nat.eqb_neq.
Qed.

Lemma last_is_rm_snoc (d : string) (t : list (Call * Answer)) (a : Answer) :
  last_is_rm d (t ++ [(Rm d, a)]).
Proof. exists a. apply last_snoc. Qed.

Lemma last_rm_ok_cons (d : string) (e : Call * Answer) (t : list (Call * Answer)) :
  last_rm_ok d t -> last_rm_ok d (e :: t).
Proof.
  intros [x Hx]. exists x. destruct t as [|e' t]; [done|].
  by rewrite last_cons_cons.
Qed.

Lemma last_is_rm_cons (d : string) (e : Call * Answer) (t : list (Call * Answer)) :
  last_is_rm d t -> last_is_rm d (e :: t).
Proof.
  intros [x Hx]. exists x. destruct t as [|e' t]; [done|].
  by rewrite last_cons_cons.
Qed.

Lemma last_is_rm_app (d : string) (t1 t2 : list (Call * Answer)) :
  last_is_rm d t2 -> last_is_rm d (t1 ++ t2).
Proof. intros [x Hx]. exists x. by rewrite last_app, Hx. Qed.

Ltac rm_last :=
  repeat first [by eexists | apply last_is_rm_cons | apply last_is_rm_app].

Ltac counts :=
  repeat (rewrite ?count_app; cbn [count fst is_pdflatex is_completion]); lia.

Lemma last_rm_ok_is_rm (d : string) (t : list (Call * Answer)) :
  last_rm_ok d t -> last_is_rm d t.
Proof. intros [x Hx]. by exists (Ok x). Qed.

(** ** The retry loop, on every path *)

(** From [attempt] on, the loop runs the compiler once per attempt left
    and asks for a fix once less; it never throws, and it sends the
    artifact only after the directory was removed. *)
Lemma attempts_loop_paths (j d : string) (tf : string * string) (af : JsValue) :
  forall (n attempt : nat) (v : Vars),
  always (attempts_loop n j d tf af attempt v)
    (fun o t =>
       count is_pdflatex t <= MAX_ATTEMPTS + 1 - attempt /\
       count is_completion t <= MAX_ATTEMPTS - attempt /\
       match o with
       | Returned (Sent r) =>
           (exists a pdf, r = PdfSent j a (1 <? a) pdf /\
                          attempt <= a <= MAX_ATTEMPTS) /\
           last_rm_ok d t
       | Returned (Fell _) => True
       | Thrown _ => False
       end).
Proof.
  induction n as [|n IH]; intros attempt v; cbn [attempts_loop].
  - cbn. lia.
  - destruct (Nat.leb_spec attempt MAX_ATTEMPTS) as [Hle|Hgt]; [|cbn; lia].
    unfold_monad. apply always_bind.
    eapply always_mono; [|apply attempt_body_paths].
    intros [[r|v'|v']|e] t (Hp & Hc & Ho); [| | |done].
    + cbn [always]. rewrite app_nil_r. destruct Ho as [[pdf ->] Hrm].
      split; [lia|split].
      * destruct (stops af attempt) eqn:Hs; [lia|].
        apply stops_false in Hs. lia.
      * split; [|done]. exists attempt, pdf. split; [done|lia].
    + cbn [always]. rewrite app_nil_r.
      split; [lia|split; [|done]].
      destruct (stops af attempt) eqn:Hs; [lia|].
      apply stops_false in Hs. lia.
    + destruct Ho as [Hs _]. rewrite Hs in Hc. apply stops_false in Hs.
      eapply always_mono; [|apply (IH (S attempt) v')].
      intros o t2 (Hp2 & Hc2 & Ho2). rewrite !count_app.
      split; [lia|split; [lia|]].
      destruct o as [[r|?]|?]; [|done|done].
      destruct Ho2 as [(a & pdf & -> & Ha) [x Hx]].
      split; [exists a, pdf; split; [done|lia]|].
      exists x. rewrite last_app, Hx. done.
Qed.

(** With fixing off, one turn ends the loop. *)
Lemma attempts_loop_no_fix (j d : string) (tf : string * string) (af : JsValue) :
  truthy af = false ->
  forall (n attempt : nat) (v : Vars),
  always (attempts_loop n j d tf af attempt v)
    (fun _ t => count is_pdflatex t <= 1 /\ count is_completion t = 0).
Proof.
  intros Haf. assert (Hs : forall a, stops af a = true).
  { intros a. unfold stops. by rewrite Haf. }
  destruct n as [|n]; intros attempt v; cbn [attempts_loop].
  - cbn. lia.
  - destruct (attempt <=? MAX_ATTEMPTS); [|cbn; lia].
    unfold_monad. apply always_bind.
    eapply always_mono; [|apply attempt_body_paths].
    intros o t (Hp & Hc & Ho). rewrite Hs in Hc.
    destruct o as [[r|v'|v']|e]; cbn [always]; rewrite ?app_nil_r; try lia.
    destruct Ho as [Ho _]. by rewrite Hs in Ho.
Qed.

(** ** The handler, on every path *)

(** The handler always answers; apart from the rejection, its last call
    is the removal of the directory, and that removal went through
    where the artifact is sent. *)
Lemma compile_handler_paths (j : string) (req : Request) :
  always (compile_handler j req)
    (fun o t =>
       count is_pdflatex t <= MAX_ATTEMPTS /\
       count is_completion t <= MAX_ATTEMPTS - 1 /\
       handler_post j o t).
Proof.
  unfold compile_handler.
  destruct (truthy (latex req)); [|cbn; split; [lia|split; [lia|done]]].
  unfold_monad. cbn [negb always bind try_catch await swallow].
  intros [x|x]; cbn [always bind try_catch].
  - apply always_try_catch, always_bind.
    eapply always_mono; [|apply attempts_loop_paths].
    intros [[r|v']|e] t (Hp & Hc & Ho); [| |done].
    + cbn [always]. rewrite app_nil_r. cbn [count fst is_pdflatex is_completion].
      split; [lia|split; [lia|]].
      destruct Ho as [(a & pdf & -> & Ha) Hrm]. cbn.
      split; [by apply last_rm_ok_cons|lia].
    + cbn [always bind swallow]. intros a.
      unfold error_response. unfold_monad.
      destruct (lastError v') as [le|];
        [destruct (Js.includes "Details:" le);
           [destruct (Js.split "Details:" le !! 1)|]|];
        cbn [always]; try intros a';
        (split; [counts|split; [counts|]]);
        cbn [handler_post]; try (split; [|done]); rm_last.
  - intros a. cbn [count fst is_pdflatex is_completion app].
    split; [lia|split; [lia|]]. cbn [handler_post]. rm_last.
Qed.

(** With fixing off the handler runs the compiler once at most and
    never calls the completion service. *)
Lemma compile_handler_no_fix_paths (j : string) (req : Request) :
  autoFix req <> VUndefined ->
  truthy (autoFix req) = false ->
  always (compile_handler j req)
    (fun _ t => count is_pdflatex t <= 1 /\ count is_completion t = 0).
Proof.
  intros Hdef Haf. unfold compile_handler.
  destruct (truthy (latex req)); [|cbn; lia].
  assert (Heq : match autoFix req with VUndefined => VBool true | a => a end
                = autoFix req) by (by destruct (autoFix req)).
  rewrite Heq. clear Heq.
  unfold_monad. cbn [negb always bind try_catch await swallow].
  intros [x|x]; cbn [always bind try_catch].
  - apply always_try_catch, always_bind.
    eapply always_mono; [|by apply attempts_loop_no_fix].
    intros [[r|v']|e] t [Hp Hc].
    + cbn [always]. split; counts.
    + cbn [always bind swallow]. intros a.
      unfold error_response. unfold_monad.
      destruct (lastError v') as [le|];
        [destruct (Js.includes "Details:" le);
           [destruct (Js.split "Details:" le !! 1)|]|];
        cbn [always]; try intros a'; split; counts.
    + cbn [always bind swallow]. intros a. split; counts.
  - intros a. split; counts.
Qed.

End Helpers.

(** ** Runs in a world *)

Section Worlds.

Lemma exec_trace_nil {A} (o : Oracle) (p : Prog A) (w : World) :
  trace (exec o p w) = [] -> final (exec o p w) = w.
Proof.
  destruct p as [a|m|c k]; cbn [exec]; [done|done|].
  by destruct (step o w c).
Qed.

(** A directory that is removed is not there afterwards, and what is
    outside its tree stays. *)
Lemma rm_tree_self (d : string) (f : gmap string (gmap string string)) :
  rm_tree d f !! d = None.
Proof.
  unfold rm_tree. apply map_lookup_filter_None. right. intros x _.
  cbn [fst]. unfold in_tree. by rewrite String.eqb_refl.
Qed.

Lemma rm_tree_other (d k : string) (f : gmap string (gmap string string)) :
  in_tree d k = false -> rm_tree d f !! k = f !! k.
Proof.
  intros H. unfold rm_tree. apply option_eq. intros x.
  rewrite map_lookup_filter_Some. cbn [fst]. split; [by intros [? _]|done].
Qed.

(** A directory that is created is there afterwards; the others are as
    they were, but for those above it. *)
Lemma add_dir_self (p : string) (f : gmap string (gmap string string)) :
  is_Some (add_dir p f !! p).
Proof.
  unfold add_dir. destruct (f !! p) eqn:E; [by rewrite E|].
  rewrite lookup_insert_eq. by eexists.
Qed.

Lemma add_dir_other (p k : string) (f : gmap string (gmap string string)) :
  k <> p -> add_dir p f !! k = f !! k.
Proof.
  intros H. unfold add_dir. destruct (f !! p); [done|].
  by rewrite lookup_insert_ne.
Qed.

Lemma mkdir_p_self (d : string) (f : gmap string (gmap string string)) :
  is_Some (mkdir_p d f !! d).
Proof. apply add_dir_self. Qed.

Lemma parents_above (p d : string) :
  p ∈ parents d -> Js.startsWith (p +:+ "/") d = true.
Proof.
  unfold parents. rewrite list_elem_of_In, filter_In.
  intros [_ H]. by apply andb_true_iff in H as [_ H].
Qed.

Lemma mkdir_p_other (d k : string) (f : gmap string (gmap string string)) :
  k <> d -> Js.startsWith (k +:+ "/") d = false -> mkdir_p d f !! k = f !! k.
Proof.
  intros Hk Ha. unfold mkdir_p. rewrite add_dir_other by done.
  assert (Hn : k ∉ parents d).
  { intros Hin. apply parents_above in Hin. congruence. }
  induction (parents d) as [|p l IH]; [done|]. cbn [foldr].
  apply not_elem_of_cons in Hn as [Hp Hl].
  rewrite add_dir_other by done. by apply IH.
Qed.

(** A removal that went through leaves no directory. *)
Lemma step_rm_ok (o : Oracle) (w w1 : World) (d x : string) :
  step o w (Rm d) = (Ok x, w1) -> fs w1 !! d = None.
Proof.
  unfold step, answer, faulty. destruct (io_fault o (clock w)); [done|].
  intros [= _ <-]. cbn. apply rm_tree_self.
Qed.

(** When the last call of a run is a removal that went through, the
    directory is not there at the end. *)
Lemma exec_last_rm_ok {A} (o : Oracle) (d : string) (p : Prog A) :
  forall w, last_rm_ok d (trace (exec o p w)) ->
  fs (final (exec o p w)) !! d = None.
Proof.
  induction p as [a|m|c k IH]; intros w [x Hx]; cbn [exec] in *; [done|done|].
  destruct (step o w c) as [y w1] eqn:Hstep. cbn [extend trace final] in *.
  destruct (trace (exec o (k y) w1)) as [|e t] eqn:Ht.
  - injection Hx as -> ->. rewrite (exec_trace_nil _ _ _ Ht).
    by eapply step_rm_ok.
  - rewrite last_cons_cons in Hx. apply IH. rewrite Ht. by exists x.
Qed.

(** A call is a run of the compiler or a call to the completion
    service, never both. *)
Lemma count_external (t : list (Call * Answer)) :
  count is_external t = count is_pdflatex t + count is_completion t.
Proof.
  induction t as [|[c a] t IH]; [done|].
  cbn [count fst]. rewrite IH. unfold is_external. destruct c; cbn; lia.
Qed.

(** Running a sequence is running its parts one after the other. *)
Lemma exec_bind {A B} (o : Oracle) (p : Prog A) (f : A -> Prog B) :
  forall w, exec o (bind p f) w = then_run (exec o p w) (fun a w' => exec o (f a) w').
Proof.
  induction p as [a|m|c k IH]; intros w; cbn [bind exec].
  - unfold then_run. cbn. by destruct (exec o (f a) w).
  - done.
  - destruct (step o w c) as [x w1]. rewrite IH. unfold then_run, extend. cbn.
    by destruct (outcome (exec o (k x) w1)).
Qed.

Lemma then_run_ext {A B} (r : Run A) (k k' : A -> World -> Run B) :
  (forall a w, k a w = k' a w) -> then_run r k = then_run r k'.
Proof. intros H. unfold then_run. destruct (outcome r); [by rewrite H|done]. Qed.

(** The bound on the turns is never what ends the loop: once it covers
    the attempts left, a larger bound gives the same run. *)
Lemma attempts_loop_turns_suffice (o : Oracle) (j d : string)
    (tf : string * string) (af : JsValue) :
  forall (n attempt : nat) (v : Vars) (w : World),
  MAX_ATTEMPTS < attempt + n ->
  exec o (attempts_loop (S n) j d tf af attempt v) w
  = exec o (attempts_loop n j d tf af attempt v) w.
Proof.
  induction n as [|n IH]; intros attempt v w Hn.
  - cbn [attempts_loop]. destruct (Nat.leb_spec attempt MAX_ATTEMPTS); [lia|done].
  - change (attempts_loop (S (S n)) j d tf af attempt v)
      with (if attempt <=? MAX_ATTEMPTS then
              bind (attempt_body j d tf af attempt v)
                (fun t => match t with
                          | TurnSent r => Ret (Sent r)
                          | TurnBreak v' => Ret (Fell v')
                          | TurnNext v' =>
                              attempts_loop (S n) j d tf af (S attempt) v'
                          end)
            else Ret (Fell v)).
    change (attempts_loop (S n) j d tf af attempt v)
      with (if attempt <=? MAX_ATTEMPTS then
              bind (attempt_body j d tf af attempt v)
                (fun t => match t with
                          | TurnSent r => Ret (Sent r)
                          | TurnBreak v' => Ret (Fell v')
                          | TurnNext v' =>
                              attempts_loop n j d tf af (S attempt) v'
                          end)
            else Ret (Fell v)).
    destruct (attempt <=? MAX_ATTEMPTS); [|done].
    rewrite !exec_bind. apply then_run_ext.
    intros [r|v'|v'] w'; [done|done|]. apply IH. lia.
Qed.

End Worlds.

(** ** The retry loop is bounded *)

(** C1: whatever the compiler and the completion service answer, the
    handler ends with a response after at most [MAX_ATTEMPTS] = 3 runs of
    the compiler and at most [MAX_ATTEMPTS - 1] = 2 calls to the
    completion service, hence at most [2 * MAX_ATTEMPTS - 1] = 5 external
    calls. *)
Theorem retry_loop_bounded (o : Oracle) (w : World) (jobId : string) (req : Request) :
  let r := exec o (compile_handler jobId req) w in
  (exists resp, outcome r = Returned resp) /\
  count is_pdflatex (trace r) <= MAX_ATTEMPTS /\
  count is_completion (trace r) <= MAX_ATTEMPTS - 1 /\
  count is_external (trace r) <= 2 * MAX_ATTEMPTS - 1 /\
  2 * MAX_ATTEMPTS - 1 = 5.
Proof.
  intros r.
  destruct (always_exec o _ _ w (compile_handler_paths jobId req))
    as (Hp & Hc & Ho).
  fold r in Hp, Hc, Ho. rewrite count_external.
  split; [|unfold MAX_ATTEMPTS in *; lia].
  destruct (outcome r) as [resp|m]; [by exists resp|done].
Qed.

(** ** Rejection of a request without source *)

(** C8 fails on the code: a body that no parser took leaves [req.body]
    undefined.  It holds no source field, and it is not rejected with
    status 400: the destructuring of the body comes before the test of
    the source and throws inside the [try], and the outer [catch] answers
    with status 500 and the generic internal error, after the removal of
    the directory. *)
Theorem unparsed_body_internal_error (o : Oracle) (w : World) (jobId : string) :
  let r := exec o (compile_endpoint jobId None) w in
  outcome r =
    Returned (InternalError "Internal server error" DESTRUCTURE_ERROR jobId) /\
  status (InternalError "Internal server error" DESTRUCTURE_ERROR jobId) = 500 /\
  exists a, trace r = [(Rm (temp_dir jobId), a)].
Proof.
  cbn zeta.
  cbn [compile_endpoint try_catch mbind prog_bind bind swallow mret prog_ret exec].
  destruct (step o w (Rm (temp_dir jobId))) as [a w1].
  cbn [extend outcome trace]. split; [done|]. split; [done|]. by exists a.
Qed.



(** ** Classification by the log interpreter *)

(** C3, as stated, fails: the log of [log_two_errors] has a line that
    marks an undefined control sequence, and it is classified by the
    marked line that comes before it. *)
Lemma undefined_marker_not_first :
  (exists line,
     In line (Js.split NL log_two_errors) /\
     Js.startsWith "!" line = true /\
     Js.includes "Undefined control sequence" line = true) /\
  userFriendlyError (interpret_log log_two_errors) = MSG_MISSING /\
  userFriendlyError (interpret_log log_two_errors) <> MSG_UNDEFINED.
Proof.
  split; [|split].
  - exists "! Undefined control sequence.". vm_compute. tauto.
  - reflexivity.
  - vm_compute. discriminate.
Qed.

(** C3, amended: when the line that marks an undefined control sequence
    is the first line of the log that starts with the marker, the message
    is the canned sentence, whatever the lines before it (none of them
    marked) and after it. *)
Theorem undefined_marker_first (before after : list string) (line : string) :
  Forall (fun l => Js.includes NL l = false) before ->
  Forall (fun l => Js.startsWith "!" l = false) before ->
  Js.includes NL line = false ->
  Js.startsWith "!" line = true ->
  Js.includes "Undefined control sequence" line = true ->
  userFriendlyError (interpret_log (Js.join NL (before ++ line :: after)))
  = "Undefined LaTeX command. Check for typos in commands or missing packages.".
Proof.
  intros Hnl Hb Hl Hm Hu.
  destruct (split_join_prefix before line after Hnl Hl) as [rest Hs].
  rewrite (interpret_log_marked _ line).
  - unfold classify_line. by rewrite Hu.
  - rewrite Hs. by apply find_marked_after.
Qed.

Lemma undefined_marker_first_witness :
  userFriendlyError (interpret_log log_undefined) = MSG_UNDEFINED.
Proof.
  apply (undefined_marker_first
           ["This is pdfTeX, Version 3.14159265-2.6-1.40.21";
            "(./document.tex"; "LaTeX2e <2020-10-01>"]
           ["l.3 \textbf{Hello \unknowncommand"; "? "; "! Emergency stop."]
           "! Undefined control sequence.").
  - repeat constructor.
  - repeat constructor.
  - reflexivity.
  - reflexivity.
  - reflexivity.
Defined.

(** C4, as stated, fails: a line of the log that holds the file list
    marker is not empty and is left out of the excerpt, and the fallback
    message is the error line without the marker and without the white
    space around it. *)
Lemma interprets_as_worded_fails :
  ~ Spec.interprets log_file_list (interpret_log log_file_list) /\
  ~ Spec.interprets log_spaced_error (interpret_log log_spaced_error).
Proof.
  split; vm_compute; discriminate.
Qed.

(** C4, amended: the first line of the log that starts with the marker
    decides.  Its message is the sentence of the first of the four
    substrings it holds, tried in the order undefined control sequence,
    file not found, missing, emergency stop, and otherwise the line without
    the marker and trimmed.  With no such line the message is the generic
    one and the excerpt is the last ten lines that are not blank and do
    not hold the file list marker. *)
Theorem interpret_log_first_marked (log : string) :
  let lines := Js.split NL log in
  match List.find (Js.startsWith "!") lines with
  | Some line =>
      userFriendlyError (interpret_log log) =
        if Js.includes "Undefined control sequence" line then
          "Undefined LaTeX command. Check for typos in commands or missing packages."
        else if Js.includes "File" line && Js.includes "not found" line then
          missing_file_message line
        else if Js.includes "Missing" line then
          "Missing delimiter or bracket. Check for unclosed braces, brackets, or math mode."
        else if Js.includes "Emergency stop" line then
          "Critical LaTeX error. Check document structure and syntax."
        else Js.trim (Js.substring_from 1 line)
  | None =>
      interpret_log log =
        MkLatexError "Compilation failed. Check LaTeX syntax."
          (Js.join NL
             (Js.slice_last 10
                (List.filter
                   (fun l => negb (String.eqb (Js.trim l) EmptyString) &&
                             negb (Js.includes "*File List*" l))
                   lines)))
  end.
Proof.
  intros lines. subst lines.
  destruct (List.find (Js.startsWith "!") (Js.split NL log)) as [line|] eqn:Hf.
  - by rewrite (interpret_log_marked _ _ Hf).
  - by rewrite (interpret_log_unmarked _ Hf).
Qed.

(** ** Trimming and texts without a fence *)

Section Trim.

Lemma startsWith_empty (s : string) : Js.startsWith EmptyString s = true.
Proof. by destruct s. Qed.

Lemma includes_in_empty (p : string) :
  Js.includes p EmptyString = true -> p = EmptyString.
Proof. by destruct p. Qed.

Lemma includes_cons (p : string) (c : ascii) (s : string) :
  Js.includes p s = true -> Js.includes p (String c s) = true.
Proof. intros H. cbn [Js.includes]. rewrite H. apply orb_true_r. Qed.

Lemma includes_trimStart (p s : string) :
  Js.includes p (Js.trimStart s) = true -> Js.includes p s = true.
Proof.
  induction s as [|c s IH]; [done|]. cbn [Js.trimStart].
  destruct (Js.is_space c); [|done]. intros H. by apply includes_cons, IH.
Qed.

Lemma trimEnd_cons (c : ascii) (s : string) :
  Js.trimEnd (String c s) =
    match Js.trimEnd s with
    | EmptyString => if Js.is_space c then EmptyString else String c EmptyString
    | t => String c t
    end.
Proof. done. Qed.

Lemma startsWith_trimEnd (s : string) :
  forall p, Js.startsWith p (Js.trimEnd s) = true -> Js.startsWith p s = true.
Proof.
  induction s as [|c s IH]; intros p; [done|].
  destruct p as [|a p]; [done|]. rewrite trimEnd_cons.
  destruct (Js.trimEnd s) as [|d t] eqn:E.
  - destruct (Js.is_space c); [done|]. cbn [Js.startsWith].
    intros [Hc Hp]%andb_true_iff. rewrite Hc.
    destruct p; [apply startsWith_empty|done].
  - cbn [Js.startsWith]. intros [Hc Hp]%andb_true_iff. rewrite Hc.
    by apply IH.
Qed.

Lemma includes_trimEnd (s : string) :
  forall p, Js.includes p (Js.trimEnd s) = true -> Js.includes p s = true.
Proof.
  induction s as [|c s IH]; intros p; [done|].
  rewrite trimEnd_cons. destruct (Js.trimEnd s) as [|d t] eqn:E.
  - destruct (Js.is_space c).
    + intros ->%includes_in_empty. done.
    + cbn [Js.includes]. intros [H|H]%orb_true_iff.
      * destruct p as [|a p]; [done|]. cbn [Js.startsWith] in *.
        apply andb_true_iff in H as [-> Hp].
        destruct p; [|done]. by rewrite startsWith_empty.
      * apply includes_in_empty in H as ->. done.
  - cbn [Js.includes]. intros [H|H]%orb_true_iff.
    + assert (Hs : Js.startsWith p (String c s) = true).
      { apply startsWith_trimEnd. by rewrite trimEnd_cons, E. }
      by rewrite Hs.
    + rewrite (IH p H). apply orb_true_r.
Qed.

Lemma includes_trim (p s : string) :
  Js.includes p s = false -> Js.includes p (Js.trim s) = false.
Proof.
  intros H. destruct (Js.includes p (Js.trim s)) eqn:E; [|done].
  apply includes_trimEnd, includes_trimStart in E. congruence.
Qed.

Lemma trimEnd_idem (s : string) : Js.trimEnd (Js.trimEnd s) = Js.trimEnd s.
Proof.
  induction s as [|c s IH]; [done|]. rewrite trimEnd_cons.
  destruct (Js.trimEnd s) as [|d t] eqn:E.
  - destruct (Js.is_space c) eqn:Hc; [done|]. by rewrite trimEnd_cons, Hc.
  - by rewrite trimEnd_cons, IH.
Qed.

Lemma trimStart_head (s : string) :
  Js.trimStart s = EmptyString \/
  exists c t, Js.trimStart s = String c t /\ Js.is_space c = false.
Proof.
  induction s as [|c s IH]; [by left|]. cbn [Js.trimStart].
  destruct (Js.is_space c) eqn:Hc; [done|]. right. by exists c, s.
Qed.

(** Trimming what is trimmed changes nothing. *)
Lemma trim_idem (s : string) : Js.trim (Js.trim s) = Js.trim s.
Proof.
  unfold Js.trim. destruct (trimStart_head s) as [->|(c & t & -> & Hc)]; [done|].
  assert (Hhead : exists u, Js.trimEnd (String c t) = String c u).
  { rewrite trimEnd_cons. destruct (Js.trimEnd t); rewrite ?Hc; by eauto. }
  destruct Hhead as [u Hu]. rewrite Hu. cbn [Js.trimStart]. rewrite Hc.
  rewrite <- Hu. apply trimEnd_idem.
Qed.

Lemma startsWith_app (p q : string) :
  forall s, Js.startsWith (p +:+ q) s = true -> Js.startsWith p s = true.
Proof.
  induction p as [|a p IH]; intros s; [by rewrite startsWith_empty|].
  destruct s as [|c s]; [done|]. cbn [String.append Js.startsWith].
  intros [-> Hp]%andb_true_iff. by apply IH.
Qed.

Lemma includes_app (p q s : string) :
  Js.includes p s = false -> Js.includes (p +:+ q) s = false.
Proof.
  induction s as [|c s IH]; cbn [Js.includes];
    intros [Hs Hi]%orb_false_elim.
  - rewrite orb_false_r in *.
    destruct (Js.startsWith (p +:+ q) EmptyString) eqn:E; [|done].
    apply startsWith_app in E. congruence.
  - rewrite (IH Hi), orb_false_r.
    destruct (Js.startsWith (p +:+ q) (String c s)) eqn:E; [|done].
    apply startsWith_app in E. congruence.
Qed.

(** Nothing is removed from a text that does not hold the literal. *)
Lemma remove_all_absent (lit s : string) :
  Js.includes lit s = false -> remove_all lit 0 s = s.
Proof.
  induction s as [|c s IH]; [done|]. cbn [Js.includes remove_all].
  intros [-> Hi]%orb_false_elim. by rewrite (IH Hi).
Qed.

(** An answer without a fence comes back trimmed and nothing else. *)
Lemma clean_response_unfenced (text : string) :
  Js.includes FENCE text = false ->
  clean_response text = Js.trim text /\
  Js.trim (clean_response text) = clean_response text.
Proof.
  intros H. apply (includes_trim FENCE) in H.
  assert (Hr : clean_response text = Js.trim text).
  { unfold clean_response.
    rewrite (remove_all_absent FENCE_LATEX) by apply (includes_app FENCE "latex"), H.
    by apply remove_all_absent. }
  split; [done|]. rewrite Hr. apply trim_idem.
Qed.

End Trim.

(** ** The fix requester *)

(** C9, as stated, fails: on the usual fenced answer the line feed
    before the closing fence is the end of the replacement source. *)
Lemma fenced_answer_keeps_line_feed :
  exists r,
    outcome (exec fails_oracle
               (fixLatexErrors (VString "\documentclass{article}") "Undefined LaTeX command.")
               empty_world) = Returned r /\
    r = "\documentclass{article}" +:+ NL /\
    Js.trim r <> r /\
    ~ Spec.clean r.
Proof.
  eexists. split; [reflexivity|]. split; [reflexivity|].
  split; [vm_compute; discriminate|].
  intros [_ H]. vm_compute in H. discriminate.
Qed.

(** C9, amended: when the completion call answers with a text, the fix
    requester returns that text trimmed and then without any
    [```latex] and any [```], each taken with the line feed that follows
    it; what it returns holds no fence, and it has no white space at
    either end when the text held no fence (white space next to a
    removed fence stays). *)
Theorem fixLatexErrors_result (o : Oracle) (w : World) (latex : JsValue)
    (src error text : string) :
  to_template latex = Some src ->
  completion o (clock w) (fix_request src error) = Ok text ->
  let r := remove_all "```" 0 (remove_all "```latex" 0 (Js.trim text)) in
  outcome (exec o (fixLatexErrors latex error) w) = Returned r /\
  Js.includes "```" r = false /\
  (Js.includes "```" text = false -> r = Js.trim text /\ Js.trim r = r).
Proof.
  intros Hsrc Hans r.
  split; [|split; [apply remove_all_no_fence|apply clean_response_unfenced]].
  unfold fixLatexErrors. rewrite Hsrc.
  unfold mbind, mret, prog_bind, prog_ret.
  cbn [try_catch bind await exec step answer]. rewrite Hans. done.
Qed.

Lemma fixLatexErrors_result_witness :
  outcome (exec fails_oracle
             (fixLatexErrors (VString "\documentclass{article}") "Undefined LaTeX command.")
             empty_world)
  = Returned ("\documentclass{article}" +:+ NL) /\
  Js.includes FENCE ("\documentclass{article}" +:+ NL) = false.
Proof.
  destruct (fixLatexErrors_result fails_oracle empty_world
              (VString "\documentclass{article}") "\documentclass{article}"
              "Undefined LaTeX command." fenced_answer) as (Hout & Hfence & _).
  - reflexivity.
  - reflexivity.
  - split; [exact Hout|exact Hfence].
Defined.

(** ** The compiler invoker in a world *)

Section Invoker.

Lemma exec_Do {A} (o : Oracle) (c : Call) (k : Answer -> Prog A) (w : World)
    (a : Answer) (f : gmap string (gmap string string)) :
  answer o w c = (a, f) ->
  exec o (Do c k) w = extend (c, a) (exec o (k a) (MkWorld f (S (clock w)))).
Proof. intros H. cbn [exec]. unfold step. by rewrite H. Qed.

Lemma set_file_other (n m : string) (c : option string) (files : gmap string string) :
  n <> m -> set_file n c files !! m = files !! m.
Proof. intros H. destruct c; cbn; by simplify_map_eq. Qed.

Lemma set_file_same (n : string) (c : option string) (files : gmap string string) :
  set_file n c files !! n = c.
Proof. destruct c; cbn; by simplify_map_eq. Qed.

(** After a run of the compiler the artifact is what the run left. *)
Lemma artifact_after_run (d : string) (l p : option string)
    (files : gmap string string) (f : gmap string (gmap string string)) (n : nat) :
  artifact
    (MkWorld (<[d:=set_file "document.log" l (set_file "document.pdf" p files)]> f) n) d
  = p.
Proof.
  unfold artifact, file_of. cbn [fs]. rewrite lookup_insert_eq. cbn.
  by rewrite set_file_other, set_file_same.
Qed.

Ltac run_call Hf H :=
  erewrite exec_Do in H
    by (unfold answer, faulty, file_of; cbn [fs clock];
        rewrite ?Hf, ?lookup_insert_eq; cbn [mbind option_bind];
        rewrite ?set_file_other, ?set_file_same, ?lookup_insert_eq by done;
        reflexivity);
  cbn [bind try_catch negb await settles_ok clock] in H.

Ltac case_details H :=
  match type of H with
  | context [if Js.includes ?a ?b then _ else _] => destruct (Js.includes a b)
  end.

Ltac run_fails H r :=
  cbn [exec] in H; subst r;
  cbn [extend outcome trace final returns exited_zero existsb orb];
  rewrite ?artifact_after_run;
  split; [split; [done|intros [? [? ?]]; done]|done].

(** C7, amended: where no file operation fails, [compileLatex] resolves
    exactly when the compiler process ended with status zero and the
    expected output file exists after the run, and it resolves with that
    file.  A run that exits zero without the file is a failure, and so is
    a run that does not exit zero and leaves the file. *)
Theorem compileLatex_success (o : Oracle) (w : World) (d : string) (latex : JsValue) :
  (forall n, io_fault o n = None) ->
  let r := exec o (compileLatex d (d, "document.tex") latex) w in
  (returns (outcome r) <->
     exited_zero d (trace r) = true /\ is_Some (artifact (final r) d)) /\
  (forall pdf, outcome r = Returned pdf -> artifact (final r) d = Some pdf).
Proof.
  intros Hf. cbn zeta.
  remember (exec o (compileLatex d (d, "document.tex") latex) w) as r eqn:Hr.
  unfold compileLatex, extractLatexError, mbind, mret, prog_bind, prog_ret in Hr.
  cbn [bind try_catch await settles_ok fst snd] in Hr.
  destruct (write_effect latex) as [[s ok]|] eqn:Hwe.
  2:{ erewrite exec_Do in Hr
        by (unfold answer, faulty; rewrite Hf, Hwe; reflexivity).
      cbn [exec bind try_catch] in Hr. subst r. cbn.
      split; [split; [done|intros [? _]; done]|done]. }
  destruct (fs w !! d) as [files|] eqn:Hd.
  2:{ erewrite exec_Do in Hr
        by (unfold answer, faulty; rewrite Hf, Hwe, Hd; reflexivity).
      cbn [exec bind try_catch] in Hr. subst r. cbn.
      split; [split; [done|intros [? _]; done]|done]. }
  erewrite exec_Do in Hr
    by (unfold answer, faulty; rewrite Hf, Hwe, Hd; reflexivity).
  destruct ok.
  2:{ cbn [exec bind try_catch] in Hr. subst r. cbn.
      split; [split; [done|intros [? _]; done]|done]. }
  cbn [bind try_catch negb] in Hr.
  erewrite exec_Do in Hr
    by (unfold answer; cbn [fs clock]; rewrite !lookup_insert_eq; reflexivity).
  cbn [bind try_catch negb clock] in Hr.
  set (run := pdflatex_run o (S (clock w)) (Some s)) in *.
  destruct (run_exit run) as [x|m] eqn:Hexit; cbn [bind try_catch] in Hr.
  - run_call Hf Hr.
    destruct (run_pdf run) as [pdf|] eqn:Hpdf; cbn [bind try_catch negb await] in Hr.
    + run_call Hf Hr. cbn [exec] in Hr. subst r.
      cbn [extend outcome trace final returns exited_zero existsb orb].
      rewrite artifact_after_run, String.eqb_refl.
      split; [split; [by eauto|done]|]. by intros ? [= ->].
    + run_call Hf Hr.
      destruct (run_log run) as [lg|]; cbn [bind try_catch] in Hr;
        (case_details Hr; [run_fails Hr r|]);
        run_call Hf Hr; cbn [bind try_catch] in Hr; run_fails Hr r.
  - destruct (Js.includes "Details:" m); [run_fails Hr r|].
    run_call Hf Hr. destruct (run_log run); cbn [bind try_catch] in Hr;
      run_fails Hr r.
Qed.

End Invoker.

(** C7, as stated, fails: the compiler is stopped at the timeout after
    it has written part of the artifact; the file exists after the run
    and the invoker reports a failure. *)
Lemma artifact_without_success :
  let r := exec timeout_oracle
             (compileLatex sample_dir (sample_dir, "document.tex")
                (VString "\documentclass{article}"))
             sample_world in
  artifact (final r) sample_dir = Some "%PDF-partial" /\
  ~ returns (outcome r) /\
  ~ (returns (outcome r) <-> is_Some (artifact (final r) sample_dir)).
Proof.
  cbn zeta. split; [by vm_compute|].
  split; [by vm_compute|].
  intros [_ H]. assert (Hr : is_Some (Some "%PDF-partial")) by eauto.
  by apply H in Hr.
Qed.

Lemma compileLatex_success_witness :
  let r := exec compiles_oracle
             (compileLatex sample_dir (sample_dir, "document.tex")
                (VString "\documentclass{article}"))
             sample_world in
  (returns (outcome r) <->
     exited_zero sample_dir (trace r) = true /\
     is_Some (artifact (final r) sample_dir)) /\
  (forall pdf, outcome r = Returned pdf -> artifact (final r) sample_dir = Some pdf).
Proof.
  apply (compileLatex_success compiles_oracle sample_world sample_dir
           (VString "\documentclass{article}")).
  intros n. reflexivity.
Defined.

(** ** Removal of the working directory *)

(** C5, as stated, fails: the compiler fails, fixing is off, the
    removal of the directory is refused and the refusal is swallowed; the
    response is sent and the directory is still there. *)
Lemma directory_left_when_removal_fails :
  let r := exec stuck_oracle
             (compile_handler "job" (sample_request (VBool false))) empty_world in
  (Mkdir (temp_dir "job"), Ok EmptyString) ∈ trace r /\
  (exists e d, outcome r = Returned (CompileFailed e d "job" 3 None)) /\
  last (trace r) = Some (Rm (temp_dir "job"), Err "EACCES: permission denied") /\
  is_Some (fs (final r) !! temp_dir "job").
Proof.
  cbn zeta. split; [|split; [|split]].
  - vm_compute. apply list_elem_of_here.
  - vm_compute. by eauto.
  - by vm_compute.
  - vm_compute. by eauto.
Qed.

(** C5, amended: when the directory was created, the last call before
    the response is the removal of the directory, on every exit path;
    the directory is gone whenever that removal went through, which is the
    case whenever the artifact is sent.  (A removal that is refused is
    swallowed on the failure paths.) *)
Theorem cleanup_before_response (o : Oracle) (w : World) (jobId : string)
    (req : Request) (x : string) :
  let r := exec o (compile_handler jobId req) w in
  (Mkdir (temp_dir jobId), Ok x) ∈ trace r ->
  (exists resp, outcome r = Returned resp) /\
  last_is_rm (temp_dir jobId) (trace r) /\
  (last_rm_ok (temp_dir jobId) (trace r) -> fs (final r) !! temp_dir jobId = None) /\
  (forall j a f pdf, outcome r = Returned (PdfSent j a f pdf) ->
     fs (final r) !! temp_dir jobId = None).
Proof.
  intros r Hmk.
  destruct (always_exec o _ _ w (compile_handler_paths jobId req))
    as (_ & _ & Ho).
  fold r in Ho. unfold handler_post in Ho.
  assert (Hgone : last_rm_ok (temp_dir jobId) (trace r) ->
                  fs (final r) !! temp_dir jobId = None)
    by apply exec_last_rm_ok.
  destruct (outcome r) as [[e|j a f pdf|e d j a s|e d j]|m] eqn:Hout; [| | | |done].
  - rewrite Ho in Hmk. by apply elem_of_nil in Hmk.
  - destruct Ho as [Hok _].
    split; [by eauto|]. split; [by apply last_rm_ok_is_rm|].
    split; [done|]. intros; by apply Hgone.
  - destruct Ho as [Hrm _]. split; [by eauto|]. by repeat split.
  - split; [by eauto|]. by repeat split.
Qed.

Lemma cleanup_before_response_witness :
  let r := exec fails_oracle
             (compile_handler "job" (sample_request (VBool false))) empty_world in
  fs (final r) !! temp_dir "job" = None.
Proof.
  cbn zeta.
  refine (proj1 (proj2 (proj2
            (cleanup_before_response fails_oracle empty_world "job"
               (sample_request (VBool false)) EmptyString _))) _).
  - vm_compute. apply list_elem_of_here.
  - exists EmptyString. by vm_compute.
Defined.

(** ** Two slips of the handler *)

(** C6 (the code departs from it): with the same request and the same
    compiler, the artifact is sent when the removal of the directory goes
    through, and a failure is reported, under the message of the removal,
    when it is refused. *)
Lemma cleanup_failure_replaces_artifact :
  outcome (exec compiles_oracle
             (compile_handler "job" (sample_request (VBool false))) empty_world)
  = Returned (PdfSent "job" 1 false "%PDF") /\
  outcome (exec busy_oracle
             (compile_handler "job" (sample_request (VBool false))) empty_world)
  = Returned (CompileFailed "EBUSY: resource busy or locked"
                "EBUSY: resource busy or locked" "job" 3 None).
Proof. split; by vm_compute. Qed.

(** C2 (the code departs from it): with fixing off and a source that
    fails, the compiler is run once and the completion service is never
    called, and the response reports [MAX_ATTEMPTS] = 3 attempts. *)
Lemma no_fix_reports_three_attempts :
  let r := exec fails_oracle
             (compile_handler "job" (sample_request (VBool false))) empty_world in
  count is_pdflatex (trace r) = 1 /\
  count is_completion (trace r) = 0 /\
  exists details,
    outcome r = Returned (CompileFailed MSG_UNDEFINED details "job" 3 None).
Proof.
  cbn zeta. split; [by vm_compute|]. split; [by vm_compute|].
  eexists. by vm_compute.
Qed.

(** With fixing off, on any source and in any world: one run of the
    compiler at most, no call to the completion service, and a failure
    response that reports [MAX_ATTEMPTS] attempts all the same. *)
Lemma no_fix_single_attempt (o : Oracle) (w : World) (jobId : string) (req : Request) :
  autoFix req <> VUndefined ->
  truthy (autoFix req) = false ->
  let r := exec o (compile_handler jobId req) w in
  count is_pdflatex (trace r) <= 1 /\
  count is_completion (trace r) = 0 /\
  (forall e d j n s,
     outcome r = Returned (CompileFailed e d j n s) -> n = MAX_ATTEMPTS).
Proof.
  intros Hdef Haf r.
  destruct (always_exec o _ _ w (compile_handler_no_fix_paths jobId req Hdef Haf))
    as [Hp Hc].
  destruct (always_exec o _ _ w (compile_handler_paths jobId req))
    as (_ & _ & Ho).
  fold r in Hp, Hc, Ho. split; [done|split; [done|]].
  intros e d j n s Hout. rewrite Hout in Ho. by destruct Ho.
Qed.

(** * Further properties of the code *)

(** ** The excerpt and the messages of the log interpreter *)

Section Excerpt.

(** The loop keeps the marked line and the four lines after it. *)
Lemma scan_lines_excerpt (before after : list string) (line : string) :
  Forall (fun l => Js.startsWith "!" l = false) before ->
  Js.startsWith "!" line = true ->
  forall n i, i <= length before ->
  length (before ++ line :: after) <= n + i ->
  errorLines (scan_lines (before ++ line :: after) n i) = take 5 (line :: after).
Proof.
  intros Hb Hl. induction n as [|n IH]; intros i Hi Hn.
  - rewrite length_app in Hn. cbn in Hn. lia.
  - cbn [scan_lines]. destruct (decide (i = length before)) as [->|Hne].
    + rewrite list_lookup_middle by done. rewrite Hl. cbn [errorLines].
      unfold Js.slice. rewrite drop_app_length.
      rewrite length_app. cbn [length].
      replace (Nat.min (length before + 5) (length before + S (length after))
               - length before) with (Nat.min 5 (length (line :: after)))
        by (cbn [length]; lia).
      destruct (Nat.min_spec 5 (length (line :: after))) as [[_ ->]|[Hle ->]];
        [done|].
      by rewrite !take_ge by lia.
    + assert (Hlt : i < length before) by lia.
      destruct (lookup_lt_is_Some_2 before i Hlt) as [l Hlk].
      rewrite lookup_app_l by done. rewrite Hlk.
      rewrite Forall_forall in Hb.
      rewrite (Hb l) by (by eapply list_elem_of_lookup_2).
      apply IH; [lia|]. lia.
Qed.

(** X1: when the log has a line that starts with the marker, the excerpt
    is the first such line and the lines after it, four at most, joined
    by line feeds. *)
Theorem excerpt_of_marked_log (log : string) (before after : list string)
    (line : string) :
  Js.split NL log = before ++ line :: after ->
  Forall (fun l => Js.startsWith "!" l = false) before ->
  Js.startsWith "!" line = true ->
  errorDetails (interpret_log log) = Js.join NL (line :: take 4 after).
Proof.
  intros Hs Hb Hl. unfold interpret_log. rewrite Hs.
  pose proof (scan_lines_find (before ++ line :: after)
                (length (before ++ line :: after)) 0) as Hf.
  rewrite drop_0, (find_marked_after before line after Hb Hl) in Hf.
  destruct Hf as [Hfound _]; [lia|]. rewrite Hfound. cbn [negb errorDetails].
  rewrite (scan_lines_excerpt before after line Hb Hl) by lia. done.
Qed.

Lemma excerpt_of_marked_log_witness :
  errorDetails (interpret_log log_undefined) =
  "! Undefined control sequence." +:+ NL +:+
  "l.3 \textbf{Hello \unknowncommand" +:+ NL +:+ "? " +:+ NL +:+
  "! Emergency stop.".
Proof.
  apply (excerpt_of_marked_log log_undefined
           ["This is pdfTeX, Version 3.14159265-2.6-1.40.21";
            "(./document.tex"; "LaTeX2e <2020-10-01>"]
           ["l.3 \textbf{Hello \unknowncommand"; "? "; "! Emergency stop."]
           "! Undefined control sequence.").
  - reflexivity.
  - repeat constructor.
  - reflexivity.
Defined.

End Excerpt.

(** ** The file named by a file-not-found line *)

Section FileName.

Lemma str_app_cons (x : ascii) (a b : string) :
  String x a +:+ b = String x (a +:+ b).
Proof. done. Qed.

Lemma str_app_assoc (a b c : string) : (a +:+ b) +:+ c = a +:+ (b +:+ c).
Proof. induction a as [|x a IH]; [done|]. by rewrite !str_app_cons, IH. Qed.

Lemma str_app_nil_r (a : string) : a +:+ EmptyString = a.
Proof. induction a as [|x a IH]; [done|]. by rewrite str_app_cons, IH. Qed.

Lemma includes_char_cons (c x : ascii) (s : string) :
  Js.includes (String c EmptyString) (String x s) =
  Ascii.eqb c x || Js.includes (String c EmptyString) s.
Proof. cbn [Js.includes Js.startsWith]. by rewrite andb_true_r. Qed.

(** A text holds a character exactly when one of its parts does. *)
Lemma includes_char_app (c : ascii) (a b : string) :
  Js.includes (String c EmptyString) (a +:+ b) =
  Js.includes (String c EmptyString) a || Js.includes (String c EmptyString) b.
Proof.
  induction a as [|x a IH].
  - cbn. by destruct b.
  - rewrite str_app_cons, !includes_char_cons, IH. by rewrite orb_assoc.
Qed.

Lemma is_line_terminator_spec (c : ascii) :
  Js.is_line_terminator c = Ascii.eqb Js.LF c || Ascii.eqb Js.CR c.
Proof. unfold Js.is_line_terminator. by rewrite (Ascii.eqb_sym c), (Ascii.eqb_sym c Js.CR). Qed.

(** The lazy group takes everything up to the first quote. *)
Lemma lazy_to_quote_app (name post : string) :
  Js.includes "'" name = false ->
  Js.includes NL name = false ->
  Js.includes (String Js.CR EmptyString) name = false ->
  lazy_to_quote (name +:+ "'" +:+ post) = Some name.
Proof.
  induction name as [|c name IH]; [done|].
  unfold NL. rewrite !includes_char_cons.
  intros [Hq H1]%orb_false_elim [Hlf H2]%orb_false_elim [Hcr H3]%orb_false_elim.
  rewrite str_app_cons. cbn [lazy_to_quote].
  rewrite (Ascii.eqb_sym c), Hq, is_line_terminator_spec, Hlf, Hcr. cbn [orb].
  by rewrite (IH H1 H2 H3).
Qed.

Lemma group_after_open_app (name post : string) :
  name <> EmptyString ->
  Js.includes "'" name = false ->
  Js.includes NL name = false ->
  Js.includes (String Js.CR EmptyString) name = false ->
  group_after_open (name +:+ "'" +:+ post) = Some name.
Proof.
  destruct name as [|c name]; [done|]. intros _.
  unfold NL. rewrite !includes_char_cons.
  intros [Hq H1]%orb_false_elim [Hlf H2]%orb_false_elim [Hcr H3]%orb_false_elim.
  rewrite str_app_cons. cbn [group_after_open].
  rewrite is_line_terminator_spec, Hlf, Hcr. cbn [orb].
  by rewrite (lazy_to_quote_app name post H1 H2 H3).
Qed.

(** The match is looked for from the left: what holds no [F] is passed. *)
Lemma match_file_pass (pre rest : string) :
  Js.includes "F" pre = false ->
  match_file (pre +:+ rest) = match_file rest.
Proof.
  induction pre as [|c pre IH]; [done|].
  rewrite includes_char_cons. intros [Hc Hp]%orb_false_elim.
  rewrite str_app_cons, <- (IH Hp).
  change (match_file (String c (pre +:+ rest)))
    with (match
            (if Js.startsWith "File `" (String c (pre +:+ rest))
             then group_after_open (Js.substring_from 6 (String c (pre +:+ rest)))
             else None)
          with
          | Some g => Some g
          | None => match_file (pre +:+ rest)
          end).
  cbn [Js.startsWith]. by rewrite Hc.
Qed.

Lemma match_file_named (pre name post : string) :
  Js.includes "F" pre = false ->
  name <> EmptyString ->
  Js.includes "'" name = false ->
  Js.includes NL name = false ->
  Js.includes (String Js.CR EmptyString) name = false ->
  match_file (pre +:+ "File `" +:+ name +:+ "'" +:+ post) = Some name.
Proof.
  intros Hp Hn Hq Hlf Hcr. rewrite (match_file_pass _ _ Hp).
  change (match_file ("File `" +:+ name +:+ "'" +:+ post))
    with (match group_after_open (name +:+ "'" +:+ post) with
          | Some g => Some g
          | None => match_file ("ile `" +:+ name +:+ "'" +:+ post)
          end).
  by rewrite group_after_open_app.
Qed.

(** X2: for an error line that quotes a file name after [File] (the
    name not empty, without quote or line terminator, and no [F] before
    it in the line), the message names that file. *)
Theorem missing_file_named (pre name post : string) :
  Js.includes "F" pre = false ->
  name <> EmptyString ->
  Js.includes "'" name = false ->
  Js.includes NL name = false ->
  Js.includes (String Js.CR EmptyString) name = false ->
  missing_file_message (pre +:+ "File `" +:+ name +:+ "'" +:+ post) =
  "Missing file or package: " +:+ name +:+ ". Add \usepackage{} for missing packages.".
Proof.
  intros Hp Hn Hq Hlf Hcr. unfold missing_file_message.
  by rewrite match_file_named.
Qed.

Lemma missing_file_named_witness :
  missing_file_message "! LaTeX Error: File `tikz.sty' not found." =
  "Missing file or package: tikz.sty. Add \usepackage{} for missing packages.".
Proof.
  apply (missing_file_named "! LaTeX Error: " "tikz.sty" " not found.").
  - reflexivity.
  - discriminate.
  - reflexivity.
  - reflexivity.
  - reflexivity.
Defined.

Lemma match_file_none (line : string) :
  Js.includes "File `" line = false -> match_file line = None.
Proof.
  induction line as [|c line IH].
  - done.
  - cbn [Js.includes]. intros [Hs Hi]%orb_false_elim.
    change (match_file (String c line))
      with (match
              (if Js.startsWith "File `" (String c line)
               then group_after_open (Js.substring_from 6 (String c line))
               else None)
            with
            | Some g => Some g
            | None => match_file line
            end).
    rewrite Hs. by apply IH.
Qed.

(** X3: a line in which no [File] is followed by a space and an opening
    quote names no file, and the message says [unknown]. *)
Theorem missing_file_unknown (line : string) :
  Js.includes "File `" line = false ->
  missing_file_message line =
  "Missing file or package: unknown. Add \usepackage{} for missing packages.".
Proof.
  intros H. unfold missing_file_message. by rewrite match_file_none.
Qed.

Lemma missing_file_unknown_witness :
  missing_file_message "! I can't find file: File not found" =
  "Missing file or package: unknown. Add \usepackage{} for missing packages.".
Proof.
  apply (missing_file_unknown "! I can't find file: File not found").
  reflexivity.
Defined.

End FileName.

(** ** From the log to the fields of the failure response *)

Section ErrorFields.

(** No line of a split holds a line feed. *)
Lemma split_lines_one_line (s : string) :
  Forall (fun l => Js.includes NL l = false) (Js.split NL s).
Proof.
  unfold Js.split. induction s as [|c s IH]; [by repeat constructor|].
  cbn [Js.split_go]. rewrite startsWith_nl.
  destruct (Ascii.eqb Js.LF c) eqn:Hc.
  - by constructor.
  - destruct (Js.split_go NL 0 s) as [|w ws]; cbn [Js.cons_first].
    + constructor; [|constructor]. by rewrite includes_nl_cons, Hc.
    + inversion IH as [|? ? Hw Hws]; subst. constructor; [|done].
      by rewrite includes_nl_cons, Hc, Hw.
Qed.

Lemma includes_substring_from (p : string) (n : nat) :
  forall s, Js.includes p (Js.substring_from n s) = true -> Js.includes p s = true.
Proof.
  induction n as [|n IH]; intros s; [done|].
  destruct s as [|c s]; [done|]. cbn [Js.substring_from].
  intros H. by apply includes_cons, IH.
Qed.

Lemma includes_nl_app (a b : string) :
  Js.includes NL (a +:+ b) = Js.includes NL a || Js.includes NL b.
Proof. apply includes_char_app. Qed.

Lemma lazy_to_quote_one_line (s : string) :
  forall g, lazy_to_quote s = Some g -> Js.includes NL g = false.
Proof.
  induction s as [|c s IH]; intros g; [done|]. cbn [lazy_to_quote].
  destruct (Ascii.eqb c "'"); [by intros [= <-]|].
  rewrite is_line_terminator_spec.
  destruct (Ascii.eqb Js.LF c) eqn:Hc; [done|].
  destruct (Ascii.eqb Js.CR c); [done|]. cbn [orb].
  destruct (lazy_to_quote s) as [g'|]; [|done]. intros [= <-].
  by rewrite includes_nl_cons, Hc, (IH g').
Qed.

Lemma match_file_one_line (s : string) :
  forall g, match_file s = Some g -> Js.includes NL g = false.
Proof.
  assert (Hg : forall u g, group_after_open u = Some g -> Js.includes NL g = false).
  { intros [|c u] g; [done|]. cbn [group_after_open].
    rewrite is_line_terminator_spec.
    destruct (Ascii.eqb Js.LF c) eqn:Hc; [done|].
    destruct (Ascii.eqb Js.CR c); [done|]. cbn [orb].
    destruct (lazy_to_quote u) as [g'|] eqn:E; [|done]. intros [= <-].
    by rewrite includes_nl_cons, Hc, (lazy_to_quote_one_line u g'). }
  induction s as [|c s IH]; intros g.
  - done.
  - change (match_file (String c s))
      with (match
              (if Js.startsWith "File `" (String c s)
               then group_after_open (Js.substring_from 6 (String c s))
               else None)
            with
            | Some g => Some g
            | None => match_file s
            end).
    destruct (Js.startsWith "File `" (String c s)); [|apply IH].
    destruct (group_after_open _) as [g'|] eqn:E; [|apply IH].
    intros [= <-]. by eapply Hg.
Qed.

(** The message of a line without a line feed has none. *)
Lemma classify_line_one_line (line : string) :
  Js.includes NL line = false -> Js.includes NL (classify_line line) = false.
Proof.
  intros Hl. unfold classify_line.
  destruct (Js.includes "Undefined control sequence" line); [done|].
  destruct (Js.includes "File" line && Js.includes "not found" line).
  { unfold missing_file_message. rewrite !includes_nl_app.
    destruct (match_file line) as [g|] eqn:E; [|done].
    by rewrite (match_file_one_line line g E). }
  destruct (Js.includes "Missing" line); [done|].
  destruct (Js.includes "Emergency stop" line); [done|].
  apply includes_trim.
  destruct (Js.includes NL (Js.substring_from 1 line)) eqn:E; [|done].
  apply includes_substring_from in E. congruence.
Qed.

Lemma interpret_log_one_line (log : string) :
  Js.includes NL (userFriendlyError (interpret_log log)) = false.
Proof.
  destruct (List.find (Js.startsWith "!") (Js.split NL log)) as [line|] eqn:Hf.
  - rewrite (interpret_log_marked _ _ Hf). apply classify_line_one_line.
    apply find_some in Hf as [Hin _].
    pose proof (split_lines_one_line log) as Hall.
    rewrite Forall_forall in Hall. by apply Hall, list_elem_of_In.
  - by rewrite (interpret_log_unmarked _ Hf).
Qed.

(** The first line of the text thrown is the message, when that is one line. *)
Lemma first_line_error_text (e : LatexError) :
  Js.includes NL (userFriendlyError e) = false ->
  first_line (error_text e) = userFriendlyError e.
Proof.
  intros H. unfold first_line, error_text.
  destruct (String.eqb (errorDetails e) EmptyString).
  - by rewrite str_app_nil_r, split_one_line.
  - by rewrite split_app_nl, split_one_line.
Qed.

Lemma first_line_of_log_error (log : string) :
  first_line (error_text (interpret_log log)) = userFriendlyError (interpret_log log).
Proof. apply first_line_error_text, interpret_log_one_line. Qed.

(** X4: whatever the log, the text that [compileLatex] throws from it
    starts with the classified message on a line of its own, so the
    [error] field of the failure response is that message. *)
Theorem error_field_is_message (log : string) :
  first_line (error_text (interpret_log log)) = userFriendlyError (interpret_log log).
Proof. apply first_line_error_text, interpret_log_one_line. Qed.

Lemma startsWith_self_app (x b : string) : Js.startsWith x (x +:+ b) = true.
Proof.
  induction x as [|c x IH]; [apply startsWith_empty|].
  rewrite str_app_cons. cbn [Js.startsWith]. by rewrite Ascii.eqb_refl, IH.
Qed.

Lemma includes_of_startsWith (x s : string) :
  Js.startsWith x s = true -> Js.includes x s = true.
Proof. intros H. destruct s; cbn [Js.includes]; by rewrite H. Qed.

Lemma includes_mid (x a b : string) : Js.includes x (a +:+ x +:+ b) = true.
Proof.
  induction a as [|c a IH].
  - change (EmptyString +:+ x +:+ b) with (x +:+ b).
    apply includes_of_startsWith, startsWith_self_app.
  - rewrite str_app_cons. by apply includes_cons.
Qed.

(** A separator that starts in [x] and runs over the character after
    it holds that character. *)
Lemma startsWith_over_char (sep : string) (c : ascii) (y : string) :
  forall x, Js.startsWith sep (x +:+ String c y) = true ->
  Js.startsWith sep x = true \/ Js.includes (String c EmptyString) sep = true.
Proof.
  induction sep as [|a sep IH]; intros x; [by left|].
  destruct x as [|d x].
  - cbn [String.append Js.startsWith]. intros [Ha _]%andb_true_iff.
    right. by rewrite includes_char_cons, (Ascii.eqb_sym c), Ha.
  - rewrite str_app_cons. cbn [Js.startsWith]. intros [Ha Hs]%andb_true_iff.
    destruct (IH x Hs) as [H|H].
    + left. by rewrite Ha, H.
    + right. by rewrite includes_char_cons, H, orb_true_r.
Qed.

Lemma cons_first_prepend (c : ascii) (a : string) (l : list string) :
  l <> [] -> Js.cons_first c (prepend a l) = prepend (String c a) l.
Proof. by destruct l. Qed.

(** A line that does not hold the separator, and its line feed, stay in
    the first piece. *)
Lemma split_pass_line (sep uf rest : string) :
  sep <> EmptyString ->
  Js.includes sep uf = false ->
  Js.includes NL sep = false ->
  Js.split sep (uf +:+ NL +:+ rest) = prepend (uf +:+ NL) (Js.split sep rest).
Proof.
  intros Hsep Hu Hnl. unfold Js.split.
  assert (Hno : forall x, Js.startsWith sep x = false ->
                Js.startsWith sep (x +:+ NL +:+ rest) = false).
  { intros x Hx. destruct (Js.startsWith sep (x +:+ NL +:+ rest)) eqn:E; [|done].
    change (NL +:+ rest) with (String Js.LF rest) in E.
    apply startsWith_over_char in E as [E|E]; unfold NL in *; congruence. }
  induction uf as [|c uf IH].
  - pose proof (Hno EmptyString) as H0.
    change (EmptyString +:+ NL +:+ rest) with (String Js.LF rest) in *.
    cbn [Js.split_go]. rewrite H0 by (by destruct sep).
    destruct (Js.split_go sep 0 rest) eqn:E; [by apply split_go_not_nil in E|done].
  - cbn [Js.includes] in Hu. apply orb_false_elim in Hu as [Hs Hi].
    pose proof (Hno _ Hs) as H1. rewrite !str_app_cons in *.
    cbn [Js.split_go]. rewrite H1, (IH Hi).
    apply cons_first_prepend, split_go_not_nil.
Qed.

Lemma split_go_skip (sep : string) :
  forall k s, Js.split_go sep k s = Js.split_go sep 0 (Js.substring_from k s).
Proof.
  induction k as [|k IH]; intros s; [done|].
  destruct s as [|c s]; [done|]. cbn [Js.split_go Js.substring_from]. apply IH.
Qed.

(** Where the separator starts a text, the first piece is empty. *)
Lemma split_at_sep (sep rest : string) :
  sep <> EmptyString ->
  Js.split sep (sep +:+ rest) = EmptyString :: Js.split sep rest.
Proof.
  intros Hsep. unfold Js.split. destruct sep as [|c sep]; [done|].
  rewrite str_app_cons. cbn [Js.split_go].
  rewrite <- str_app_cons, startsWith_self_app. f_equal.
  rewrite split_go_skip. f_equal.
  change (String.length (String c sep) - 1) with (String.length sep - 0).
  rewrite Nat.sub_0_r. clear.
  induction sep as [|a sep IH]; [done|]. rewrite str_app_cons. apply IH.
Qed.

Lemma split_no_sep (sep s : string) :
  Js.includes sep s = false -> Js.split sep s = [s].
Proof.
  unfold Js.split. induction s as [|c s IH].
  - done.
  - cbn [Js.includes Js.split_go]. intros [-> Hi]%orb_false_elim.
    by rewrite (IH Hi).
Qed.

(** X5: the failure response gives back what the log interpreter found.
    When neither the message nor the excerpt holds [Details:] and the
    message is one line, the [error] field is the message and the
    [details] field is the excerpt, trimmed (the message again when the
    excerpt is empty). *)
Theorem failure_fields_round_trip (e : LatexError) (jobId : string)
    (src : JsValue) (sugg : option string) :
  Js.includes NL (userFriendlyError e) = false ->
  Js.includes "Details:" (userFriendlyError e) = false ->
  Js.includes "Details:" (errorDetails e) = false ->
  exists n,
    error_response jobId (MkVars src (Some (error_text e)) sugg) =
    Ret (CompileFailed (userFriendlyError e)
           (if String.eqb (errorDetails e) EmptyString
            then userFriendlyError e else Js.trim (errorDetails e))
           jobId n sugg).
Proof.
  intros Hnl Hu Hd. exists MAX_ATTEMPTS. unfold error_response. cbn [lastError].
  rewrite (first_line_error_text e Hnl). unfold error_text.
  destruct (String.eqb (errorDetails e) EmptyString).
  - rewrite str_app_nil_r, Hu. done.
  - set (tail := String " " (errorDetails e)).
    assert (Hinc : Js.includes "Details:"
              (userFriendlyError e +:+ NL +:+ NL +:+ "Details: " +:+ errorDetails e)
            = true).
    { replace (userFriendlyError e +:+ NL +:+ NL +:+ "Details: " +:+ errorDetails e)
        with ((userFriendlyError e +:+ NL +:+ NL) +:+ "Details:" +:+ tail)
        by (by rewrite !str_app_assoc).
      apply includes_mid. }
    assert (Hsp : Js.split "Details:"
              (userFriendlyError e +:+ NL +:+ NL +:+ "Details: " +:+ errorDetails e)
            !! 1 = Some tail).
    { change (userFriendlyError e +:+ NL +:+ NL +:+ "Details: " +:+ errorDetails e)
        with (userFriendlyError e +:+ NL +:+
              (EmptyString +:+ NL +:+ ("Details:" +:+ tail))).
      rewrite (split_pass_line "Details:") by done.
      rewrite (split_pass_line "Details:" EmptyString) by done.
      rewrite (split_at_sep "Details:") by done.
      rewrite (split_no_sep "Details:" tail)
        by (subst tail; cbn [Js.includes Js.startsWith]; by rewrite Hd).
      done. }
    rewrite Hinc, Hsp. done.
Qed.

Lemma failure_fields_round_trip_witness :
  exists n,
    error_response "job"
      (MkVars (VString "\documentclass{article}")
         (Some (error_text (interpret_log log_undefined))) None) =
    Ret (CompileFailed MSG_UNDEFINED
           ("! Undefined control sequence." +:+ NL +:+
            "l.3 \textbf{Hello \unknowncommand" +:+ NL +:+ "? " +:+ NL +:+
            "! Emergency stop.")
           "job" n None).
Proof.
  apply (failure_fields_round_trip (interpret_log log_undefined) "job"
           (VString "\documentclass{article}") None).
  - reflexivity.
  - reflexivity.
  - reflexivity.
Defined.

End ErrorFields.

(** ** The usual fenced answer of the completion service *)

Section Unwrap.

Lemma trimEnd_snoc (c : ascii) (s : string) :
  Js.is_space c = false ->
  Js.trimEnd (s +:+ String c EmptyString) = s +:+ String c EmptyString.
Proof.
  intros Hc. induction s as [|a s IH].
  - change (EmptyString +:+ String c EmptyString) with (String c EmptyString).
    cbn [Js.trimEnd]. by rewrite Hc.
  - rewrite str_app_cons, trimEnd_cons, IH.
    by destruct s.
Qed.

(** What holds no backtick is copied by the removal of a fence. *)
Lemma remove_all_pass (lit body rest : string) :
  Js.includes "`" body = false ->
  remove_all (String "`" lit) 0 (body +:+ rest) =
  body +:+ remove_all (String "`" lit) 0 rest.
Proof.
  induction body as [|c body IH]; [done|].
  rewrite includes_char_cons. intros [Hc Hb]%orb_false_elim.
  rewrite !str_app_cons. cbn [remove_all Js.startsWith].
  by rewrite Hc, (IH Hb).
Qed.

(** X6: an answer that is a document between an opening [```latex]
    line and a closing [```], the document holding no backtick, is
    unwrapped to the document followed by the line feed that stood before
    the closing fence. *)
Theorem fenced_response_unwrapped (body : string) :
  Js.includes "`" body = false ->
  clean_response ("```latex" +:+ NL +:+ body +:+ NL +:+ "```") = body +:+ NL.
Proof.
  intros Hb. unfold clean_response.
  assert (Htrim : Js.trim ("```latex" +:+ NL +:+ body +:+ NL +:+ "```")
                  = "```latex" +:+ NL +:+ body +:+ NL +:+ "```").
  { unfold Js.trim.
    change (Js.trimStart ("```latex" +:+ NL +:+ body +:+ NL +:+ "```"))
      with ("```latex" +:+ NL +:+ body +:+ NL +:+ "```").
    replace ("```latex" +:+ NL +:+ body +:+ NL +:+ "```")
      with (("```latex" +:+ NL +:+ body +:+ NL +:+ "``") +:+ "`")
      by (by rewrite !str_app_assoc).
    by apply trimEnd_snoc. }
  rewrite Htrim.
  change (remove_all FENCE_LATEX 0 ("```latex" +:+ NL +:+ body +:+ NL +:+ "```"))
    with (remove_all FENCE_LATEX 0 (body +:+ NL +:+ "```")).
  unfold FENCE_LATEX, FENCE.
  rewrite (remove_all_pass "``latex" body _ Hb).
  change (remove_all "```latex" 0 (NL +:+ "```")) with (NL +:+ "```").
  by rewrite (remove_all_pass "``" body _ Hb).
Qed.

Lemma fenced_response_unwrapped_witness :
  clean_response fenced_answer = "\documentclass{article}" +:+ NL.
Proof.
  apply (fenced_response_unwrapped "\documentclass{article}").
  reflexivity.
Defined.

End Unwrap.

(** ** The shape of the traces of the handler *)

Section Shapes.

#[local] Arguments interpret_log : simpl never.
#[local] Arguments clean_response : simpl never.
#[local] Arguments error_text : simpl never.
#[local] Arguments fix_request : simpl never.
#[local] Arguments first_line : simpl never.

Ltac unfold_monad := unfold mbind, mret, prog_bind, prog_ret in *.

Ltac path_step :=
  cbn [always bind try_catch await settles_ok swallow negb];
  match goal with
  | |- forall _ : Answer, _ => intros [?|?]
  | |- context [if Js.includes ?a ?b then _ else _] => destruct (Js.includes a b)
  end.

Ltac paths := unfold_monad; repeat path_step;
  cbn [always bind try_catch await settles_ok swallow negb].

Lemma after_fix_error_none (t : list (Call * Answer)) :
  count is_completion t = 0 -> after_fix_error t = None.
Proof.
  induction t as [|[c a] t IH]; [done|]. cbn [count fst].
  destruct c; cbn [is_completion after_fix_error]; try (intros; apply IH; lia).
  lia.
Qed.

Lemma after_fix_error_app (t1 t2 : list (Call * Answer)) :
  after_fix_error (t1 ++ t2) =
  match after_fix_error t1 with
  | Some r => Some (r ++ t2)
  | None => after_fix_error t2
  end.
Proof.
  induction t1 as [|[c a] t1 IH]; [done|].
  destruct c; cbn [app after_fix_error]; try apply IH.
  destruct a; [apply IH|done].
Qed.

Lemma fixes_written_pass (d : string) (t1 t2 : list (Call * Answer)) :
  count is_completion t1 = 0 ->
  fixes_written d (t1 ++ t2) = fixes_written d t2.
Proof.
  induction t1 as [|[c a] t1 IH]; [done|]. cbn [count fst].
  destruct c; cbn [is_completion app fixes_written]; try (intros; apply IH; lia).
  lia.
Qed.

Lemma fixes_written_none (d : string) (t : list (Call * Answer)) :
  count is_completion t = 0 -> fixes_written d t = true.
Proof.
  intros H. rewrite <- (app_nil_r t). by rewrite fixes_written_pass.
Qed.

Lemma fixes_written_app (d : string) (t1 t2 : list (Call * Answer)) :
  fixes_written d t1 = true -> fixes_written d t2 = true ->
  fixes_written d (t1 ++ t2) = true.
Proof.
  intros H1 H2. induction t1 as [|[c a] t1 IH]; [done|].
  destruct c; cbn [app fixes_written] in *; try by apply IH.
  destruct a as [text|m]; [|by apply IH].
  apply andb_true_iff in H1 as [Hn Hw]. rewrite (IH Hw), andb_true_r.
  destruct t1 as [|[c' a'] t1]; [done|]. exact Hn.
Qed.

Lemma starts_with_write_app (d f : string) (l : JsValue)
    (t1 t2 : list (Call * Answer)) :
  starts_with_write d f l t1 -> starts_with_write d f l (t1 ++ t2).
Proof. intros (a & rest & ->). by exists a, (rest ++ t2). Qed.

(** [compileLatex] starts with the writing of the source and never
    calls the completion service. *)
Lemma compileLatex_shape (d f : string) (l : JsValue) :
  always (compileLatex d (d, f) l)
    (fun _ t => starts_with_write d f l t /\ count is_completion t = 0).
Proof.
  unfold compileLatex, extractLatexError. paths;
    (split; [by eexists _, _|done]).
Qed.

(** [fixLatexErrors] returns after one call that was answered, with
    the answer cleaned; it throws without a call or after one that
    failed. *)
Lemma fixLatexErrors_shape (l : JsValue) (e : string) :
  always (fixLatexErrors l e)
    (fun o t =>
       match o with
       | Returned fixed =>
           exists q text,
             t = [(MessagesCreate q, Ok text)] /\ fixed = clean_response text
       | Thrown _ => t = [] \/ exists q m, t = [(MessagesCreate q, Err m)]
       end).
Proof.
  unfold fixLatexErrors. destruct (to_template l); paths; eauto.
Qed.

Lemma on_compile_error_shape (af : JsValue) (attempt : nat) (v : Vars) (m : string) :
  always (on_compile_error af attempt v m) (catch_post af attempt v).
Proof.
  unfold on_compile_error. fold (stops af attempt).
  destruct (stops af attempt) eqn:Hs.
  - cbn. split; [by eauto|]. left. by rewrite Hs.
  - unfold_monad. apply always_try_catch, always_bind.
    eapply always_mono; [|apply fixLatexErrors_shape].
    intros [fixed|e] t Ht; cbn [always]; rewrite app_nil_r; unfold catch_post;
      rewrite Hs; cbn [lastError llmSuggestions currentLatex].
    + destruct Ht as (q & text & -> & ->).
      split; [done|]. split; [by eauto|]. by exists q, text.
    + split; [by eauto|]. right. split; [done|]. split; [done|].
      destruct Ht as [->|(q & m' & ->)]; [by left|right; by eauto].
Qed.

Lemma attempt_body_shape (j d : string) (af : JsValue) (attempt : nat) (v : Vars) :
  always (attempt_body j d (d, "document.tex") af attempt v)
    (turn_post j d af attempt v).
Proof.
  unfold attempt_body. unfold_monad.
  apply always_try_catch, always_bind.
  eapply always_mono; [|apply compileLatex_shape].
  assert (Hcatch : forall (m : string) (tc : list (Call * Answer)),
    starts_with_write d "document.tex" (currentLatex v) tc ->
    count is_completion tc = 0 ->
    always (on_compile_error af attempt v m)
      (fun o2 t2 => turn_post j d af attempt v o2 (tc ++ t2))).
  { intros m tc Hw Hc.
    eapply always_mono; [|apply on_compile_error_shape].
    intros o th Ho. exists tc, th. split; [done|]. split; [done|]. split; [done|].
    by destruct o as [[r|v'|v']|e]. }
  intros [pdf|m] t1 [Hw Hc].
  - cbn [always bind try_catch await]. intros [x|x]; cbn [always bind try_catch].
    + exists (t1 ++ [(Rm d, Ok x)]), []. rewrite !app_nil_r.
      split; [done|]. split; [by apply starts_with_write_app|].
      split; [rewrite count_app; cbn; lia|].
      split; [done|]. split; [exists x; apply last_snoc|by eexists].
    + eapply always_mono; [|apply (Hcatch x (t1 ++ [(Rm d, Err x)]))].
      * intros o t. by rewrite <- !app_assoc.
      * by apply starts_with_write_app.
      * rewrite count_app. cbn. lia.
  - eapply always_mono; [|apply (Hcatch m t1 Hw Hc)]. done.
Qed.

Lemma last_rm_ok_app (d : string) (t1 t2 : list (Call * Answer)) :
  last_rm_ok d t2 -> last_rm_ok d (t1 ++ t2).
Proof. intros [x Hx]. exists x. by rewrite last_app, Hx. Qed.

(** The loop, turn after turn: every answer of the completion service
    is written by the next turn, an answer that failed is the last call,
    and the artifact is sent after as many answers as turns before. *)
Lemma attempts_loop_shape (j d : string) (af : JsValue) :
  forall (n attempt : nat) (v : Vars),
  MAX_ATTEMPTS < attempt + n ->
  always (attempts_loop n j d (d, "document.tex") af attempt v)
    (fun o t =>
       loop_post j d attempt v o t /\ (attempt <= MAX_ATTEMPTS -> t <> [])).
Proof.
  induction n as [|n IH]; intros attempt v Hn; cbn [attempts_loop].
  - cbn [always mret prog_ret]. split; [|lia].
    split; [done|]. split; [done|]. by left.
  - destruct (Nat.leb_spec attempt MAX_ATTEMPTS) as [Hle|Hgt].
    2:{ cbn [always mret prog_ret]. split; [|lia].
        split; [done|]. split; [done|]. by left. }
    unfold_monad. apply always_bind.
    eapply always_mono; [|apply attempt_body_shape].
    intros [[r|v'|v']|e] t (tc & th & -> & Hw & Hc & Ho); [| | |done].
    + destruct Ho as (-> & Hrm & pdf & ->). cbn [always]. rewrite !app_nil_r.
      split; [|by destruct Hw as (? & ? & ->)].
      split; [by apply fixes_written_none|]. split; [done|].
      exists attempt, pdf. split; [done|]. split; [lia|].
      split; [lia|]. split; [by apply after_fix_error_none|done].
    + destruct Ho as [Hsome Ho]. cbn [always]. rewrite app_nil_r.
      split; [|by destruct Hw as (? & ? & ->)].
      assert (Hth : fixes_written d th = true /\
                    match after_fix_error th with
                    | Some r => r = [] /\ llmSuggestions v' = Some SUGGESTION_NONE
                    | None => True
                    end).
      { destruct Ho as [(_ & -> & _)|(_ & Hsugg & [->|(q & m & ->)])]; done. }
      destruct Hth as [Hfw Hafter].
      split; [by rewrite fixes_written_pass|].
      split; [intros _; by apply starts_with_write_app|].
      right. split; [done|].
      by rewrite after_fix_error_app, (after_fix_error_none tc Hc).
    + destruct Ho as (Hs & Hsome & q & text & -> & Hcur).
      apply stops_false in Hs as [_ Hne].
      eapply always_mono; [|apply (IH (S attempt) v')]; [|lia].
      intros o t2 [(Hfw & Hst & Ho2) Hnil].
      assert (Ht2 : t2 <> []) by (apply Hnil; lia).
      split; [|by destruct Hw as (? & ? & ->)].
      split; [|split].
      * rewrite <- app_assoc, fixes_written_pass by done.
        cbn [app fixes_written]. rewrite Hfw, andb_true_r.
        destruct (Hst Ht2) as (a & rest & ->). rewrite Hcur.
        cbn [next_is_write]. by rewrite !String.eqb_refl.
      * intros _. by apply starts_with_write_app, starts_with_write_app.
      * assert (Hafter : after_fix_error ((tc ++ [(MessagesCreate q, Ok text)]) ++ t2)
                         = after_fix_error t2).
        { by rewrite !after_fix_error_app, (after_fix_error_none tc Hc). }
        destruct o as [[r|v'']|e]; [| |done].
        -- destruct Ho2 as (a & pdf & -> & Ha & Hcnt & Hnone & Hrm).
           exists a, pdf. split; [done|]. split; [lia|].
           split; [rewrite !count_app, Hc, Hcnt; cbn; lia|].
           split; [by rewrite Hafter|by apply last_rm_ok_app].
        -- right. destruct Ho2 as [[-> _]|[Hs2 Ha2]]; [done|].
           split; [done|]. by rewrite Hafter.
Qed.

(** A text that holds the separator splits in two pieces at least. *)
Lemma split_second (sep s : string) :
  sep <> EmptyString ->
  Js.includes sep s = true ->
  exists p, Js.split sep s !! 1 = Some p.
Proof.
  intros Hsep. unfold Js.split. induction s as [|c s IH].
  - by destruct sep.
  - cbn [Js.includes Js.split_go].
    destruct (Js.startsWith sep (String c s)) eqn:E.
    + intros _. pose proof (split_go_not_nil sep s (String.length sep - 1)) as Hne.
      destruct (Js.split_go sep (String.length sep - 1) s) as [|p ps]; [done|].
      by exists p.
    + cbn [orb]. intros Hi. destruct (IH Hi) as [p Hp].
      destruct (Js.split_go sep 0 s) as [|w ws]; [done|]. by exists p.
Qed.

(** The handler, on every path, by the response it sends. *)
Lemma compile_handler_shape (j : string) (req : Request) :
  always (compile_handler j req) (response_post j).
Proof.
  unfold compile_handler.
  destruct (truthy (latex req)); [|by cbn].
  unfold_monad. cbn [negb always bind try_catch await swallow].
  intros [x|x]; cbn [always bind try_catch].
  - apply always_try_catch, always_bind.
    eapply always_mono; [|apply (attempts_loop_shape j (temp_dir j))];
      [|unfold MAX_ATTEMPTS; lia].
    intros [[r|v']|e] t [(Hfw & Hst & Ho) Hnil]; [| |done].
    + cbn [always]. rewrite app_nil_r.
      destruct Ho as (a & pdf & -> & Ha & Hcnt & Hnone & Hrm).
      split; [done|]. cbn [count fst is_completion after_fix_error].
      split; [done|]. split; [done|]. split; [lia|]. split; [lia|done].
    + assert (Ht : t <> []) by (apply Hnil; unfold MAX_ATTEMPTS; lia).
      destruct Ho as [[-> _]|[Hsome Hafter]]; [done|].
      destruct Hsome as [le Hle].
      cbn [always bind swallow]. intros a. unfold error_response. rewrite Hle.
      assert (Hfw' : forall t', count is_completion t' = 0 ->
                fixes_written (temp_dir j)
                  ((Mkdir (temp_dir j), Ok x) :: t ++ (Rm (temp_dir j), a) :: t')
                = true).
      { intros t' Ht'. cbn [fixes_written]. apply fixes_written_app; [done|].
        apply fixes_written_none. cbn [count fst is_completion]. lia. }
      assert (Hfail : forall e dd n,
                response_post j
                  (Returned (CompileFailed e dd j n (llmSuggestions v')))
                  ((Mkdir (temp_dir j), Ok x) :: t ++ [(Rm (temp_dir j), a)])).
      { intros e dd n. split; [by apply Hfw'|]. split; [done|].
        cbn [after_fix_error]. rewrite after_fix_error_app.
        destruct (after_fix_error t) as [r|]; [|done].
        destruct Hafter as [-> Hs]. split; [by exists a|done]. }
      destruct (Js.includes "Details:" le) eqn:Hinc.
      * destruct (split_second "Details:" le) as [p Hp]; [done|done|].
        rewrite Hp. cbn [always mret prog_ret]. apply Hfail.
      * cbn [always mret prog_ret]. apply Hfail.
  - intros a. split; [done|]. split; [done|]. split; [done|]. by exists a.
Qed.

End Shapes.

(** ** What the responses tell about the run *)

(** X7: the generic internal-error response has two causes only: the
    body of the request was not parsed, so that its destructuring threw,
    or the working directory could not be created.  Its details are the
    message of that failure, and the only other call made is the removal
    of the directory. *)
Theorem internal_error_causes (o : Oracle) (w : World) (jobId : string)
    (body : option Request) (e m j : string) :
  let r := exec o (compile_endpoint jobId body) w in
  outcome r = Returned (InternalError e m j) ->
  e = "Internal server error" /\ j = jobId /\
  ((body = None /\ m = DESTRUCTURE_ERROR /\
    exists a, trace r = [(Rm (temp_dir jobId), a)]) \/
   (is_Some body /\
    exists a, trace r = [(Mkdir (temp_dir jobId), Err m); (Rm (temp_dir jobId), a)])).
Proof.
  intros r Hout. destruct body as [req|].
  - destruct (always_exec o _ _ w (compile_handler_shape jobId req)) as [_ Ho].
    cbn [compile_endpoint] in r. fold r in Ho. rewrite Hout in Ho.
    destruct Ho as (-> & -> & Ht). split; [done|]. split; [done|].
    right. split; [by eexists|done].
  - subst r.
    cbn [compile_endpoint try_catch mbind prog_bind bind swallow mret prog_ret exec]
      in *.
    destruct (step o w (Rm (temp_dir jobId))) as [a w1].
    cbn [extend outcome trace] in *. injection Hout as <- <- <-.
    split; [done|]. split; [done|]. left. split; [done|]. split; [done|].
    by exists a.
Qed.

Lemma internal_error_causes_witness :
  let r := exec nomkdir_oracle
             (compile_endpoint "job" (Some (sample_request VUndefined)))
             empty_world in
  "Internal server error" = "Internal server error" /\ "job" = "job" /\
  ((Some (sample_request VUndefined) = None /\
    "ENOSPC: no space left on device" = DESTRUCTURE_ERROR /\
    exists a, trace r = [(Rm (temp_dir "job"), a)]) \/
   (is_Some (Some (sample_request VUndefined)) /\
    exists a, trace r = [(Mkdir (temp_dir "job"),
                          Err "ENOSPC: no space left on device");
                         (Rm (temp_dir "job"), a)])).
Proof.
  apply (internal_error_causes nomkdir_oracle empty_world "job"
           (Some (sample_request VUndefined)) "Internal server error"
           "ENOSPC: no space left on device" "job").
  by vm_compute.
Defined.

(** X8: when the artifact is sent, the attempt number in the header is
    between 1 and 3 and is one more than the number of calls made to the
    completion service (all of them answered), and the fixed flag is set
    exactly when that number is above one. *)
Theorem success_headers (o : Oracle) (w : World) (jobId : string)
    (req : Request) (j : string) (a : nat) (f : bool) (pdf : string) :
  let r := exec o (compile_handler jobId req) w in
  outcome r = Returned (PdfSent j a f pdf) ->
  j = jobId /\ 1 <= a <= 3 /\
  count is_completion (trace r) = a - 1 /\
  after_fix_error (trace r) = None /\
  f = (1 <? a).
Proof.
  intros r Hout.
  destruct (always_exec o _ _ w (compile_handler_shape jobId req)) as [_ Ho].
  fold r in Ho. rewrite Hout in Ho.
  destruct Ho as (-> & -> & Ha & Hc & Hn). unfold MAX_ATTEMPTS in Ha. done.
Qed.

Lemma success_headers_witness :
  let r := exec second_try_oracle
             (compile_handler "job" (sample_request VUndefined)) empty_world in
  outcome r = Returned (PdfSent "job" 2 true "%PDF") /\
  count is_completion (trace r) = 1.
Proof.
  cbn zeta.
  assert (Hout : outcome (exec second_try_oracle
                   (compile_handler "job" (sample_request VUndefined)) empty_world)
                 = Returned (PdfSent "job" 2 true "%PDF")) by (by vm_compute).
  split; [exact Hout|].
  exact (proj1 (proj2 (proj2
           (success_headers second_try_oracle empty_world "job"
              (sample_request VUndefined) "job" 2 true "%PDF" Hout)))).
Defined.

(** X9: a call to the completion service that fails is not tried
    again: nothing follows it but the removal of the directory, and the
    response is the failure with the suggestion that help is
    unavailable. *)
Theorem fix_failure_is_final (o : Oracle) (w : World) (jobId : string)
    (req : Request) (rest : list (Call * Answer)) :
  let r := exec o (compile_handler jobId req) w in
  after_fix_error (trace r) = Some rest ->
  (exists a, rest = [(Rm (temp_dir jobId), a)]) /\
  exists e d n,
    outcome r = Returned (CompileFailed e d jobId n
                  (Some "AI assistance unavailable. Manual fixes required.")).
Proof.
  intros r Hafter.
  destruct (always_exec o _ _ w (compile_handler_shape jobId req)) as [_ Ho].
  fold r in Ho.
  destruct (outcome r) as [[e|j a f pdf|e d j n s|e m j]|m]; [| | | |done].
  - rewrite Ho in Hafter. done.
  - destruct Ho as (_ & _ & _ & _ & Hn). congruence.
  - destruct Ho as [-> Ho]. rewrite Hafter in Ho. destruct Ho as [Hr ->].
    split; [done|]. by exists e, d, n.
  - destruct Ho as (_ & _ & a & Ht). rewrite Ht in Hafter. done.
Qed.

Lemma fix_failure_is_final_witness :
  let r := exec no_service_oracle
             (compile_handler "job" (sample_request VUndefined)) empty_world in
  count is_pdflatex (trace r) = 1 /\
  exists e d n,
    outcome r = Returned (CompileFailed e d "job" n (Some SUGGESTION_NONE)).
Proof.
  cbn zeta. split; [by vm_compute|].
  refine (proj2
            (fix_failure_is_final no_service_oracle empty_world "job"
               (sample_request VUndefined) [(Rm (temp_dir "job"), Ok EmptyString)] _)).
  by vm_compute.
Defined.

(** X10: the source compiled after a fix is the answer of the
    completion service: every answered call to the service is followed at
    once by the writing of its cleaned answer to the source file of the
    job. *)
Theorem fix_then_write (o : Oracle) (w : World) (jobId : string) (req : Request) :
  fixes_written (temp_dir jobId) (trace (exec o (compile_handler jobId req) w)) = true.
Proof.
  by destruct (always_exec o _ _ w (compile_handler_shape jobId req)) as [Hfw _].
Qed.

(** ** The footprint of the handler on the file system *)

Section Footprint.

#[local] Arguments interpret_log : simpl never.
#[local] Arguments clean_response : simpl never.
#[local] Arguments error_text : simpl never.
#[local] Arguments fix_request : simpl never.
#[local] Arguments first_line : simpl never.

Lemma calls_all_bind {A B} (Q : Call -> Prop) (p : Prog A) (f : A -> Prog B) :
  calls_all Q p -> (forall a, calls_all Q (f a)) -> calls_all Q (bind p f).
Proof.
  intros Hp Hf. induction p as [a|m|c k IH]; cbn [bind calls_all] in *; [done|done|].
  destruct Hp as [Hc Hk]. split; [done|]. intros x. by apply IH.
Qed.

Lemma calls_all_try_catch {A} (Q : Call -> Prop) (p : Prog A) (h : string -> Prog A) :
  calls_all Q p -> (forall m, calls_all Q (h m)) -> calls_all Q (try_catch p h).
Proof.
  intros Hp Hh. induction p as [a|m|c k IH]; cbn [try_catch calls_all] in *; [done|done|].
  destruct Hp as [Hc Hk]. split; [done|]. intros x. by apply IH.
Qed.

Ltac calls_step :=
  cbn [calls_all bind try_catch await settles_ok swallow negb];
  match goal with
  | |- _ /\ _ => split
  | |- forall _ : Answer, _ => intros [?|?]
  | |- context [if Js.includes ?a ?b then _ else _] => destruct (Js.includes a b)
  | |- True => exact I
  end.

Ltac calls := unfold mbind, mret, prog_bind, prog_ret in *; repeat calls_step.

(** A call within [d] leaves as it is every directory that is neither
    in the tree of [d] nor above [d]. *)
Lemma answer_within (o : Oracle) (w : World) (c : Call) (d d' : string) :
  within d c -> in_tree d d' = false -> in_tree d' d = false ->
  (answer o w c).2 !! d' = fs w !! d'.
Proof.
  unfold within. intros Hc Hin Hup.
  assert (Hd : d' <> d).
  { intros ->. unfold in_tree in Hin. by rewrite String.eqb_refl in Hin. }
  assert (Hab : Js.startsWith (d' +:+ "/") d = false).
  { unfold in_tree in Hup. by apply orb_false_iff in Hup as [_ ?]. }
  destruct c as [x|x n data|x|x n|x n|x|q]; cbn [call_dir] in Hc; subst;
    cbn [answer]; unfold faulty;
    try (destruct (io_fault o (clock w)); [done|]); cbn [snd]; try done.
  - by apply mkdir_p_other.
  - destruct (write_effect data) as [[text ok]|]; [|done].
    destruct (fs w !! d); [|done]. cbn [snd]. by rewrite lookup_insert_ne.
  - destruct (fs w !! d); [|done]. cbn [snd]. by rewrite lookup_insert_ne.
  - by apply rm_tree_other.
Qed.

Lemma exec_within {A} (o : Oracle) (d d' : string) (p : Prog A) :
  calls_all (within d) p -> in_tree d d' = false -> in_tree d' d = false ->
  forall w, fs (final (exec o p w)) !! d' = fs w !! d'.
Proof.
  intros Hp Hin Hup.
  induction p as [a|m|c k IH]; intros w; cbn [exec]; [done|done|].
  destruct Hp as [Hc Hk]. unfold step.
  pose proof (answer_within o w c d d' Hc Hin Hup) as Hans.
  destruct (answer o w c) as [x f]. cbn [extend final]. rewrite (IH x (Hk x)).
  done.
Qed.

(** A call within [d] that is no [mkdir] and no [rm] leaves every other
    directory as it is. *)
Lemma answer_within_flat (o : Oracle) (w : World) (c : Call) (d d' : string) :
  within d c /\ keeps_dirs c -> d' <> d -> (answer o w c).2 !! d' = fs w !! d'.
Proof.
  unfold within. intros [Hc Hk] Hd.
  destruct c as [x|x n data|x|x n|x n|x|q]; cbn [call_dir keeps_dirs] in Hc, Hk;
    subst; try done;
    cbn [answer]; unfold faulty;
    try (destruct (io_fault o (clock w)); [done|]); cbn [snd]; try done.
  - destruct (write_effect data) as [[text ok]|]; [|done].
    destruct (fs w !! d); [|done]. cbn [snd]. by rewrite lookup_insert_ne.
  - destruct (fs w !! d); [|done]. cbn [snd]. by rewrite lookup_insert_ne.
Qed.

Lemma exec_within_flat {A} (o : Oracle) (d d' : string) (p : Prog A) :
  calls_all (fun c => within d c /\ keeps_dirs c) p -> d' <> d ->
  forall w, fs (final (exec o p w)) !! d' = fs w !! d'.
Proof.
  intros Hp Hd. induction p as [a|m|c k IH]; intros w; cbn [exec]; [done|done|].
  destruct Hp as [Hc Hk]. unfold step.
  pose proof (answer_within_flat o w c d d' Hc Hd) as Hans.
  destruct (answer o w c) as [x f]. cbn [extend final]. rewrite (IH x (Hk x)).
  done.
Qed.

(** A call that is no [mkdir] and no [rm] keeps the directories. *)
Lemma answer_keeps_dirs (o : Oracle) (w : World) (c : Call) (d' : string) :
  keeps_dirs c -> is_Some ((answer o w c).2 !! d') <-> is_Some (fs w !! d').
Proof.
  intros Hc.
  destruct c as [x|x n data|x|x n|x n|x|q]; cbn [keeps_dirs] in Hc; try done;
    cbn [answer]; unfold faulty;
    try (destruct (io_fault o (clock w)); [done|]); cbn [snd]; try done.
  - destruct (write_effect data) as [[text ok]|]; [|done].
    destruct (fs w !! x) eqn:E; [|done]. cbn [snd].
    destruct (decide (x = d')) as [->|Hne].
    + rewrite lookup_insert_eq, E. split; by eauto.
    + by rewrite lookup_insert_ne.
  - destruct (fs w !! x) eqn:E; [|done]. cbn [snd].
    destruct (decide (x = d')) as [->|Hne].
    + rewrite lookup_insert_eq, E. split; by eauto.
    + by rewrite lookup_insert_ne.
Qed.

Lemma exec_keeps_dirs {A} (o : Oracle) (d' : string) (p : Prog A) :
  calls_all keeps_dirs p ->
  forall w, is_Some (fs (final (exec o p w)) !! d') <-> is_Some (fs w !! d').
Proof.
  intros Hp. induction p as [a|m|c k IH]; intros w; cbn [exec]; [done|done|].
  destruct Hp as [Hc Hk]. unfold step.
  pose proof (answer_keeps_dirs o w c d' Hc) as Hans.
  destruct (answer o w c) as [x f]. cbn [extend final]. rewrite (IH x (Hk x)).
  done.
Qed.

Lemma compileLatex_calls (Q : Call -> Prop) (d f : string) (l : JsValue) :
  Q (WriteFile d f l) -> Q (Pdflatex d) -> Q (Access d "document.pdf") ->
  Q (ReadFile d "document.pdf") -> Q (ReadFile d "document.log") ->
  calls_all Q (compileLatex d (d, f) l).
Proof.
  intros. unfold compileLatex, extractLatexError. calls; done.
Qed.

Lemma fixLatexErrors_calls (Q : Call -> Prop) (l : JsValue) (e : string) :
  (forall q, Q (MessagesCreate q)) -> calls_all Q (fixLatexErrors l e).
Proof.
  intros. unfold fixLatexErrors. destruct (to_template l); calls; done.
Qed.

Lemma attempt_body_within (j d : string) (af : JsValue) (attempt : nat) (v : Vars) :
  calls_all (within d) (attempt_body j d (d, "document.tex") af attempt v).
Proof.
  unfold attempt_body. unfold mbind, mret, prog_bind, prog_ret.
  apply calls_all_try_catch.
  - apply calls_all_bind; [by apply compileLatex_calls|]. intros pdf. calls; done.
  - intros m. unfold on_compile_error, mbind, mret, prog_bind, prog_ret.
    destruct (negb (truthy af) || (attempt =? MAX_ATTEMPTS)); [done|].
    apply calls_all_try_catch; [|done].
    apply calls_all_bind; [by apply fixLatexErrors_calls|done].
Qed.

Lemma attempts_loop_within (j d : string) (af : JsValue) :
  forall (n attempt : nat) (v : Vars),
  calls_all (within d) (attempts_loop n j d (d, "document.tex") af attempt v).
Proof.
  induction n as [|n IH]; intros attempt v; cbn [attempts_loop]; [done|].
  destruct (attempt <=? MAX_ATTEMPTS); [|done].
  unfold mbind, mret, prog_bind, prog_ret.
  apply calls_all_bind; [apply attempt_body_within|].
  intros [r|v'|v']; [done|done|apply IH].
Qed.

Lemma compile_handler_within (j : string) (req : Request) :
  calls_all (within (temp_dir j)) (compile_handler j req).
Proof.
  unfold compile_handler. unfold mbind, mret, prog_bind, prog_ret.
  apply calls_all_try_catch; [|intros m; calls; done].
  destruct (negb (truthy (latex req))); [done|].
  apply calls_all_bind; [calls; done|]. intros _.
  apply calls_all_bind; [apply attempts_loop_within|].
  intros [r|v]; [done|].
  apply calls_all_bind; [calls; done|]. intros _.
  unfold error_response, mret, prog_ret.
  destruct (lastError v) as [le|]; [|done].
  destruct (Js.includes "Details:" le); [|done].
  by destruct (Js.split "Details:" le !! 1).
Qed.

Lemma compile_endpoint_within (j : string) (body : option Request) :
  calls_all (within (temp_dir j)) (compile_endpoint j body).
Proof.
  destruct body as [req|]; [apply compile_handler_within|].
  cbn. split; [done|]. intros _. exact I.
Qed.

End Footprint.

(** X11: the handler works in the tree of its job's directory only:
    whatever the body of the request and whatever happens, every directory
    that is neither the directory of the job, nor below it, nor above it,
    is, with its files, as it was before the request.  (The directories
    below go with the recursive removal; those above come into being with
    the recursive creation.) *)
Theorem job_isolation (o : Oracle) (w : World) (jobId : string)
    (body : option Request) (d : string) :
  in_tree (temp_dir jobId) d = false ->
  in_tree d (temp_dir jobId) = false ->
  fs (final (exec o (compile_endpoint jobId body) w)) !! d = fs w !! d.
Proof.
  intros Hin Hup.
  apply (exec_within o (temp_dir jobId));
    [apply compile_endpoint_within|done|done].
Qed.

Lemma job_isolation_witness :
  fs (final (exec fails_oracle
               (compile_endpoint "job" (Some (sample_request VUndefined)))
               shared_world))
    !! temp_dir "other"
  = Some {[ "document.tex" := "\documentclass{book}" ]}.
Proof.
  rewrite (job_isolation fails_oracle shared_world "job"
             (Some (sample_request VUndefined)) (temp_dir "other")).
  - reflexivity.
  - reflexivity.
  - reflexivity.
Defined.

(** X12: the compiler invoker does not retry and leaves the directories
    alone: it runs the compiler once at most, never calls the completion
    service, creates and removes no directory, and touches no directory
    but the one it is given. *)
Theorem compileLatex_footprint (o : Oracle) (w : World) (d : string)
    (latex : JsValue) :
  let r := exec o (compileLatex d (d, "document.tex") latex) w in
  count is_pdflatex (trace r) <= 1 /\
  count is_completion (trace r) = 0 /\
  (forall d', is_Some (fs (final r) !! d') <-> is_Some (fs w !! d')) /\
  (forall d', d' <> d -> fs (final r) !! d' = fs w !! d').
Proof.
  intros r.
  destruct (always_exec o _ _ w (compileLatex_paths d (d, "document.tex") latex))
    as [Hp Hc].
  split; [done|]. split; [done|]. split.
  - intros d'. by apply exec_keeps_dirs, compileLatex_calls.
  - intros d' Hd.
    apply (exec_within_flat o d); [by apply compileLatex_calls|done].
Qed.

(** ** A source that compiles at once *)

Section CleanCompile.

Lemma run_eta {A} (r : Run A) : MkRun (outcome r) (final r) (trace r) = r.
Proof. by destruct r. Qed.

(** Running a guarded program is running it and then, when it threw,
    the handler. *)
Lemma exec_try_catch {A} (o : Oracle) (p : Prog A) (h : string -> Prog A) :
  forall w,
  exec o (try_catch p h) w = catch_run (exec o p w) (fun m w' => exec o (h m) w').
Proof.
  induction p as [a|m|c k IH]; intros w; cbn [try_catch exec].
  - done.
  - unfold catch_run. cbn [outcome final trace app]. by rewrite run_eta.
  - destruct (step o w c) as [x w1]. rewrite IH. unfold catch_run, extend.
    destruct (exec o (k x) w1) as [out fin tr]. cbn. by destruct out.
Qed.

Ltac run_goal Hf :=
  erewrite exec_Do
    by (unfold answer, faulty, file_of; cbn [fs clock];
        rewrite ?Hf, ?lookup_insert_eq; cbn [mbind option_bind];
        rewrite ?set_file_other, ?set_file_same, ?lookup_insert_eq by done;
        reflexivity);
  cbn [bind try_catch negb await settles_ok clock].

(** The run of [compileLatex] when nothing fails and the compiler
    produces the artifact. *)
Lemma compileLatex_clean (o : Oracle) (w : World) (d s x pdf : string)
    (files : gmap string string) :
  (forall n, io_fault o n = None) ->
  fs w !! d = Some files ->
  run_exit (pdflatex_run o (S (clock w)) (Some s)) = Ok x ->
  run_pdf (pdflatex_run o (S (clock w)) (Some s)) = Some pdf ->
  exists f,
    f !! d <> None /\
    exec o (compileLatex d (d, "document.tex") (VString s)) w =
    MkRun (Returned pdf) (MkWorld f (S (S (S (S (clock w))))))
      [(WriteFile d "document.tex" (VString s), Ok EmptyString);
       (Pdflatex d, Ok x);
       (Access d "document.pdf", Ok EmptyString);
       (ReadFile d "document.pdf", Ok pdf)].
Proof.
  intros Hf Hd Hexit Hpdf. eexists. split; cycle 1.
  - unfold compileLatex, extractLatexError, mbind, mret, prog_bind, prog_ret.
    cbn [bind try_catch await settles_ok fst snd].
    erewrite exec_Do by (unfold answer, faulty; rewrite Hf, Hd; reflexivity).
    cbn [bind try_catch negb].
    erewrite exec_Do
      by (unfold answer; cbn [fs clock]; rewrite !lookup_insert_eq; reflexivity).
    cbn [bind try_catch negb clock]. rewrite Hexit. cbn [bind try_catch].
    run_goal Hf. rewrite Hpdf. cbn [bind try_catch negb await].
    run_goal Hf. rewrite ?Hpdf. cbn [exec extend outcome final trace].
    reflexivity.
  - by rewrite lookup_insert_eq.
Qed.

Lemma attempts_loop_unfold (n : nat) (j d : string) (tf : string * string)
    (af : JsValue) (attempt : nat) (v : Vars) :
  attempt <= MAX_ATTEMPTS ->
  attempts_loop (S n) j d tf af attempt v =
  bind (attempt_body j d tf af attempt v)
    (fun t => match t with
              | TurnSent r => Ret (Sent r)
              | TurnBreak v' => Ret (Fell v')
              | TurnNext v' => attempts_loop n j d tf af (S attempt) v'
              end).
Proof.
  intros H. cbn [attempts_loop]. by rewrite (proj2 (Nat.leb_le _ _) H).
Qed.

(** The creation of the working directory, when it is not refused. *)
Lemma exec_mkdir (o : Oracle) (w : World) (d : string) :
  io_fault o (clock w) = None ->
  exists f0 files,
    f0 !! d = Some files /\
    forall A (k : Answer -> Prog A),
      exec o (Do (Mkdir d) k) w =
      extend (Mkdir d, Ok EmptyString)
        (exec o (k (Ok EmptyString)) (MkWorld f0 (S (clock w)))).
Proof.
  intros Hf. destruct (mkdir_p_self d (fs w)) as [files Hfiles].
  exists (mkdir_p d (fs w)), files. split; [done|]. intros A k.
  apply exec_Do. unfold answer, faulty. by rewrite Hf.
Qed.

(** X13: a source that compiles at once is answered with the artifact
    after one attempt: when no file operation fails and the first run of
    the compiler exits with status zero and leaves the artifact, the
    response is the artifact with attempt number 1 and the fixed flag off,
    the compiler ran once, the completion service was never called, and
    the working directory is gone. *)
Theorem clean_compile_single_attempt (o : Oracle) (w : World) (jobId s x pdf : string)
    (af : JsValue) :
  s <> EmptyString ->
  (forall n, io_fault o n = None) ->
  run_exit (pdflatex_run o (S (S (clock w))) (Some s)) = Ok x ->
  run_pdf (pdflatex_run o (S (S (clock w))) (Some s)) = Some pdf ->
  let r := exec o (compile_handler jobId (MkRequest (VString s) af)) w in
  outcome r = Returned (PdfSent jobId 1 false pdf) /\
  count is_pdflatex (trace r) = 1 /\
  count is_completion (trace r) = 0 /\
  fs (final r) !! temp_dir jobId = None.
Proof.
  intros Hs Hf Hexit Hpdf. cbn zeta.
  set (d := temp_dir jobId).
  destruct (exec_mkdir o w d (Hf (clock w))) as (f0 & files & Hf0 & Hmk).
  destruct (compileLatex_clean o (MkWorld f0 (S (clock w))) d s x pdf files
              Hf Hf0 Hexit Hpdf) as (f1 & Hf1 & Hrun).
  assert (Hturn : forall af',
            exec o (attempt_body jobId d (d, "document.tex") af' 1
                      (MkVars (VString s) None None))
              (MkWorld f0 (S (clock w)))
            = MkRun (Returned (TurnSent (PdfSent jobId 1 false pdf)))
                (MkWorld (rm_tree d f1) (S (S (S (S (S (S (clock w))))))))
                [(WriteFile d "document.tex" (VString s), Ok EmptyString);
                 (Pdflatex d, Ok x);
                 (Access d "document.pdf", Ok EmptyString);
                 (ReadFile d "document.pdf", Ok pdf);
                 (Rm d, Ok EmptyString)]).
  { intros af'. unfold attempt_body, mbind, mret, prog_bind, prog_ret.
    rewrite exec_try_catch, exec_bind. cbn [currentLatex]. rewrite Hrun.
    unfold then_run, catch_run. cbn [outcome final trace].
    cbn [bind await].
    erewrite exec_Do by (unfold answer, faulty; cbn [fs clock]; rewrite Hf; reflexivity).
    cbn [exec extend outcome final trace clock app]. reflexivity. }
  assert (Hr : exec o (compile_handler jobId (MkRequest (VString s) af)) w =
               MkRun (Returned (PdfSent jobId 1 false pdf))
                 (MkWorld (rm_tree d f1) (S (S (S (S (S (S (clock w))))))))
                 [(Mkdir d, Ok EmptyString);
                  (WriteFile d "document.tex" (VString s), Ok EmptyString);
                  (Pdflatex d, Ok x);
                  (Access d "document.pdf", Ok EmptyString);
                  (ReadFile d "document.pdf", Ok pdf);
                  (Rm d, Ok EmptyString)]).
  { unfold compile_handler. cbv zeta. fold d.
    match goal with
    | |- context [attempts_loop _ _ _ _ ?a _ _] => set (af' := a)
    end.
    cbn [latex truthy].
    destruct (String.eqb_spec s EmptyString) as [?|_]; [done|]. cbn [negb].
    unfold mbind, mret, prog_bind, prog_ret.
    rewrite exec_try_catch. cbn [bind await]. rewrite Hmk. cbn [bind].
    rewrite exec_bind. unfold MAX_ATTEMPTS at 1.
    rewrite (attempts_loop_unfold 2) by (unfold MAX_ATTEMPTS; lia).
    rewrite exec_bind, Hturn.
    unfold then_run, catch_run, extend. cbn [outcome final trace exec app].
    reflexivity. }
  rewrite Hr. cbn [outcome final trace fs].
  split; [done|]. split; [done|]. split; [done|]. apply rm_tree_self.
Qed.

Lemma clean_compile_single_attempt_witness :
  let r := exec compiles_oracle
             (compile_handler "job" (sample_request VUndefined)) empty_world in
  outcome r = Returned (PdfSent "job" 1 false "%PDF") /\
  count is_pdflatex (trace r) = 1 /\
  count is_completion (trace r) = 0 /\
  fs (final r) !! temp_dir "job" = None.
Proof.
  apply (clean_compile_single_attempt compiles_oracle empty_world "job"
           "\documentclass{article}" EmptyString "%PDF" VUndefined).
  - discriminate.
  - reflexivity.
  - reflexivity.
  - reflexivity.
Defined.

End CleanCompile.

(** ** Fixing switched off *)

Section FixDisabled.

#[local] Arguments first_line : simpl never.

(** With fixing off, the loop leaves the suggestion as it was, and what
    it sends is the artifact. *)
Lemma attempts_loop_no_fix_vars (j d : string) (af : JsValue) :
  truthy af = false ->
  forall (n attempt : nat) (v : Vars),
  always (attempts_loop n j d (d, "document.tex") af attempt v)
    (fun o _ =>
       match o with
       | Returned (Sent r) => exists a f pdf, r = PdfSent j a f pdf
       | Returned (Fell v') => llmSuggestions v' = llmSuggestions v
       | Thrown _ => True
       end).
Proof.
  intros Haf. assert (Hs : forall a, stops af a = true).
  { intros a. unfold stops. by rewrite Haf. }
  destruct n as [|n]; intros attempt v; cbn [attempts_loop]; [done|].
  destruct (attempt <=? MAX_ATTEMPTS); [|done].
  unfold mbind, mret, prog_bind, prog_ret. apply always_bind.
  eapply always_mono; [|apply attempt_body_shape].
  intros [[r|v'|v']|e] t (tc & th & _ & _ & _ & Ho); cbn [always]; [| | |done].
  - destruct Ho as (_ & _ & pdf & ->). by eauto.
  - destruct Ho as [_ [(_ & _ & Hv)|(Hf & _)]]; [done|]. by rewrite Hs in Hf.
  - destruct Ho as (Hf & _). by rewrite Hs in Hf.
Qed.

Lemma compile_handler_no_fix_vars (j : string) (req : Request) :
  autoFix req <> VUndefined ->
  truthy (autoFix req) = false ->
  always (compile_handler j req)
    (fun o _ =>
       forall e d j' n s, o = Returned (CompileFailed e d j' n s) -> s = None).
Proof.
  intros Hdef Haf. unfold compile_handler.
  destruct (truthy (latex req)); [|by cbn].
  assert (Heq : match autoFix req with VUndefined => VBool true | a => a end
                = autoFix req) by (by destruct (autoFix req)).
  rewrite Heq. clear Heq.
  unfold mbind, mret, prog_bind, prog_ret.
  cbn [negb always bind try_catch await swallow].
  intros [x|x]; cbn [always bind try_catch]; [|done].
  apply always_try_catch, always_bind.
  eapply always_mono; [|by apply (attempts_loop_no_fix_vars j (temp_dir j))].
  intros [[r|v']|e] t Ho.
  - cbn [always]. destruct Ho as (a & f & pdf & ->). done.
  - cbn [always bind swallow]. intros a. cbn [llmSuggestions] in Ho.
    unfold error_response, mret, prog_ret.
    destruct (lastError v') as [le|]; [|by cbn].
    destruct (Js.includes "Details:" le);
      [destruct (Js.split "Details:" le !! 1)|]; cbn [always]; try done;
      by intros ? ? ? ? ? [= _ _ _ _ <-].
  - by cbn.
Qed.

End FixDisabled.

(** X14: with the fixing flag present and falsy ([false], [0], the
    empty string, [null]), the handler runs the compiler once at most and
    never calls the completion service; an artifact is sent with attempt
    number 1 and the fixed flag off, and a failure carries no
    suggestion. *)
Theorem fix_disabled_single_attempt (o : Oracle) (w : World) (jobId : string)
    (req : Request) :
  autoFix req <> VUndefined ->
  truthy (autoFix req) = false ->
  let r := exec o (compile_handler jobId req) w in
  count is_pdflatex (trace r) <= 1 /\
  count is_completion (trace r) = 0 /\
  match outcome r with
  | Returned (PdfSent _ a f _) => a = 1 /\ f = false
  | Returned (CompileFailed _ _ _ _ s) => s = None
  | _ => True
  end.
Proof.
  intros Hdef Haf r.
  destruct (always_exec o _ _ w (compile_handler_no_fix_paths jobId req Hdef Haf))
    as [Hp Hc].
  pose proof (always_exec o _ _ w (compile_handler_no_fix_vars jobId req Hdef Haf))
    as Hv.
  destruct (always_exec o _ _ w (compile_handler_shape jobId req)) as [_ Ho].
  fold r in Hp, Hc, Hv, Ho. split; [done|]. split; [done|].
  destruct (outcome r) as [[e|j a f pdf|e d j n s|e m j]|m]; try done.
  - destruct Ho as (_ & -> & Ha & Hcnt & _).
    assert (a = 1) as -> by lia. done.
  - by eapply Hv.
Qed.

Lemma fix_disabled_single_attempt_witness :
  let r := exec fails_oracle
             (compile_handler "job" (sample_request (VNumber true "0"))) empty_world in
  count is_pdflatex (trace r) <= 1 /\
  count is_completion (trace r) = 0 /\
  match outcome r with
  | Returned (PdfSent _ a f _) => a = 1 /\ f = false
  | Returned (CompileFailed _ _ _ _ s) => s = None
  | _ => True
  end.
Proof.
  apply (fix_disabled_single_attempt fails_oracle empty_world "job"
           (sample_request (VNumber true "0"))).
  - discriminate.
  - reflexivity.
Defined.

(** ** A source that fails to compile *)

Section FailedCompile.

#[local] Arguments interpret_log : simpl never.
#[local] Arguments error_text : simpl never.

Ltac run_goal Hf :=
  erewrite exec_Do
    by (unfold answer, faulty, file_of; cbn [fs clock];
        rewrite ?Hf, ?lookup_insert_eq; cbn [mbind option_bind];
        rewrite ?set_file_other, ?set_file_same, ?lookup_insert_eq by done;
        reflexivity);
  cbn [bind try_catch negb await settles_ok clock].

Ltac finish_run :=
  eexists _, _; split; [reflexivity|];
  cbn [fs final trace extend outcome]; rewrite lookup_insert_eq;
  split; [done|split; reflexivity].

(** The run of [compileLatex] when no file operation fails and the
    compiler fails, or leaves no artifact, and leaves a log. *)
Lemma compileLatex_failed_run (o : Oracle) (w : World) (d s log : string)
    (files : gmap string string) :
  (forall n, io_fault o n = None) ->
  fs w !! d = Some files ->
  (forall x, run_exit (pdflatex_run o (S (clock w)) (Some s)) = Ok x ->
             run_pdf (pdflatex_run o (S (clock w)) (Some s)) = None) ->
  run_log (pdflatex_run o (S (clock w)) (Some s)) = Some log ->
  exists w' tr,
    exec o (compileLatex d (d, "document.tex") (VString s)) w =
    MkRun (Thrown (failure_text (pdflatex_run o (S (clock w)) (Some s)) log)) w' tr /\
    fs w' !! d <> None /\
    count is_pdflatex tr = 1 /\ count is_completion tr = 0.
Proof.
  intros Hf Hd Hpdf Hlog. unfold failure_text.
  unfold compileLatex, extractLatexError, mbind, mret, prog_bind, prog_ret.
  cbn [bind try_catch await settles_ok fst snd].
  erewrite exec_Do by (unfold answer, faulty; rewrite Hf, Hd; reflexivity).
  cbn [bind try_catch negb].
  erewrite exec_Do
    by (unfold answer; cbn [fs clock]; rewrite !lookup_insert_eq; reflexivity).
  cbn [bind try_catch negb clock].
  set (run := pdflatex_run o (S (clock w)) (Some s)) in *.
  destruct (run_exit run) as [x|m] eqn:Hexit; cbn [bind try_catch].
  - rewrite (Hpdf x eq_refl). run_goal Hf. run_goal Hf. rewrite ?Hlog.
    cbn [bind try_catch].
    destruct (Js.includes "Details:" (error_text (interpret_log log))).
    + cbn [exec extend outcome final trace]. finish_run.
    + run_goal Hf. rewrite ?Hlog.
      cbn [bind try_catch exec extend outcome final trace].
      finish_run.
  - destruct (Js.includes "Details:" m).
    + cbn [exec extend outcome final trace]. finish_run.
    + run_goal Hf. rewrite ?Hlog.
      cbn [bind try_catch exec extend outcome final trace].
      finish_run.
Qed.

(** The failure response built from the text thrown for a log. *)
Lemma error_response_log (j : string) (src : JsValue) (sugg : option string)
    (log : string) :
  error_response j (MkVars src (Some (error_text (interpret_log log))) sugg) =
  Ret (CompileFailed (userFriendlyError (interpret_log log))
         (details_field (error_text (interpret_log log))) j MAX_ATTEMPTS sugg).
Proof.
  unfold error_response, details_field. cbn [lastError llmSuggestions].
  rewrite first_line_of_log_error.
  destruct (Js.includes "Details:" (error_text (interpret_log log))) eqn:Hinc.
  - by destruct (split_second "Details:" _ ltac:(done) Hinc) as [p ->].
  - done.
Qed.

(** The run of the handler when fixing is off and the compiler fails. *)
Lemma compile_handler_failed_run (o : Oracle) (w : World) (jobId s log : string)
    (af : JsValue) :
  s <> EmptyString ->
  af <> VUndefined ->
  truthy af = false ->
  (forall n, io_fault o n = None) ->
  (forall x, run_exit (pdflatex_run o (S (S (clock w))) (Some s)) = Ok x ->
             run_pdf (pdflatex_run o (S (S (clock w))) (Some s)) = None) ->
  (forall m, run_exit (pdflatex_run o (S (S (clock w))) (Some s)) = Err m ->
             Js.includes "Details:" m = false) ->
  run_log (pdflatex_run o (S (S (clock w))) (Some s)) = Some log ->
  exists w' tr,
    exec o (compile_handler jobId (MkRequest (VString s) af)) w =
    MkRun (Returned (CompileFailed (userFriendlyError (interpret_log log))
                       (details_field (error_text (interpret_log log)))
                       jobId MAX_ATTEMPTS None)) w' tr /\
    fs w' !! temp_dir jobId = None /\
    count is_pdflatex tr = 1 /\ count is_completion tr = 0.
Proof.
  intros Hs Hdef Haf Hf Hpdf Hmsg Hlog.
  set (d := temp_dir jobId).
  destruct (exec_mkdir o w d (Hf (clock w))) as (f0 & files & Hf0 & Hmk).
  destruct (compileLatex_failed_run o (MkWorld f0 (S (clock w))) d s log files
              Hf Hf0 Hpdf Hlog) as (w1 & tr & Hrun & Hw1 & Hcp & Hcc).
  assert (Htext : failure_text (pdflatex_run o (S (S (clock w))) (Some s)) log
                  = error_text (interpret_log log)).
  { unfold failure_text.
    destruct (run_exit _) as [x|m] eqn:E; [done|]. by rewrite (Hmsg m eq_refl). }
  cbn [clock] in Hrun. rewrite Htext in Hrun.
  pose proof (error_response_log jobId (VString s) None log) as Hresp.
  assert (Hturn : exec o (attempt_body jobId d (d, "document.tex") af 1
                            (MkVars (VString s) None None))
                    (MkWorld f0 (S (clock w)))
                  = MkRun (Returned (TurnBreak
                             (MkVars (VString s)
                                (Some (error_text (interpret_log log))) None)))
                      w1 tr).
  { unfold attempt_body, mbind, mret, prog_bind, prog_ret.
    rewrite exec_try_catch, exec_bind. cbn [currentLatex]. rewrite Hrun.
    unfold then_run, catch_run. cbn [outcome final trace].
    unfold on_compile_error. rewrite Haf.
    cbn [negb orb mret prog_ret exec currentLatex llmSuggestions
         outcome final trace].
    by rewrite app_nil_r. }
  exists (MkWorld (rm_tree d (fs w1)) (S (clock w1))),
    ((Mkdir d, Ok EmptyString) :: tr ++ [(Rm d, Ok EmptyString)]).
  split.
  - unfold compile_handler. cbv zeta. fold d.
    match goal with
    | |- context [attempts_loop _ _ _ _ ?a _ _] =>
        replace a with af by (cbn [autoFix]; by destruct af)
    end.
    cbn [latex truthy].
    destruct (String.eqb_spec s EmptyString) as [?|_]; [done|]. cbn [negb].
    unfold mbind, mret, prog_bind, prog_ret.
    rewrite exec_try_catch. cbn [bind await]. rewrite Hmk. cbn [bind].
    rewrite exec_bind. unfold MAX_ATTEMPTS at 1.
    rewrite (attempts_loop_unfold 2) by (unfold MAX_ATTEMPTS; lia).
    rewrite exec_bind, Hturn.
    unfold then_run at 2. cbn [outcome final trace exec].
    unfold then_run. cbn [outcome final trace bind swallow].
    erewrite exec_Do by (unfold answer, faulty; rewrite Hf; reflexivity).
    rewrite Hresp.
    unfold catch_run, extend. cbn [outcome final trace exec app].
    by rewrite !app_nil_r.
  - cbn [fs]. split; [apply rm_tree_self|].
    cbn [count fst is_pdflatex is_completion].
    rewrite !count_app, Hcp, Hcc. done.
Qed.

End FailedCompile.

(** X15: when no file operation fails and the compiler ran and failed
    (it did not exit with status zero, or it left no artifact) and left a
    log, [compileLatex] throws the classified message of that log followed
    by the excerpt; only a process message that itself holds [Details:]
    is thrown as it is, the log unread. *)
Theorem compile_failure_message (o : Oracle) (w : World) (d s log : string)
    (files : gmap string string) :
  (forall n, io_fault o n = None) ->
  fs w !! d = Some files ->
  (forall x, run_exit (pdflatex_run o (S (clock w)) (Some s)) = Ok x ->
             run_pdf (pdflatex_run o (S (clock w)) (Some s)) = None) ->
  run_log (pdflatex_run o (S (clock w)) (Some s)) = Some log ->
  outcome (exec o (compileLatex d (d, "document.tex") (VString s)) w) =
  Thrown
    match run_exit (pdflatex_run o (S (clock w)) (Some s)) with
    | Err m =>
        if Js.includes "Details:" m then m else error_text (interpret_log log)
    | Ok _ => error_text (interpret_log log)
    end.
Proof.
  intros Hf Hd Hpdf Hlog.
  destruct (compileLatex_failed_run o w d s log files Hf Hd Hpdf Hlog)
    as (w' & tr & -> & _).
  done.
Qed.

Lemma compile_failure_message_witness :
  outcome (exec fails_oracle
             (compileLatex sample_dir (sample_dir, "document.tex")
                (VString "\documentclass{article}")) sample_world)
  = Thrown (error_text (interpret_log log_undefined)).
Proof.
  apply (compile_failure_message fails_oracle sample_world sample_dir
           "\documentclass{article}" log_undefined ∅).
  - reflexivity.
  - reflexivity.
  - discriminate.
  - reflexivity.
Defined.

(** X16: with fixing off, a source on which the compiler fails and
    leaves a log is answered with the failure response whose [error] field
    is the classified message of that log, after one run of the compiler
    and no call to the completion service, and with the working directory
    removed. *)
Theorem failure_reports_classified_message (o : Oracle) (w : World)
    (jobId s log : string) (af : JsValue) :
  s <> EmptyString ->
  af <> VUndefined ->
  truthy af = false ->
  (forall n, io_fault o n = None) ->
  (forall x, run_exit (pdflatex_run o (S (S (clock w))) (Some s)) = Ok x ->
             run_pdf (pdflatex_run o (S (S (clock w))) (Some s)) = None) ->
  (forall m, run_exit (pdflatex_run o (S (S (clock w))) (Some s)) = Err m ->
             Js.includes "Details:" m = false) ->
  run_log (pdflatex_run o (S (S (clock w))) (Some s)) = Some log ->
  let r := exec o (compile_handler jobId (MkRequest (VString s) af)) w in
  (exists details n,
     outcome r = Returned (CompileFailed (userFriendlyError (interpret_log log))
                             details jobId n None)) /\
  count is_pdflatex (trace r) = 1 /\
  count is_completion (trace r) = 0 /\
  fs (final r) !! temp_dir jobId = None.
Proof.
  intros Hs Hdef Haf Hf Hpdf Hmsg Hlog r.
  destruct (compile_handler_failed_run o w jobId s log af
              Hs Hdef Haf Hf Hpdf Hmsg Hlog)
    as (w' & tr & Hr & Hgone & Hcp & Hcc).
  subst r. rewrite Hr. cbn [outcome final trace].
  split; [by eauto|]. done.
Qed.

Lemma failure_reports_classified_message_witness :
  let r := exec fails_oracle
             (compile_handler "job" (sample_request (VBool false))) empty_world in
  (exists details n,
     outcome r = Returned (CompileFailed MSG_UNDEFINED details "job" n None)) /\
  count is_pdflatex (trace r) = 1 /\
  count is_completion (trace r) = 0 /\
  fs (final r) !! temp_dir "job" = None.
Proof.
  apply (failure_reports_classified_message fails_oracle empty_world "job"
           "\documentclass{article}" log_undefined (VBool false)).
  - discriminate.
  - discriminate.
  - reflexivity.
  - reflexivity.
  - discriminate.
  - intros m [= <-]. reflexivity.
  - reflexivity.
Defined.

(** ** [src/server.js]: the handler that compiles once *)

Section SingleHandler.

#[local] Arguments Single.interpret_log : simpl never.
#[local] Arguments error_text : simpl never.
#[local] Arguments Single.additional_info : simpl never.
#[local] Arguments first_line : simpl never.
#[local] Arguments Js.includes : simpl never.
#[local] Arguments Js.split : simpl never.
#[local] Arguments Js.trim : simpl never.
#[local] Arguments Single.substring_to : simpl never.
#[local] Arguments temp_dir : simpl never.

(** The outer catch block removes the directory and replies; reading
    the details never fails. *)
Lemma failure_reply_paths (j m : string) :
  always (Single.failure_reply j (temp_dir j) m)
    (fun o t =>
       exists e d s a,
         o = Returned (Single.Failure e d s j) /\ t = [(Rm (temp_dir j), a)]).
Proof.
  unfold Single.failure_reply. cbn [mbind prog_bind bind swallow always].
  intros a.
  destruct (Js.includes "Details:" m) eqn:Hinc.
  - destruct (split_second "Details:" m ltac:(done) Hinc) as [p ->].
    cbn. by eexists _, _, _, _.
  - cbn. by eexists _, _, _, _.
Qed.

Lemma single_handler_paths (stderr_of : string -> string) (j : string)
    (req : Request) :
  always (Single.compile_handler stderr_of j req) (Single.reply_post j).
Proof.
  unfold Single.compile_handler. cbv zeta.
  destruct (truthy (latex req)); cbn [negb].
  2: { unfold mret, prog_ret. cbn [try_catch always].
       unfold Single.reply_post. cbn [count]. split; [lia|done]. }
  apply always_try_catch.
  assert (Hfail : forall m t0,
            count is_pdflatex t0 <= 1 -> count is_completion t0 = 0 ->
            always (Single.failure_reply j (temp_dir j) m)
              (fun o2 t2 => Single.reply_post j o2 (t0 ++ t2))).
  { intros m t0 Hp Hc. eapply always_mono; [|apply failure_reply_paths].
    intros o t (e & d & s & a & -> & ->). unfold Single.reply_post.
    rewrite !count_app. cbn [count fst is_pdflatex is_completion].
    split; [lia|]. split; [lia|]. split; [done|].
    apply last_is_rm_snoc. }
  assert (Hfail' : forall m t0,
            count is_pdflatex t0 <= 1 -> count is_completion t0 = 0 ->
            always (Throw m)
              (fun o t1 =>
                 match o with
                 | Returned a => Single.reply_post j (Returned a) (t0 ++ t1)
                 | Thrown m =>
                     always (Single.failure_reply j (temp_dir j) m)
                       (fun o2 t2 => Single.reply_post j o2 ((t0 ++ t1) ++ t2))
                 end)).
  { intros m t0 Hp Hc. cbn [always]. rewrite app_nil_r. by apply Hfail. }
  unfold mbind, mret, prog_bind, prog_ret, Single.on_compile_error.
  cbn [bind await try_catch always settles_ok].
  intros [x0|m0]; cbn [bind try_catch];
    [|apply (Hfail' m0 [_]); cbn [count fst is_pdflatex is_completion]; lia].
  cbn [always].
  intros [x1|m1]; cbn [bind try_catch];
    [|apply (Hfail' m1 [_; _]); cbn [count fst is_pdflatex is_completion]; lia].
  cbn [always].
  intros [x2|m2]; cbn [bind try_catch always].
  - intros [x3|m3]; cbn [bind try_catch negb].
    + cbn [always].
      intros [x4|m4]; cbn [bind try_catch];
        [|apply (Hfail' m4 [_; _; _; _; _]);
          cbn [count fst is_pdflatex is_completion]; lia].
      cbn [always].
      intros [x5|m5]; cbn [bind try_catch];
        [|apply (Hfail' m5 [_; _; _; _; _; _]);
          cbn [count fst is_pdflatex is_completion]; lia].
      cbn [always].
      unfold Single.reply_post. cbn [count fst is_pdflatex is_completion].
      split; [lia|]. split; [lia|]. split; [done|]. by exists x5.
    + cbn [always]. intros a4. cbn [bind try_catch].
      apply (Hfail' _ [_; _; _; _; _]);
        cbn [count fst is_pdflatex is_completion]; lia.
  - intros [x3|m3]; cbn [bind try_catch];
      apply (Hfail' _ [_; _; _; _]);
      cbn [count fst is_pdflatex is_completion]; lia.
Qed.

End SingleHandler.

(** X17: the handler of [server.js] always sends a reply, whatever the
    file system and the compiler do (in particular, reading the details
    out of the message never fails); it runs the compiler once at most and
    never calls the completion service. *)
Theorem single_handler_replies (stderr_of : string -> string) (o : Oracle)
    (w : World) (jobId : string) (req : Request) :
  let r := exec o (Single.compile_handler stderr_of jobId req) w in
  (exists reply, outcome r = Returned reply) /\
  count is_pdflatex (trace r) <= 1 /\
  count is_completion (trace r) = 0.
Proof.
  intros r.
  pose proof (always_exec o _ _ w (single_handler_paths stderr_of jobId req))
    as (Hp & Hc & Ho).
  fold r in Hp, Hc, Ho. split; [|done].
  destruct (outcome r) as [reply|m]; [by exists reply|done].
Qed.

(** X18: once the source is there, the handler of [server.js] ends
    with the removal of the working directory, whatever reply it sends;
    when it sends the artifact, the directory is gone. *)
Theorem single_handler_cleanup (stderr_of : string -> string) (o : Oracle)
    (w : World) (jobId : string) (req : Request) :
  truthy (latex req) = true ->
  let r := exec o (Single.compile_handler stderr_of jobId req) w in
  last_is_rm (temp_dir jobId) (trace r) /\
  (forall j pdf, outcome r = Returned (Single.Attachment j pdf) ->
                 j = jobId /\ fs (final r) !! temp_dir jobId = None).
Proof.
  intros Ht r.
  pose proof (always_exec o _ _ w (single_handler_paths stderr_of jobId req))
    as (Hp & Hc & Ho).
  fold r in Hp, Hc, Ho.
  assert (Hne : trace r <> []).
  { subst r. unfold Single.compile_handler. cbv zeta. rewrite Ht.
    cbn [negb mbind prog_bind bind await try_catch exec].
    destruct (step o w (Mkdir (temp_dir jobId))). done. }
  destruct (outcome r) as [[e|j' pdf|e d s j']|m] eqn:Hout; [done| | |done].
  - destruct Ho as [-> Hok]. split; [by apply last_rm_ok_is_rm|].
    intros j pdf' [= -> ->]. split; [done|].
    by apply exec_last_rm_ok.
  - destruct Ho as [-> Hrm]. split; [done|]. by intros j pdf [=].
Qed.

Lemma single_handler_cleanup_witness :
  let r := exec compiles_oracle
             (Single.compile_handler silent "job" (sample_request VUndefined))
             empty_world in
  last_is_rm (temp_dir "job") (trace r) /\
  (forall j pdf, outcome r = Returned (Single.Attachment j pdf) ->
                 j = "job" /\ fs (final r) !! temp_dir "job" = None).
Proof.
  apply (single_handler_cleanup silent compiles_oracle empty_world "job"
           (sample_request VUndefined)).
  reflexivity.
Defined.

(** ** [src/server.js]: what a failed compile is answered with *)

Section SingleRuns.

#[local] Arguments interpret_log : simpl never.
#[local] Arguments Single.interpret_log : simpl never.
#[local] Arguments error_text : simpl never.
#[local] Arguments Single.additional_info : simpl never.
#[local] Arguments first_line : simpl never.
#[local] Arguments details_field : simpl never.

(** With a marked line in the log, or a process message that does not
    say the compiler is missing, the inline interpreter is
    [extractLatexError]'s. *)
Lemma single_interpret_log (m log : string) :
  is_Some (List.find (Js.startsWith "!") (Js.split NL log)) \/
  Js.includes "pdflatex: command not found" m = false ->
  Single.interpret_log m log = interpret_log log.
Proof.
  intros H. unfold Single.interpret_log, interpret_log. cbv zeta.
  destruct (errorFound _) eqn:Hfound; cbn [negb]; [done|].
  destruct H as [[line Hl]|Hm]; [|by rewrite Hm].
  pose proof (scan_lines_find (Js.split NL log) (length (Js.split NL log)) 0) as Hs.
  rewrite drop_0, Hl in Hs. destruct Hs as [Hs _]; [lia|]. congruence.
Qed.

Lemma includes_missing_file (line rest : string) :
  Js.includes "Missing" (missing_file_message line +:+ rest) = true.
Proof. apply includes_of_startsWith. reflexivity. Qed.

(** The run of the handler of [server.js] when no file operation fails
    and the compiler fails and leaves a log. *)
Lemma single_failed_run (stderr_of : string -> string) (o : Oracle) (w : World)
    (jobId s log m : string) (af : JsValue) :
  s <> EmptyString ->
  (forall n, io_fault o n = None) ->
  run_exit (pdflatex_run o (S (S (clock w))) (Some s)) = Err m ->
  run_log (pdflatex_run o (S (S (clock w))) (Some s)) = Some log ->
  let text := error_text (Single.interpret_log m log) in
  exists w' tr,
    exec o (Single.compile_handler stderr_of jobId (MkRequest (VString s) af)) w =
    MkRun (Returned (Single.Failure (first_line text) (details_field text)
                       (if String.eqb (Single.additional_info text) EmptyString
                        then None else Some (Single.additional_info text))
                       jobId)) w' tr /\
    fs w' !! temp_dir jobId = None.
Proof.
  intros Hs Hf Hexit Hlog text.
  set (d := temp_dir jobId).
  destruct (exec_mkdir o w d (Hf (clock w))) as (f0 & files & Hf0 & Hmk).
  unfold Single.compile_handler. cbv zeta. fold d. cbn [latex truthy].
  destruct (String.eqb_spec s EmptyString) as [?|_]; [done|]. cbn [negb].
  unfold mbind, mret, prog_bind, prog_ret, Single.on_compile_error,
    Single.failure_reply.
  unfold mbind, mret, prog_bind, prog_ret.
  cbn [bind try_catch await settles_ok swallow]. rewrite Hmk.
  cbn [bind try_catch].
  erewrite exec_Do
    by (unfold answer, faulty; cbn [fs clock]; rewrite Hf, Hf0; reflexivity).
  cbn [bind try_catch].
  erewrite exec_Do
    by (unfold answer; cbn [fs clock]; rewrite !lookup_insert_eq; reflexivity).
  rewrite Hexit, Hlog. cbn [bind try_catch run_pdf].
  erewrite exec_Do
    by (unfold answer, faulty, file_of; cbn [fs clock];
        rewrite Hf, lookup_insert_eq; cbn [mbind option_bind];
        rewrite set_file_same; reflexivity).
  cbn [bind try_catch]. fold text.
  erewrite exec_Do by (unfold answer, faulty; rewrite Hf; reflexivity).
  unfold details_field.
  destruct (Js.includes "Details:" text) eqn:Hinc.
  - destruct (split_second "Details:" text ltac:(done) Hinc) as [p ->].
    cbn [exec extend outcome final trace fs].
    eexists _, _. split; [reflexivity|]. apply rm_tree_self.
  - cbn [exec extend outcome final trace fs].
    eexists _, _. split; [reflexivity|]. apply rm_tree_self.
Qed.

End SingleRuns.

(** X19: in [server.js], a failure on a missing file or package (the
    first marked line of the log holds [File] and [not found]) is never
    answered with the suggestion about missing packages: the message built
    for it starts with [Missing], so the chain stops one branch earlier,
    at the suggestion about brackets and delimiters, unless the text
    mentions [pdflatex] or an undefined control sequence. *)
Theorem missing_file_suggestion (m log : string) (before after : list string)
    (line : string) :
  Js.split NL log = before ++ line :: after ->
  Forall (fun l => Js.startsWith "!" l = false) before ->
  Js.startsWith "!" line = true ->
  Js.includes "Undefined control sequence" line = false ->
  Js.includes "File" line = true ->
  Js.includes "not found" line = true ->
  let text := error_text (Single.interpret_log m log) in
  Single.additional_info text <> Single.INFO_FILE /\
  (Js.includes "pdflatex" text = false ->
   Js.includes "undefined control sequence" text = false ->
   Js.includes "Undefined control" text = false ->
   Single.additional_info text = Single.INFO_MISSING).
Proof.
  intros Hsplit Hb Hl Hu Hfile Hnf text.
  assert (Hfind : List.find (Js.startsWith "!") (Js.split NL log) = Some line)
    by (rewrite Hsplit; by apply find_marked_after).
  assert (Hm : Js.includes "Missing" text = true).
  { subst text. rewrite single_interpret_log by (left; by rewrite Hfind).
    unfold error_text. rewrite (interpret_log_marked _ _ Hfind).
    unfold classify_line. rewrite Hu, Hfile, Hnf. cbn [andb].
    apply includes_missing_file. }
  unfold Single.additional_info. rewrite Hm. cbn [orb].
  split.
  - destruct (Js.includes "pdflatex" text); [done|].
    by destruct (Js.includes "undefined control sequence" text
                 || Js.includes "Undefined control" text).
  - by intros -> -> ->.
Qed.

Lemma missing_file_suggestion_witness :
  Single.additional_info
    (error_text (Single.interpret_log "Command failed: exit code 1" log_missing_file))
  = Single.INFO_MISSING.
Proof.
  apply (missing_file_suggestion "Command failed: exit code 1" log_missing_file
           ["(./document.tex"] ["Type X to quit or <RETURN> to proceed,"]
           "! LaTeX Error: File `tikzz.sty' not found.").
  - reflexivity.
  - by repeat constructor.
  - reflexivity.
  - reflexivity.
  - reflexivity.
  - reflexivity.
  - reflexivity.
  - reflexivity.
  - reflexivity.
Defined.

(** X20: the two handlers agree on a failed compile.  When no file
    operation fails and the compiler fails with a message that neither
    holds [Details:] nor says that the compiler is missing, and leaves a
    log, the handler of [server.js] and the handler with fixing, fixing
    turned off, answer with the same [error] and the same [details], both
    under the identifier of the job. *)
Theorem handlers_agree_on_failure (stderr_of : string -> string) (o : Oracle)
    (w : World) (jobId s log m : string) (af : JsValue) :
  s <> EmptyString ->
  af <> VUndefined ->
  truthy af = false ->
  (forall n, io_fault o n = None) ->
  run_exit (pdflatex_run o (S (S (clock w))) (Some s)) = Err m ->
  Js.includes "Details:" m = false ->
  Js.includes "pdflatex: command not found" m = false ->
  run_log (pdflatex_run o (S (S (clock w))) (Some s)) = Some log ->
  let req := MkRequest (VString s) af in
  exists e d sugg n,
    outcome (exec o (Single.compile_handler stderr_of jobId req) w) =
      Returned (Single.Failure e d sugg jobId) /\
    outcome (exec o (compile_handler jobId req) w) =
      Returned (CompileFailed e d jobId n None) /\
    e = userFriendlyError (interpret_log log).
Proof.
  intros Hs Hdef Haf Hf Hexit Hd Hnf Hlog req.
  destruct (single_failed_run stderr_of o w jobId s log m af Hs Hf Hexit Hlog)
    as (w1 & t1 & Hr1 & _).
  destruct (compile_handler_failed_run o w jobId s log af Hs Hdef Haf Hf)
    as (w2 & t2 & Hr2 & _).
  { intros x Hx. congruence. }
  { intros m' Hm'. congruence. }
  { done. }
  subst req. rewrite Hr1, Hr2. cbn [outcome].
  rewrite (single_interpret_log m log) by (by right).
  rewrite first_line_of_log_error.
  by eexists _, _, _, _.
Qed.

Lemma handlers_agree_on_failure_witness :
  exists e d sugg n,
    outcome (exec missing_file_oracle
               (Single.compile_handler silent "job" (sample_request (VBool false)))
               empty_world) =
      Returned (Single.Failure e d sugg "job") /\
    outcome (exec missing_file_oracle
               (compile_handler "job" (sample_request (VBool false))) empty_world) =
      Returned (CompileFailed e d "job" n None) /\
    e = userFriendlyError (interpret_log log_missing_file).
Proof.
  apply (handlers_agree_on_failure silent missing_file_oracle empty_world "job"
           "\documentclass{article}" log_missing_file
           "Command failed: exit code 1" (VBool false)).
  - discriminate.
  - discriminate.
  - reflexivity.
  - reflexivity.
  - reflexivity.
  - reflexivity.
  - reflexivity.
  - reflexivity.
Defined.

(** ** What the fix requester is given *)

Section FixRequest.

#[local] Arguments interpret_log : simpl never.
#[local] Arguments error_text : simpl never.
#[local] Arguments fix_request : simpl never.
#[local] Arguments clean_response : simpl never.

Lemma first_completion_skip (t1 t2 : list (Call * Answer)) :
  count is_completion t1 = 0 ->
  first_completion (t1 ++ t2) = first_completion t2.
Proof.
  induction t1 as [|[c a] t1 IH]; [done|]. cbn [count fst app first_completion].
  destruct c; cbn [is_completion]; try (intros H; by apply IH). lia.
Qed.

Lemma first_completion_app (t1 t2 : list (Call * Answer)) (q : CompletionRequest) :
  first_completion t1 = Some q -> first_completion (t1 ++ t2) = Some q.
Proof.
  induction t1 as [|[c a] t1 IH]; [done|]. cbn [app first_completion].
  by destruct c.
Qed.

Lemma first_completion_then {A B} (r : Run A) (k : A -> World -> Run B)
    (q : CompletionRequest) :
  first_completion (trace r) = Some q ->
  first_completion (trace (then_run r k)) = Some q.
Proof.
  intros H. unfold then_run. destruct (outcome r); cbn [trace]; [|done].
  by apply first_completion_app.
Qed.

Lemma first_completion_catch {A} (r : Run A) (h : string -> World -> Run A)
    (q : CompletionRequest) :
  first_completion (trace r) = Some q ->
  first_completion (trace (catch_run r h)) = Some q.
Proof.
  intros H. unfold catch_run. destruct (outcome r); cbn [trace]; [done|].
  by apply first_completion_app.
Qed.

(** The first call of the catch block, when it asks for a fix. *)
Lemma on_compile_error_first (o : Oracle) (w : World) (af : JsValue)
    (s message : string) (le sg : option string) :
  truthy af = true ->
  first_completion
    (trace (exec o (on_compile_error af 1 (MkVars (VString s) le sg) message) w))
  = Some (fix_request s message).
Proof.
  intros Haf. unfold on_compile_error, fixLatexErrors. rewrite Haf.
  cbn [negb orb Nat.eqb MAX_ATTEMPTS currentLatex to_template].
  unfold mbind, mret, prog_bind, prog_ret.
  cbn [bind try_catch await exec].
  destruct (step o w (MessagesCreate (fix_request s message))) as [a w1].
  done.
Qed.

End FixRequest.

(** X21: with fixing on (the flag absent or truthy), when no file
    operation fails and the first run of the compiler fails and leaves a
    log, the first request to the completion service carries the source
    that was compiled and, as the error, the whole text thrown for the
    log: the classified message and, after it, the excerpt. *)
Theorem fix_request_carries_error (o : Oracle) (w : World)
    (jobId s log : string) (af : JsValue) :
  s <> EmptyString ->
  af = VUndefined \/ truthy af = true ->
  (forall n, io_fault o n = None) ->
  (forall x, run_exit (pdflatex_run o (S (S (clock w))) (Some s)) = Ok x ->
             run_pdf (pdflatex_run o (S (S (clock w))) (Some s)) = None) ->
  (forall m, run_exit (pdflatex_run o (S (S (clock w))) (Some s)) = Err m ->
             Js.includes "Details:" m = false) ->
  run_log (pdflatex_run o (S (S (clock w))) (Some s)) = Some log ->
  first_completion
    (trace (exec o (compile_handler jobId (MkRequest (VString s) af)) w))
  = Some (fix_request s (error_text (interpret_log log))).
Proof.
  intros Hs Haf Hf Hpdf Hmsg Hlog.
  set (d := temp_dir jobId).
  destruct (exec_mkdir o w d (Hf (clock w))) as (f0 & files & Hf0 & Hmk).
  destruct (compileLatex_failed_run o (MkWorld f0 (S (clock w))) d s log files
              Hf Hf0 Hpdf Hlog) as (w1 & tr & Hrun & _ & _ & Hcc).
  assert (Htext : failure_text (pdflatex_run o (S (S (clock w))) (Some s)) log
                  = error_text (interpret_log log)).
  { unfold failure_text.
    destruct (run_exit _) as [x|m] eqn:E; [done|]. by rewrite (Hmsg m eq_refl). }
  cbn [clock] in Hrun. rewrite Htext in Hrun.
  unfold compile_handler. cbv zeta. fold d.
  match goal with
  | |- context [attempts_loop _ _ _ _ ?a _ _] => set (af' := a)
  end.
  assert (Haf' : truthy af' = true).
  { subst af'. cbn [autoFix]. destruct Haf as [->|Ht]; [done|]. by destruct af. }
  cbn [latex truthy].
  destruct (String.eqb_spec s EmptyString) as [?|_]; [done|]. cbn [negb].
  unfold mbind, mret, prog_bind, prog_ret.
  rewrite exec_try_catch. apply first_completion_catch.
  cbn [bind await]. rewrite Hmk. cbn [bind extend trace first_completion].
  rewrite exec_bind. apply first_completion_then.
  unfold MAX_ATTEMPTS at 1.
  rewrite (attempts_loop_unfold 2) by (unfold MAX_ATTEMPTS; lia).
  rewrite exec_bind. apply first_completion_then.
  unfold attempt_body, mbind, mret, prog_bind, prog_ret.
  rewrite exec_try_catch, exec_bind. cbn [currentLatex]. rewrite Hrun.
  unfold then_run, catch_run. cbn [outcome final trace].
  rewrite first_completion_skip by done.
  by apply on_compile_error_first.
Qed.

Lemma fix_request_carries_error_witness :
  first_completion
    (trace (exec fails_oracle
              (compile_handler "job" (sample_request VUndefined)) empty_world))
  = Some (fix_request "\documentclass{article}"
            (error_text (interpret_log log_undefined))).
Proof.
  apply (fix_request_carries_error fails_oracle empty_world "job"
           "\documentclass{article}" log_undefined VUndefined).
  - discriminate.
  - by left.
  - reflexivity.
  - discriminate.
  - intros m [= <-]. reflexivity.
  - reflexivity.
Defined.

(** X22: when the compiler fails and its log cannot be read, the
    compiler invoker does not fail on the reading: it throws the fixed
    sentence that the document failed to compile, with the message of the
    failed reading as the details. *)
Theorem unreadable_log_message (o : Oracle) (w : World) (d s m cause : string)
    (files : gmap string string) :
  io_fault o (clock w) = None ->
  fs w !! d = Some files ->
  run_exit (pdflatex_run o (S (clock w)) (Some s)) = Err m ->
  Js.includes "Details:" m = false ->
  io_fault o (S (S (clock w))) = Some cause ->
  cause <> EmptyString ->
  let r := exec o (compileLatex d (d, "document.tex") (VString s)) w in
  outcome r =
    Thrown ("Failed to compile LaTeX document." +:+ NL +:+ NL +:+
            "Details: " +:+ cause) /\
  length (trace r) = 3.
Proof.
  intros Hw Hd Hexit Hdet Hread Hcause r. subst r.
  unfold compileLatex, extractLatexError, mbind, mret, prog_bind, prog_ret.
  cbn [bind try_catch await settles_ok fst snd].
  erewrite exec_Do by (unfold answer, faulty; rewrite Hw, Hd; reflexivity).
  cbn [bind try_catch negb].
  erewrite exec_Do
    by (unfold answer; cbn [fs clock]; rewrite !lookup_insert_eq; reflexivity).
  rewrite Hexit. cbn [bind try_catch]. rewrite Hdet. cbn [bind try_catch].
  erewrite exec_Do
    by (unfold answer, faulty; cbn [fs clock]; rewrite Hread; reflexivity).
  cbn [bind try_catch exec extend outcome trace length].
  split; [|done]. unfold error_text. cbn [userFriendlyError errorDetails].
  destruct (String.eqb_spec cause EmptyString) as [?|_]; [done|]. done.
Qed.

Lemma unreadable_log_message_witness :
  let r := exec unreadable_oracle
             (compileLatex sample_dir (sample_dir, "document.tex")
                (VString "\documentclass{article}")) sample_world in
  outcome r =
    Thrown ("Failed to compile LaTeX document." +:+ NL +:+ NL +:+
            "Details: " +:+ "EACCES: permission denied") /\
  length (trace r) = 3.
Proof.
  apply (unreadable_log_message unreadable_oracle sample_world sample_dir
           "\documentclass{article}" "Command failed: pdflatex"
           "EACCES: permission denied" ∅).
  - reflexivity.
  - reflexivity.
  - reflexivity.
  - reflexivity.
  - reflexivity.
  - discriminate.
Defined.

(** ** The suggestion of the failure response *)

Section Suggestions.

#[local] Arguments interpret_log : simpl never.
#[local] Arguments clean_response : simpl never.
#[local] Arguments error_text : simpl never.
#[local] Arguments fix_request : simpl never.
#[local] Arguments first_line : simpl never.

Lemma always_and {A} (p : Prog A) :
  forall R1 R2 : Outcome A -> list (Call * Answer) -> Prop,
  always p R1 -> always p R2 -> always p (fun o t => R1 o t /\ R2 o t).
Proof.
  induction p as [a|m|c k IH]; intros R1 R2 H1 H2; cbn [always] in *;
    [done|done|].
  intros x. apply (IH x _ _ (H1 x) (H2 x)).
Qed.

(** The catch block of the loop body: a fix leaves a suggestion, and so
    does a fix that failed. *)
Lemma on_compile_error_suggests (af : JsValue) (attempt : nat) (v : Vars)
    (m : string) :
  always (on_compile_error af attempt v m)
    (fun o t =>
       match o with
       | Returned (TurnBreak v') => keeps_no_suggestion v v' t
       | Returned (TurnNext v') => is_Some (llmSuggestions v')
       | _ => True
       end).
Proof.
  unfold on_compile_error.
  destruct (negb (truthy af) || (attempt =? MAX_ATTEMPTS)).
  - cbn [mret prog_ret always]. unfold keeps_no_suggestion.
    cbn [llmSuggestions count]. done.
  - unfold mbind, mret, prog_bind, prog_ret.
    apply always_try_catch, always_bind.
    eapply always_mono; [|apply fixLatexErrors_paths].
    intros [fixed|e] t _; cbn [always]; [by eexists|].
    unfold keeps_no_suggestion. cbn [llmSuggestions]. done.
Qed.

Lemma attempt_body_suggests (j d : string) (tf : string * string)
    (af : JsValue) (attempt : nat) (v : Vars) :
  always (attempt_body j d tf af attempt v)
    (fun o t =>
       match o with
       | Returned (TurnBreak v') => keeps_no_suggestion v v' t
       | Returned (TurnNext v') => is_Some (llmSuggestions v')
       | _ => True
       end).
Proof.
  unfold attempt_body. unfold mbind, mret, prog_bind, prog_ret.
  apply always_try_catch, always_bind.
  eapply always_mono; [|apply compileLatex_paths].
  assert (Hcatch : forall (m : string) (t1 : list (Call * Answer)),
    count is_completion t1 = 0 ->
    always (on_compile_error af attempt v m)
      (fun o2 t2 =>
         match o2 with
         | Returned (TurnBreak v') => keeps_no_suggestion v v' (t1 ++ t2)
         | Returned (TurnNext v') => is_Some (llmSuggestions v')
         | _ => True
         end)).
  { intros m t1 Hc.
    eapply always_mono; [|apply on_compile_error_suggests].
    intros [[r|v'|v']|e] t2 Ho; [done| |done|done].
    intros Hnone. destruct (Ho Hnone) as [Hv Ht2].
    split; [done|]. rewrite count_app. lia. }
  intros [pdf|m] t1 [_ Hc].
  - cbn [always bind try_catch await]. intros [x|x]; cbn [always bind try_catch].
    + done.
    + eapply always_mono; [|apply (Hcatch x (t1 ++ [(Rm d, Err x)]))].
      * intros o t. by rewrite <- !app_assoc.
      * rewrite count_app. cbn. lia.
  - eapply always_mono; [|apply (Hcatch m t1 Hc)]. done.
Qed.

Lemma attempts_loop_suggests (j d : string) (tf : string * string) (af : JsValue) :
  forall (n attempt : nat) (v : Vars),
  always (attempts_loop n j d tf af attempt v)
    (fun o t =>
       match o with
       | Returned (Fell v') => keeps_no_suggestion v v' t
       | _ => True
       end).
Proof.
  induction n as [|n IH]; intros attempt v; cbn [attempts_loop].
  - cbn [mret prog_ret always]. unfold keeps_no_suggestion. cbn [count]. done.
  - destruct (attempt <=? MAX_ATTEMPTS);
      [|cbn [mret prog_ret always]; unfold keeps_no_suggestion; cbn [count]; done].
    unfold mbind, mret, prog_bind, prog_ret. apply always_bind.
    eapply always_mono; [|apply attempt_body_suggests].
    intros [[r|v1|v1]|e] t Ho; [done| | |done].
    + cbn [always]. by rewrite app_nil_r.
    + eapply always_mono; [|apply (IH (S attempt) v1)].
      intros [[r|v']|e] t2 Ho2; [done| |done].
      intros Hnone. destruct (Ho2 Hnone) as [Hv1 _].
      rewrite Hv1 in Ho. by destruct Ho.
Qed.

Lemma compile_handler_suggests (j : string) (req : Request) :
  always (compile_handler j req) plain_failure_post.
Proof.
  unfold compile_handler.
  destruct (truthy (latex req)); [|by cbn].
  unfold mbind, mret, prog_bind, prog_ret.
  cbn [negb always bind try_catch await swallow].
  intros [x|x]; cbn [always bind try_catch]; [|done].
  apply always_try_catch, always_bind.
  eapply always_mono;
    [|apply always_and;
      [apply (attempts_loop_suggests j (temp_dir j))
      |apply (attempts_loop_paths j (temp_dir j))]].
  intros [[r|v']|e] t [Hs (_ & _ & Ho)]; [| |done].
  - cbn [always]. destruct Ho as [(a & pdf & -> & _) _]. done.
  - cbn [always bind swallow]. intros a. unfold error_response.
    destruct (lastError v') as [le|]; [|cbn; done].
    assert (Hfail : forall e dd n,
              plain_failure_post
                (Returned (CompileFailed e dd j n (llmSuggestions v')))
                ((Mkdir (temp_dir j), Ok x) :: t ++ [(Rm (temp_dir j), a)])).
    { intros e dd n. unfold plain_failure_post.
      destruct (llmSuggestions v') as [sg|] eqn:Hsg; [done|].
      destruct (Hs Hsg) as [_ Hc].
      cbn [count fst is_completion]. rewrite count_app. cbn. lia. }
    destruct (Js.includes "Details:" le).
    + destruct (Js.split "Details:" le !! 1) as [p|];
        cbn [always mret prog_ret]; [apply Hfail|].
      intros a'. done.
    + cbn [always mret prog_ret]. apply Hfail.
Qed.

End Suggestions.

(** X23: a failure response that carries no suggestion was reached
    without the completion service: as soon as a fix has been asked for,
    answered or not, the failure that follows says so. *)
Theorem no_suggestion_no_fix_call (o : Oracle) (w : World) (jobId : string)
    (req : Request) (e d j : string) (n : nat) :
  let r := exec o (compile_handler jobId req) w in
  outcome r = Returned (CompileFailed e d j n None) ->
  count is_completion (trace r) = 0.
Proof.
  intros r Hout.
  pose proof (always_exec o _ _ w (compile_handler_suggests jobId req)) as H.
  fold r in H. by rewrite Hout in H.
Qed.

Lemma no_suggestion_no_fix_call_witness :
  count is_completion
    (trace (exec fails_oracle
              (compile_handler "job" (sample_request (VBool false))) empty_world))
  = 0.
Proof.
  apply (no_suggestion_no_fix_call fails_oracle empty_world "job"
           (sample_request (VBool false))
           MSG_UNDEFINED
           (Js.trim (Js.join NL (take 5 (drop 3 (Js.split NL log_undefined)))))
           "job" MAX_ATTEMPTS).
  reflexivity.
Defined.

(** ** [src/server.js]: what stands behind an artifact *)

Section SingleSuccess.

#[local] Arguments temp_dir : simpl never.
#[local] Arguments error_text : simpl never.
#[local] Arguments Single.interpret_log : simpl never.
#[local] Arguments Single.substring_to : simpl never.

Ltac fail_case :=
  cbn [always]; eapply always_mono; [|apply failure_reply_paths];
  intros ? ? (? & ? & ? & ? & -> & _); by intros ? ? [=].

Lemma single_success_paths (stderr_of : string -> string) (j : string)
    (req : Request) :
  always (Single.compile_handler stderr_of j req)
    (fun o t =>
       forall j' pdf, o = Returned (Single.Attachment j' pdf) ->
       exists x0 x1 x2 x3 x5,
         t = [(Mkdir (temp_dir j), Ok x0);
              (WriteFile (temp_dir j) "document.tex" (latex req), Ok x1);
              (Pdflatex (temp_dir j), Ok x2);
              (Access (temp_dir j) "document.pdf", Ok x3);
              (ReadFile (temp_dir j) "document.pdf", Ok pdf);
              (Rm (temp_dir j), Ok x5)]).
Proof.
  unfold Single.compile_handler. cbv zeta.
  destruct (truthy (latex req)); cbn [negb].
  2: { unfold mret, prog_ret. cbn [try_catch always]. by intros j' pdf [=]. }
  apply always_try_catch.
  unfold mbind, mret, prog_bind, prog_ret, Single.on_compile_error.
  unfold mbind, mret, prog_bind, prog_ret.
  cbn [bind await try_catch always settles_ok].
  intros [x0|m0]; cbn [bind try_catch]; [|fail_case].
  cbn [always].
  intros [x1|m1]; cbn [bind try_catch]; [|fail_case].
  cbn [always].
  intros [x2|m2]; cbn [bind try_catch always].
  - intros [x3|m3]; cbn [bind try_catch negb].
    + cbn [always].
      intros [x4|m4]; cbn [bind try_catch]; [|fail_case].
      cbn [always].
      intros [x5|m5]; cbn [bind try_catch]; [|fail_case].
      cbn [always]. intros j' pdf [= <- <-]. by exists x0, x1, x2, x3, x5.
    + cbn [always]. intros a4. cbn [bind try_catch]. fail_case.
  - intros [x3|m3]; cbn [bind try_catch]; fail_case.
Qed.

End SingleSuccess.

(** X24: in [server.js] an artifact is sent only after everything went
    through: the calls made are exactly the creation of the directory, the
    writing of the source, the run of the compiler, the check for the
    artifact, its reading and the removal of the directory, each of them
    answered without error, and what is sent is what was read. *)
Theorem single_success_trace (stderr_of : string -> string) (o : Oracle)
    (w : World) (jobId : string) (req : Request) (j pdf : string) :
  let r := exec o (Single.compile_handler stderr_of jobId req) w in
  outcome r = Returned (Single.Attachment j pdf) ->
  exists x0 x1 x2 x3 x5,
    trace r =
      [(Mkdir (temp_dir jobId), Ok x0);
       (WriteFile (temp_dir jobId) "document.tex" (latex req), Ok x1);
       (Pdflatex (temp_dir jobId), Ok x2);
       (Access (temp_dir jobId) "document.pdf", Ok x3);
       (ReadFile (temp_dir jobId) "document.pdf", Ok pdf);
       (Rm (temp_dir jobId), Ok x5)].
Proof.
  intros r Hout.
  exact (always_exec o _ _ w (single_success_paths stderr_of jobId req) j pdf Hout).
Qed.

Lemma single_success_trace_witness :
  exists x0 x1 x2 x3 x5,
    trace (exec compiles_oracle
             (Single.compile_handler silent "job" (sample_request VUndefined))
             empty_world) =
      [(Mkdir (temp_dir "job"), Ok x0);
       (WriteFile (temp_dir "job") "document.tex"
          (latex (sample_request VUndefined)), Ok x1);
       (Pdflatex (temp_dir "job"), Ok x2);
       (Access (temp_dir "job") "document.pdf", Ok x3);
       (ReadFile (temp_dir "job") "document.pdf", Ok "%PDF");
       (Rm (temp_dir "job"), Ok x5)].
Proof.
  apply (single_success_trace silent compiles_oracle empty_world "job"
           (sample_request VUndefined) "job" "%PDF").
  reflexivity.
Defined.

(** ** Requests without a source *)

(** X25: a request without the source field creates no working
    directory, whatever its body: the creation is never called and no
    directory comes into being.  When the body is an object, the request
    is answered with status 400, no call is made at all and the file
    system is as it was. *)
Theorem no_source_no_directory (o : Oracle) (w : World) (jobId : string)
    (body : option Request) :
  (forall req, body = Some req -> latex req = VUndefined) ->
  let r := exec o (compile_endpoint jobId body) w in
  (forall req, body = Some req ->
     outcome r = Returned (BadRequest "No LaTeX content provided") /\
     status (BadRequest "No LaTeX content provided") = 400 /\
     trace r = [] /\
     final r = w) /\
  (forall c a, (c, a) ∈ trace r -> c = Rm (temp_dir jobId)) /\
  (forall d, is_Some (fs (final r) !! d) -> is_Some (fs w !! d)).
Proof.
  intros Hbody. destruct body as [[l af]|].
  - specialize (Hbody _ eq_refl). cbn [latex] in Hbody. subst l.
    cbn zeta. split; [done|]. split; [|done].
    intros c a Hin. cbn in Hin. by apply elem_of_nil in Hin.
  - cbn zeta. split; [done|].
    cbn [compile_endpoint try_catch mbind prog_bind bind swallow mret prog_ret exec].
    unfold step, answer, faulty.
    destruct (io_fault o (clock w)); cbn [extend trace final fs].
    + split; [|done]. intros c a Hin.
      apply list_elem_of_singleton in Hin. by injection Hin as -> _.
    + split.
      * intros c a Hin.
        apply list_elem_of_singleton in Hin. by injection Hin as -> _.
      * intros d [files Hd]. unfold rm_tree in Hd.
        apply map_lookup_filter_Some in Hd as [Hd _]. by eexists.
Qed.

Lemma no_source_no_directory_witness :
  let r := exec compiles_oracle
             (compile_endpoint "job" (Some (MkRequest VUndefined (VBool true))))
             empty_world in
  (forall req, Some (MkRequest VUndefined (VBool true)) = Some req ->
     outcome r = Returned (BadRequest "No LaTeX content provided") /\
     status (BadRequest "No LaTeX content provided") = 400 /\
     trace r = [] /\
     final r = empty_world) /\
  (forall c a, (c, a) ∈ trace r -> c = Rm (temp_dir "job")) /\
  (forall d, is_Some (fs (final r) !! d) -> is_Some (fs empty_world !! d)).
Proof.
  apply (no_source_no_directory compiles_oracle empty_world "job"
           (Some (MkRequest VUndefined (VBool true)))).
  intros req [= <-]. reflexivity.
Defined.
